(** * Scoring layers of the live conference analysis

    The development follows [scoring.py] (score tabulation, optimistic
    ceiling, seed projection, Monte Carlo win probability, scenario builder,
    orchestrator) and the mark parser [_mark_to_seconds] of [scraper.py].

    Conventions of the embedding.
    - Python [str] is [string]; text is processed as [list ascii], each
      character read as a code point below 256.  Digits are the ASCII
      digits, and only ASCII letters take part in case mapping: the other
      letters never form part of a number, a keyword or a status word, so
      they stay inert in every function below.
    - Python [int] is [Z].  Python [float] is [Q], with exact arithmetic, in
      the layers as they are first written down: there a literal that
      denotes no rational (inf, nan) has no value, and [int] and [round] act
      on the exact sums.  The seed projection and the orchestrator are
      written a second time over an arithmetic that is a parameter
      ([compute_seed_projection_in], [run_all_analysis_in]): its instance
      [exact_arith] gives the first functions back, and its instance
      [binary64] computes with the IEEE 754 doubles of the interpreter, from
      the sort keys of the marks to the integer that is stored.  The
      simulation is exact in both.
    - A [dict] is an association list in insertion order with unique keys;
      a [set] is a duplicate-free list, iterated in insertion order.
    - An exception of the interpreter (ZeroDivisionError, ValueError,
      IndexError, OverflowError) is the [Raise] outcome of the result type
      used by the simulator and by the float arithmetic.
    - [PLACE_POINTS], [MONTE_CARLO_ITERATIONS] and the two views of the
      snapshot, [get_completed_finals] and [get_upcoming_finals], live
      outside the two source files: they are parameters of the layers.
    - The leverage layer builds headlines only; no other layer reads it, so
      it is modelled on its own and [run_all_analysis] goes without it. *)

From Stdlib Require Import String Ascii List ZArith QArith Qabs Qround Qpower.
From Stdlib Require Import Lia Lqa Bool.
From Stdlib Require Import Permutation Sorted Arith DecimalString.
From Stdlib Require Import PrimFloat SpecFloat FloatOps.
Import ListNotations.

Set Implicit Arguments.

(* ------------------------------------------------------------------ *)
(** ** Characters and text *)
(* ------------------------------------------------------------------ *)

Module Text.

Definition code (c : ascii) : N := N_of_ascii c.

Definition chr (n : N) : ascii := ascii_of_N n.

Definition newline : ascii := chr 10.

Definition nbsp : ascii := chr 160.

Definition is_digit (c : ascii) : bool :=
  (48 <=? code c)%N && (code c <=? 57)%N.

Definition is_lower (c : ascii) : bool :=
  (97 <=? code c)%N && (code c <=? 122)%N.

Definition is_upper (c : ascii) : bool :=
  (65 <=? code c)%N && (code c <=? 90)%N.

Definition is_alpha (c : ascii) : bool := is_lower c || is_upper c.

(** [str.isspace] and the regex class [\s] on code points below 256. *)
Definition is_space (c : ascii) : bool :=
  let n := code c in
  ((9 <=? n)%N && (n <=? 13)%N) || ((28 <=? n)%N && (n <=? 32)%N)
  || (n =? 133)%N || (n =? 160)%N.

Definition upper_char (c : ascii) : ascii :=
  if is_lower c then chr (code c - 32) else c.

Definition lower_char (c : ascii) : ascii :=
  if is_upper c then chr (code c + 32) else c.

Definition upper (l : list ascii) : list ascii := map upper_char l.

Definition lower (l : list ascii) : list ascii := map lower_char l.

Fixpoint drop_while (p : ascii -> bool) (l : list ascii) : list ascii :=
  match l with
  | [] => []
  | c :: t => if p c then drop_while p t else l
  end.

Fixpoint take_while (p : ascii -> bool) (l : list ascii) : list ascii :=
  match l with
  | [] => []
  | c :: t => if p c then c :: take_while p t else []
  end.

Definition lstrip (l : list ascii) : list ascii := drop_while is_space l.

Definition rstrip (l : list ascii) : list ascii := rev (lstrip (rev l)).

(** [str.strip()] *)
Definition strip (l : list ascii) : list ascii := rstrip (lstrip l).

(** [sub in s] for strings. *)
Fixpoint is_prefix (p l : list ascii) : bool :=
  match p, l with
  | [], _ => true
  | _ :: _, [] => false
  | a :: p', b :: l' => Ascii.eqb a b && is_prefix p' l'
  end.

Fixpoint contains (sub l : list ascii) : bool :=
  is_prefix sub l ||
  match l with
  | [] => false
  | _ :: t => contains sub t
  end.

(** [s.split(sep)[0]] and [s.split(sep)[1]] for a one-character separator. *)
Definition not_sep (sep : ascii) (c : ascii) : bool := negb (Ascii.eqb c sep).

Definition split_part0 (sep : ascii) (l : list ascii) : list ascii :=
  take_while (not_sep sep) l.

Definition split_part1 (sep : ascii) (l : list ascii) : option (list ascii) :=
  match drop_while (not_sep sep) l with
  | [] => None
  | _ :: rest => Some (take_while (not_sep sep) rest)
  end.

Definition of_string (s : string) : list ascii := list_ascii_of_string s.

End Text.

(* ------------------------------------------------------------------ *)
(** ** Python's [float(str)] on decimal literals *)
(* ------------------------------------------------------------------ *)

Module PyFloat.

Import Text.

Definition digit_val (c : ascii) : Z := Z.of_N (code c) - 48.

(** A digit part: digits, with single underscores allowed between digits.
    Returns the digits read and the text that follows. *)
Fixpoint digitpart (prev_digit : bool) (l : list ascii)
  : list ascii * list ascii :=
  match l with
  | [] => ([], [])
  | c :: t =>
      if is_digit c then
        let (ds, rest) := digitpart true t in (c :: ds, rest)
      else if Ascii.eqb c "_" && prev_digit then
        match t with
        | d :: _ =>
            if is_digit d then digitpart false t else ([], l)
        | [] => ([], l)
        end
      else ([], l)
  end.

Definition digits_to_Z (ds : list ascii) : Z :=
  fold_left (fun acc c => 10 * acc + digit_val c)%Z ds 0%Z.

(** Optional sign: [true] for a minus. *)
Definition read_sign (l : list ascii) : bool * list ascii :=
  match l with
  | c :: t =>
      if Ascii.eqb c "-" then (true, t)
      else if Ascii.eqb c "+" then (false, t)
      else (false, l)
  | [] => (false, [])
  end.

(** Exponent part [E[sign]digits]; the text is already upper or lower case. *)
Definition read_exponent (l : list ascii) : option (Z * list ascii) :=
  match l with
  | c :: t =>
      if Ascii.eqb c "E" || Ascii.eqb c "e" then
        let (neg, t1) := read_sign t in
        let (ds, rest) := digitpart false t1 in
        match ds with
        | [] => None
        | _ => Some ((if neg then - digits_to_Z ds else digits_to_Z ds)%Z, rest)
        end
      else Some (0%Z, l)
  | [] => Some (0%Z, [])
  end.

(** [m * 10 ^ e] as a rational. *)
Definition scale10 (m e : Z) : Q :=
  if (0 <=? e)%Z then inject_Z (m * 10 ^ e)
  else Qred (Qmake m (Z.to_pos (10 ^ (- e)))).

(** The whitespace that [float] skips at both ends of its argument: the
    ASCII blanks, and the no-break space and next-line characters, which the
    conversion first turns into blanks.  The separators U+001C to U+001F,
    which [str.strip] removes, are not part of it. *)
Definition is_float_space (c : ascii) : bool :=
  let n := code c in
  ((9 <=? n)%N && (n <=? 13)%N) || (n =? 32)%N || (n =? 133)%N || (n =? 160)%N.

Definition float_strip (l : list ascii) : list ascii :=
  rev (drop_while is_float_space (rev (drop_while is_float_space l))).

(** [float(s)]: [None] stands for ValueError. *)
Definition py_float (s : list ascii) : option Q :=
  let s0 := float_strip s in
  let (neg, s1) := read_sign s0 in
  let (ip, s2) := digitpart false s1 in
  let (fp, s3) :=
    match s2 with
    | c :: t => if Ascii.eqb c "." then digitpart false t else ([], s2)
    | [] => ([], [])
    end in
  match ip, fp with
  | [], [] => None
  | _, _ =>
      match read_exponent s3 with
      | Some (e, []) =>
          let m := digits_to_Z (ip ++ fp) in
          let v := scale10 m (e - Z.of_nat (length fp)) in
          Some (if neg then Qopp v else v)
      | _ => None
      end
  end.

End PyFloat.

(* ------------------------------------------------------------------ *)
(** ** scraper.py: mark normalisation and conversion *)
(* ------------------------------------------------------------------ *)

Module Scraper.

Import Text PyFloat.

(** [s.replace] of the no-break space by the empty string. *)
Definition remove_nbsp (l : list ascii) : list ascii :=
  filter (fun c => negb (Ascii.eqb c nbsp)) l.

(** [s.replace] of two spaces by one: non-overlapping, left to right. *)
Fixpoint replace_double_space (l : list ascii) : list ascii :=
  match l with
  | [] => []
  | c :: t =>
      match t with
      | d :: t' =>
          if Ascii.eqb c " " && Ascii.eqb d " "
          then " "%char :: replace_double_space t'
          else c :: replace_double_space t
      | [] => [c]
      end
  end.

Definition _normalize_mark (mark : list ascii) : list ascii :=
  replace_double_space (remove_nbsp (strip mark)).

(** Index of the last [)] of a list, if any. *)
Fixpoint last_close (l : list ascii) : option nat :=
  match l with
  | [] => None
  | c :: t =>
      match last_close t with
      | Some k => Some (S k)
      | None => if Ascii.eqb c ")" then Some O else None
      end
  end.

(** Length of the match of [\s*\(.*\)] at the head of [l]: the whitespace
    run, the opening parenthesis, and the longest stretch without a newline
    that ends in a closing parenthesis. *)
Definition paren_match_len (l : list ascii) : option nat :=
  let ws := take_while is_space l in
  match drop_while is_space l with
  | c :: body =>
      if Ascii.eqb c "(" then
        let line := take_while (fun x => negb (Ascii.eqb x newline)) body in
        match last_close line with
        | Some k => Some (length ws + 1 + (k + 1))%nat
        | None => None
        end
      else None
  | [] => None
  end.

(** [re.sub] deleting every match of that pattern: [skip] counts the characters of the
    current match still to be dropped. *)
Fixpoint sub_parens (skip : nat) (l : list ascii) : list ascii :=
  match l with
  | [] => []
  | c :: t =>
      match skip with
      | S k => sub_parens k t
      | O =>
          match paren_match_len l with
          | Some n => sub_parens (Nat.pred n) t
          | None => c :: sub_parens O t
          end
      end
  end.

(** [re.sub] deleting [[a-zA-Z]$]: the end anchor also matches just before
    a final newline. *)
Fixpoint sub_trailing_letter (l : list ascii) : list ascii :=
  match l with
  | [] => []
  | c :: t =>
      if is_alpha c && (match t with
                        | [] => true
                        | d :: [] => Ascii.eqb d newline
                        | _ => false
                        end)
      then t
      else c :: sub_trailing_letter t
  end.

(** [re.match] of the pattern [^\d+-\d+]. *)
Definition feet_inches_shape (l : list ascii) : bool :=
  match take_while is_digit l, drop_while is_digit l with
  | _ :: _, c :: d :: _ => Ascii.eqb c "-" && is_digit d
  | _, _ => false
  end.

Definition unparseable_words : list string :=
  ["DNS"; "DNF"; "DQ"; "NH"; "NM"; "FOUL"; EmptyString]%string.

Definition text_in (l : list ascii) (ws : list string) : bool :=
  existsb (String.eqb (string_of_list_ascii l)) ws.

Definition _mark_to_seconds (mark : string) : option Q :=
  let mark := upper (_normalize_mark (of_string mark)) in
  if text_in mark unparseable_words then None
  else
    let mark := sub_parens O mark in
    let mark := strip (sub_trailing_letter mark) in
    if feet_inches_shape mark then
      match py_float (split_part0 "-" mark), split_part1 "-" mark with
      | Some feet, Some p1 =>
          match py_float p1 with
          | Some inches => Some (- (feet * 12 + inches))
          | None => None
          end
      | _, _ => None
      end
    else if existsb (Ascii.eqb ":") mark then
      match py_float (split_part0 ":" mark), split_part1 ":" mark with
      | Some minutes, Some p1 =>
          match py_float p1 with
          | Some seconds => Some (minutes * 60 + seconds)
          | None => None
          end
      | _, _ => None
      end
    else py_float mark.

End Scraper.

(* ------------------------------------------------------------------ *)
(** ** Dictionaries and sets keyed by strings *)
(* ------------------------------------------------------------------ *)

Section Dict.

Variable V : Type.

Definition dict := list (string * V).

Fixpoint dict_get (d : dict) (k : string) : option V :=
  match d with
  | [] => None
  | (k', v) :: t => if String.eqb k k' then Some v else dict_get t k
  end.

(** [d.get(k, default)] *)
Definition dict_get_default (d : dict) (k : string) (default : V) : V :=
  match dict_get d k with
  | Some v => v
  | None => default
  end.

(** [d[k] = v]: an existing key keeps its position, a new key goes last. *)
Fixpoint dict_set (d : dict) (k : string) (v : V) : dict :=
  match d with
  | [] => [(k, v)]
  | (k', v') :: t =>
      if String.eqb k k' then (k', v) :: t else (k', v') :: dict_set t k v
  end.

Definition dict_keys (d : dict) : list string := map fst d.

Definition dict_values (d : dict) : list V := map snd d.

Definition dict_mem (d : dict) (k : string) : bool :=
  match dict_get d k with
  | Some _ => true
  | None => false
  end.

End Dict.

Definition set_mem (s : list string) (k : string) : bool :=
  existsb (String.eqb k) s.

(** [s.add(k)] *)
Definition set_add (s : list string) (k : string) : list string :=
  if set_mem s k then s else s ++ [k].

(** Truth value of a Python string. *)
Definition truthy (s : string) : bool := negb (String.eqb s EmptyString).

(** Stable sort, the behaviour of [sorted]: an element goes before the
    first later element that is not smaller. *)
Section Sorted.

Variable A : Type.
Variable lt : A -> A -> bool.

Fixpoint sorted_insert (x : A) (l : list A) : list A :=
  match l with
  | [] => [x]
  | y :: t => if lt y x then y :: sorted_insert x t else x :: y :: t
  end.

Fixpoint sorted (l : list A) : list A :=
  match l with
  | [] => []
  | x :: t => sorted_insert x (sorted t)
  end.

End Sorted.

Definition Qltb (a b : Q) : bool := negb (Qle_bool b a).

(** [range(a, b)] *)
Definition range (a b : Z) : list Z :=
  map (fun i => a + Z.of_nat i)%Z (seq 0 (Z.to_nat (b - a))).

Definition sum_Z (l : list Z) : Z := fold_right Z.add 0%Z l.

Definition sum_Q (l : list Q) : Q := fold_right Qplus 0 l.

(* ------------------------------------------------------------------ *)
(** ** The snapshot (data_model.py, the input contract) *)
(* ------------------------------------------------------------------ *)

Module Gender.
Inductive t := MEN | WOMEN.
Definition eqb (a b : t) : bool :=
  match a, b with
  | MEN, MEN | WOMEN, WOMEN => true
  | _, _ => false
  end.
End Gender.

Module EventStatus.
Inductive t := SCHEDULED | IN_PROGRESS | FINAL.
Definition eqb (a b : t) : bool :=
  match a, b with
  | SCHEDULED, SCHEDULED | IN_PROGRESS, IN_PROGRESS | FINAL, FINAL => true
  | _, _ => false
  end.
End EventStatus.

Module RoundType.
Inductive t := PRELIM | FINAL.
Definition eqb (a b : t) : bool :=
  match a, b with
  | PRELIM, PRELIM | FINAL, FINAL => true
  | _, _ => false
  end.
End RoundType.

Module Athlete.
Record t := mk {
  name : string;
  team : string;
  seed_mark : option string;
  final_mark : option string;
  final_place : option Z;
  prelim_mark : option string
}.
End Athlete.

Module EventEntry.
Record t := mk {
  athlete : Athlete.t;
  effective_seed : option string
}.
End EventEntry.

(** [base_event_name] holds the value of the property of that name, which
    data_model.py computes from the event name. *)
Module MeetEvent.
Record t := mk {
  event_name : string;
  base_event_name : string;
  gender : Gender.t;
  round_type : RoundType.t;
  status : EventStatus.t;
  entries : list EventEntry.t
}.
End MeetEvent.

(** [is_complete] holds the value of the property of that name. *)
Module CombinedEventResult.
Record t := mk {
  event_name : string;
  gender : Gender.t;
  status : EventStatus.t;
  athletes : list Athlete.t;
  is_complete : bool
}.
End CombinedEventResult.

Module MeetState.
Record t := mk {
  events : list MeetEvent.t;
  combined_events : list CombinedEventResult.t
}.
End MeetState.

Module TeamScore.
Record t := mk {
  team : string;
  gender : Gender.t;
  actual_points : Z;
  events_scored : list string;
  optimistic_ceiling : Z;
  seed_projection : Z;
  win_probability : Q
}.

(** [TeamScore(team=team, gender=gender)] *)
Definition new (team : string) (gender : Gender.t) : t :=
  mk team gender 0 [] 0 0 0.
End TeamScore.

(** Modelled from the spec: the two read-only views of the snapshot, which
    data_model.py defines.  A completed final is a final-round event of the
    gender in FINAL status; an upcoming final is a final-round event of the
    gender not yet in FINAL status with at least one entrant. *)
Definition spec_get_completed_finals (state : MeetState.t) (g : Gender.t)
  : list MeetEvent.t :=
  filter (fun e =>
            Gender.eqb (MeetEvent.gender e) g
            && RoundType.eqb (MeetEvent.round_type e) RoundType.FINAL
            && EventStatus.eqb (MeetEvent.status e) EventStatus.FINAL)
         (MeetState.events state).

Definition spec_get_upcoming_finals (state : MeetState.t) (g : Gender.t)
  : list MeetEvent.t :=
  filter (fun e =>
            Gender.eqb (MeetEvent.gender e) g
            && RoundType.eqb (MeetEvent.round_type e) RoundType.FINAL
            && negb (EventStatus.eqb (MeetEvent.status e) EventStatus.FINAL)
            && negb (match MeetEvent.entries e with [] => true | _ => false end))
         (MeetState.events state).

(** [PLACE_POINTS] of config.py is a dictionary from places to points; it
    is a parameter of the scoring layers.  Lookup in such a dictionary: *)
Fixpoint table_get (table : list (Z * Z)) (p : Z) : option Z :=
  match table with
  | [] => None
  | (k, v) :: t => if (p =? k)%Z then Some v else table_get t p
  end.

(** The usual collegiate table, 10-8-6-5-4-3-2-1, one instance of the
    configured table. *)
Definition standard_place_points : list (Z * Z) :=
  [(1, 10); (2, 8); (3, 6); (4, 5); (5, 4); (6, 3); (7, 2); (8, 1)]%Z.

(** The contract on the table: its places are 1 to 8 and every place is
    worth a positive number of points. *)
Definition valid_table (table : list (Z * Z)) : bool :=
  forallb (fun kv => (1 <=? fst kv)%Z && (fst kv <=? 8)%Z && (0 <? snd kv)%Z) table
  && forallb (fun p => existsb (fun kv => (p =? fst kv)%Z) table)
             [1; 2; 3; 4; 5; 6; 7; 8]%Z.

(* ------------------------------------------------------------------ *)
(** ** scoring.py *)
(* ------------------------------------------------------------------ *)

Import Text Scraper.

(** [str(n)] for an integer. *)
Definition str_of_Z (n : Z) : string :=
  DecimalString.NilZero.string_of_int (Z.to_int n).

Definition field_keywords : list string :=
  ["jump"; "vault"; "throw"; "shot"; "weight"; "discus"; "javelin"; "hammer"]%string.

Definition unseeded_key : Q := inject_Z 1000000000.

Definition is_field_event (event : MeetEvent.t) : bool :=
  let name := lower (of_string (MeetEvent.base_event_name event)) in
  existsb (fun k => contains (of_string k) name) field_keywords.

Definition _seed_sort_key (entry : EventEntry.t) (event : MeetEvent.t) : Q :=
  let mark := match EventEntry.effective_seed entry with
              | Some m => m
              | None => EmptyString
              end in
  match _mark_to_seconds mark with
  | None => unseeded_key
  | Some val => if is_field_event event then - val else val
  end.

(** Entries paired with their position in [event.entries]; the position
    stands for the identity of the entry object, which the scenario builder
    looks up through [id]. *)
Definition indexed_entries (event : MeetEvent.t) : list (nat * EventEntry.t) :=
  combine (seq 0 (length (MeetEvent.entries event))) (MeetEvent.entries event).

Definition entry_named (e : EventEntry.t) : bool :=
  truthy (Athlete.name (EventEntry.athlete e)).

Definition entry_team (e : EventEntry.t) : string :=
  Athlete.team (EventEntry.athlete e).

Definition _rank_entries_by_seed (event : MeetEvent.t)
  : list (nat * EventEntry.t) :=
  let entries := filter (fun ie => entry_named (snd ie)) (indexed_entries event) in
  sorted (fun a b => Qltb (_seed_sort_key (snd a) event)
                          (_seed_sort_key (snd b) event))
         entries.

Definition string_ltb (a b : string) : bool :=
  match String.compare a b with
  | Lt => true
  | _ => false
  end.

(** Outcome of code that may raise. *)
Inductive fault := ZeroDivisionError | ValueError | IndexError | OverflowError.

Inductive result (A : Type) : Type :=
| Ok (a : A)
| Raise (f : fault).

Arguments Ok {A} a.
Arguments Raise {A} f.

Definition bind (A B : Type) (m : result A) (k : A -> result B) : result B :=
  match m with
  | Ok a => k a
  | Raise f => Raise f
  end.

Notation "x <- m ;; k" := (bind m (fun x => k))
  (at level 61, m at next level, right associativity).

Fixpoint map_result (A B : Type) (f : A -> result B) (l : list A)
  : result (list B) :=
  match l with
  | [] => Ok []
  | x :: t => y <- f x ;; ys <- map_result f t ;; Ok (y :: ys)
  end.

(** True division. *)
Definition py_div (a b : Q) : result Q :=
  if Qeq_bool b 0 then Raise ZeroDivisionError else Ok (a / b).

(** [max] of a sequence. *)
Definition py_max (l : list Z) : result Z :=
  match l with
  | [] => Raise ValueError
  | x :: t => Ok (fold_left Z.max t x)
  end.

(** Results of the scenario builder and of the orchestrator. *)
Module EntryDetail.
Record t := mk {
  athlete : string;
  seed_mark : string;
  proj_place : Z;
  seed_pts : Z
}.
End EntryDetail.

Module EventBreakdown.
Record t := mk {
  event : string;
  athletes : list EntryDetail.t;
  scenario_a_pts : Z;
  scenario_b_pts : Z;
  scenario_c_pts : Z
}.
End EventBreakdown.

Module Scenarios.
Record t := mk {
  team : string;
  current : Z;
  scenario_a : Z;
  scenario_b : Z;
  scenario_c : Z;
  breakdown : list EventBreakdown.t
}.
End Scenarios.

Module Report.
Record t := mk {
  gender : Gender.t;
  team_scores : list TeamScore.t;
  actual : dict TeamScore.t;
  state : MeetState.t
}.
End Report.

Section Scoring.

(** Configuration and accessors that live outside scoring.py. *)
Variable PLACE_POINTS : list (Z * Z).
Variable get_completed_finals : MeetState.t -> Gender.t -> list MeetEvent.t.
Variable get_upcoming_finals : MeetState.t -> Gender.t -> list MeetEvent.t.

(** [PLACE_POINTS[p]], when [p in PLACE_POINTS]. *)
Definition place_points (p : Z) : option Z := table_get PLACE_POINTS p.

(** [PLACE_POINTS.get(p, 0)] *)
Definition points_or_zero (p : Z) : Z :=
  match place_points p with
  | Some v => v
  | None => 0%Z
  end.

(** *** 1. Current actual score *)

Definition _get_or_create (gender : Gender.t) (scores : dict TeamScore.t)
           (team : string) : dict TeamScore.t * TeamScore.t :=
  match dict_get scores team with
  | Some ts => (scores, ts)
  | None =>
      let ts := TeamScore.new team gender in (dict_set scores team ts, ts)
  end.

Definition add_points (ts : TeamScore.t) (pts : Z) (label : string)
  : TeamScore.t :=
  TeamScore.mk (TeamScore.team ts) (TeamScore.gender ts)
               (TeamScore.actual_points ts + pts)
               (TeamScore.events_scored ts ++ [label])
               (TeamScore.optimistic_ceiling ts)
               (TeamScore.seed_projection ts)
               (TeamScore.win_probability ts).

Definition scored_label (event_name : string) (place : Z) : string :=
  (event_name ++ " (" ++ str_of_Z place ++ ")")%string.

(** Body of both loops: [if a.final_place and a.final_place in PLACE_POINTS]. *)
Definition tally_athlete (gender : Gender.t) (event_name : string)
           (scores : dict TeamScore.t) (a : Athlete.t) : dict TeamScore.t :=
  match Athlete.final_place a with
  | Some p =>
      if (p =? 0)%Z then scores
      else
        match place_points p with
        | Some pts =>
            let (scores1, ts) := _get_or_create gender scores (Athlete.team a) in
            dict_set scores1 (Athlete.team a)
                     (add_points ts pts (scored_label event_name p))
        | None => scores
        end
  | None => scores
  end.

Definition tally_final (gender : Gender.t) (scores : dict TeamScore.t)
           (event : MeetEvent.t) : dict TeamScore.t :=
  fold_left (fun sc entry =>
               tally_athlete gender (MeetEvent.event_name event) sc
                             (EventEntry.athlete entry))
            (MeetEvent.entries event) scores.

Definition tally_combined (gender : Gender.t) (scores : dict TeamScore.t)
           (combined : CombinedEventResult.t) : dict TeamScore.t :=
  if negb (Gender.eqb (CombinedEventResult.gender combined) gender)
     || negb (CombinedEventResult.is_complete combined)
  then scores
  else fold_left (tally_athlete gender (CombinedEventResult.event_name combined))
                 (CombinedEventResult.athletes combined) scores.

Definition compute_actual_scores (state : MeetState.t) (gender : Gender.t)
  : dict TeamScore.t :=
  let scores := fold_left (tally_final gender)
                          (get_completed_finals state gender) [] in
  fold_left (tally_combined gender) (MeetState.combined_events state) scores.

(** *** 2. Optimistic ceiling *)

(** [d[k] += v] on a [defaultdict(int)]. *)
Definition dict_add_Z (d : dict Z) (k : string) (v : Z) : dict Z :=
  dict_set d k (dict_get_default d k 0 + v)%Z.

Definition actual_points_of (actual : dict TeamScore.t) (team : string) : Z :=
  match dict_get actual team with
  | Some ts => TeamScore.actual_points ts
  | None => 0%Z
  end.

Definition snapshot_teams (state : MeetState.t) : list string :=
  fold_left
    (fun acc event =>
       fold_left (fun acc' entry =>
                    if truthy (entry_team entry)
                    then set_add acc' (entry_team entry) else acc')
                 (MeetEvent.entries event) acc)
    (MeetState.events state) [].

Definition count_team_athletes (event : MeetEvent.t) : dict Z :=
  fold_left (fun d entry => dict_add_Z d (entry_team entry) 1)
            (MeetEvent.entries event) [].

(** Inner loop [for _ in range(count)], with its break. *)
Fixpoint claim_places (count : nat) (team : string) (place : Z)
         (ceilings : dict Z) : Z * dict Z :=
  match count with
  | O => (place, ceilings)
  | S k =>
      let (place1, ceilings1) :=
        match place_points place with
        | Some pts => ((place + 1)%Z, dict_add_Z ceilings team pts)
        | None => (place, ceilings)
        end in
      if (place1 >? 8)%Z then (place1, ceilings1)
      else claim_places k team place1 ceilings1
  end.

(** Outer loop [for team in team_list], with its break. *)
Fixpoint claim_by_team (team_list : list string) (team_athletes : dict Z)
         (place : Z) (ceilings : dict Z) : dict Z :=
  match team_list with
  | [] => ceilings
  | team :: rest =>
      let count := dict_get_default team_athletes team 0%Z in
      let (place1, ceilings1) :=
        claim_places (Z.to_nat count) team place ceilings in
      if (place1 >? 8)%Z then ceilings1
      else claim_by_team rest team_athletes place1 ceilings1
  end.

Definition ceiling_event (ceilings : dict Z) (event : MeetEvent.t) : dict Z :=
  let team_athletes := count_team_athletes event in
  let team_list := sorted string_ltb (dict_keys team_athletes) in
  claim_by_team team_list team_athletes 1%Z ceilings.

Definition compute_optimistic_ceiling (actual : dict TeamScore.t)
           (state : MeetState.t) (gender : Gender.t) : dict Z :=
  let all_teams := snapshot_teams state in
  let ceilings :=
    fold_left (fun c team => dict_set c team (actual_points_of actual team))
              all_teams [] in
  fold_left ceiling_event (get_upcoming_finals state gender) ceilings.

(** *** 3. Seed-based projection *)

Definition tie_tolerance : Q := 1 # 1000.

(** The tie test on exact keys; [tied_with_in] takes it in the floats of
    the interpreter, where two seeds written one thousandth apart can fall
    within the tolerance. *)
Definition tied_with (event : MeetEvent.t) (current_key : Q)
           (e : nat * EventEntry.t) : bool :=
  Qltb (Qabs (_seed_sort_key (snd e) event - current_key)) tie_tolerance.

Fixpoint take_tied (event : MeetEvent.t) (current_key : Q)
         (l : list (nat * EventEntry.t)) : list (nat * EventEntry.t) :=
  match l with
  | [] => []
  | e :: t => if tied_with event current_key e
              then e :: take_tied event current_key t else []
  end.

(** Average of the table over the tied places, [0] for no place. *)
Definition average_points (tied_places : list Z) : Q :=
  match tied_places with
  | [] => 0
  | _ => inject_Z (sum_Z (map points_or_zero tied_places))
         / inject_Z (Z.of_nat (length tied_places))
  end.

Definition any_scoring (tied_places : list Z) : bool :=
  existsb (fun p => (points_or_zero p >? 0)%Z) tied_places.

Definition award_block (tied_places : list Z) (avg_pts : Q)
           (projections : dict Q) (block : list (nat * EventEntry.t)) : dict Q :=
  fold_left (fun pr e =>
               if any_scoring tied_places
               then dict_set pr (entry_team (snd e))
                             (dict_get_default pr (entry_team (snd e)) 0 + avg_pts)
               else pr)
            block projections.

(** The loop [while i < len(ranked) and place <= 8]; [rest] is [ranked[i:]].
    Every round consumes at least one entry, so [length rest] rounds are
    enough. *)
Fixpoint project_walk (fuel : nat) (event : MeetEvent.t)
         (rest : list (nat * EventEntry.t)) (place : Z)
         (projections : dict Q) : dict Q :=
  match fuel with
  | O => projections
  | S fuel' =>
      match rest with
      | [] => projections
      | first :: others =>
          if (place >? 8)%Z then projections
          else
            let current_key := _seed_sort_key (snd first) event in
            let tail := take_tied event current_key others in
            let tied_count := Z.of_nat (S (length tail)) in
            let tied_places := range place (Z.min (place + tied_count) 9) in
            let avg_pts := average_points tied_places in
            let projections1 :=
              award_block tied_places avg_pts projections (first :: tail) in
            project_walk fuel' event (skipn (length tail) others)
                         (place + tied_count)%Z projections1
      end
  end.

Definition project_event (projections : dict Q) (event : MeetEvent.t) : dict Q :=
  let ranked := _rank_entries_by_seed event in
  project_walk (length ranked) event ranked 1%Z projections.

Definition compute_seed_projection (actual : dict TeamScore.t)
           (state : MeetState.t) (gender : Gender.t) : dict Q :=
  let projections :=
    fold_left (fun pr kv =>
                 dict_set pr (fst kv) (inject_Z (TeamScore.actual_points (snd kv))))
              actual [] in
  fold_left project_event (get_upcoming_finals state gender) projections.

(** *** 5. Monte Carlo win probability *)

Definition _get_top_seed_win_prob (event : MeetEvent.t) : Q :=
  let name := lower (of_string (MeetEvent.base_event_name event)) in
  let has k := contains (of_string k) name in
  if has "60m"%string && negb (has "hurdle"%string) then 42 # 100
  else if has "200m"%string then 40 # 100
  else if has "400m"%string then 38 # 100
  else if has "hurdle"%string then 45 # 100
  else if has "800m"%string then 30 # 100
  else if has "mile"%string || has "1000m"%string then 30 # 100
  else if has "3000m"%string || has "5000m"%string then 35 # 100
  else if has "relay"%string then 40 # 100
  else 40 # 100.

Definition decay : Q := 65 # 100.

Definition _seed_rank_to_strength (rank n_athletes : Z) (top_seed_prob : Q) : Q :=
  if (n_athletes <=? 1)%Z then 1
  else Qpower decay (rank - 1).

(** Sequence of the values that the successive calls of [random.random()]
    return; the simulator threads the number of calls made so far. *)
Variable random_draws : nat -> Q.

Definition upcoming_with_entries (state : MeetState.t) (gender : Gender.t)
  : list MeetEvent.t :=
  filter (fun e => match MeetEvent.entries e with [] => false | _ => true end)
         (get_upcoming_finals state gender).

(** The branch taken when nothing is left to simulate. *)
Definition current_leaders (actual : dict TeamScore.t)
  : result (dict Q) :=
  match actual with
  | [] => Ok []
  | _ =>
      max_pts <- py_max (map TeamScore.actual_points (dict_values actual)) ;;
      let winners :=
        dict_keys (filter (fun kv => (TeamScore.actual_points (snd kv) =? max_pts)%Z)
                          actual) in
      map_result
        (fun kv =>
           if set_mem winners (fst kv)
           then v <- py_div 1 (inject_Z (Z.of_nat (length winners))) ;;
                Ok (fst kv, v)
           else Ok (fst kv, 0))
        actual
  end.

Definition event_probs (event : MeetEvent.t)
  : result (list (EventEntry.t * Q)) :=
  let ranked := map snd (_rank_entries_by_seed event) in
  let n := Z.of_nat (length ranked) in
  let top_prob := _get_top_seed_win_prob event in
  let strengths :=
    map (fun i => _seed_rank_to_strength (i + 1) n top_prob) (range 0 n) in
  let total_strength := sum_Q strengths in
  probs <- map_result (fun s => py_div s total_strength) strengths ;;
  Ok (combine ranked probs).

(** The cumulative walk that picks [chosen_idx]. *)
Fixpoint choose_index (r cumulative : Q) (idx : nat)
         (remaining : list (EventEntry.t * Q)) : nat :=
  match remaining with
  | [] => O
  | (_, p) :: t =>
      let cumulative1 := cumulative + p in
      if Qle_bool r cumulative1 then idx
      else choose_index r cumulative1 (S idx) t
  end.

(** [l.pop(i)] *)
Definition list_pop (A : Type) (l : list A) (i : nat) : result (A * list A) :=
  match nth_error l i with
  | Some x => Ok (x, firstn i l ++ skipn (S i) l)
  | None => Raise IndexError
  end.

(** The loop [while remaining_entries and place <= 8]: every round pops one
    entry, so [length remaining] rounds are enough.  The state is the number
    of random draws made and the simulated scores. *)
Fixpoint place_loop (fuel : nat) (remaining : list (EventEntry.t * Q))
         (place : Z) (draws : nat) (sim_scores : dict Z)
  : result (nat * dict Z) :=
  match fuel with
  | O => Ok (draws, sim_scores)
  | S fuel' =>
      match remaining with
      | [] => Ok (draws, sim_scores)
      | _ =>
          if (place >? 8)%Z then Ok (draws, sim_scores)
          else
            let total := sum_Q (map snd remaining) in
            if Qle_bool total 0 then Ok (draws, sim_scores)
            else
              let r := random_draws draws * total in
              let chosen_idx := choose_index r 0 O remaining in
              popped <- list_pop remaining chosen_idx ;;
              let winner_entry := fst (fst popped) in
              let pts := points_or_zero place in
              let sim_scores1 :=
                if (pts >? 0)%Z
                then dict_set sim_scores (entry_team winner_entry)
                              (dict_get_default sim_scores
                                                (entry_team winner_entry) 0 + pts)%Z
                else sim_scores in
              place_loop fuel' (snd popped) (place + 1)%Z (S draws) sim_scores1
      end
  end.

Definition simulate_event (st : nat * dict Z)
           (ed : list (EventEntry.t * Q)) : result (nat * dict Z) :=
  place_loop (length ed) ed 1%Z (fst st) (snd st).

Fixpoint simulate_events (event_data : list (list (EventEntry.t * Q)))
         (st : nat * dict Z) : result (nat * dict Z) :=
  match event_data with
  | [] => Ok st
  | ed :: rest => st1 <- simulate_event st ed ;; simulate_events rest st1
  end.

(** [win_counts[t] += v] on a [defaultdict(int)]. *)
Definition dict_add_Q (d : dict Q) (k : string) (v : Q) : dict Q :=
  dict_set d k (dict_get_default d k 0 + v).

Fixpoint credit_leaders (leaders todo : list string) (win_counts : dict Q)
  : result (dict Q) :=
  match todo with
  | [] => Ok win_counts
  | t :: rest =>
      share <- py_div 1 (inject_Z (Z.of_nat (length leaders))) ;;
      credit_leaders leaders rest (dict_add_Q win_counts t share)
  end.

(** One trial. *)
Definition run_trial (actual : dict TeamScore.t) (all_teams : list string)
           (event_data : list (list (EventEntry.t * Q)))
           (st : nat * dict Q) : result (nat * dict Q) :=
  let sim_scores :=
    fold_left (fun d t => dict_set d t (actual_points_of actual t)) all_teams [] in
  sim <- simulate_events event_data (fst st, sim_scores) ;;
  max_score <- match snd sim with
               | [] => Ok 0%Z
               | _ => py_max (dict_values (snd sim))
               end ;;
  let leaders :=
    dict_keys (filter (fun kv => (snd kv =? max_score)%Z) (snd sim)) in
  win_counts <- credit_leaders leaders leaders (snd st) ;;
  Ok (fst sim, win_counts).

Fixpoint run_trials (n : nat) (actual : dict TeamScore.t)
         (all_teams : list string)
         (event_data : list (list (EventEntry.t * Q)))
         (st : nat * dict Q) : result (nat * dict Q) :=
  match n with
  | O => Ok st
  | S k =>
      st1 <- run_trial actual all_teams event_data st ;;
      run_trials k actual all_teams event_data st1
  end.

Definition simulation_teams (actual : dict TeamScore.t)
           (event_data : list (list (EventEntry.t * Q))) : list string :=
  fold_left (fun acc ed =>
               fold_left (fun acc' ep => set_add acc' (entry_team (fst ep))) ed acc)
            event_data
            (fold_left set_add (dict_keys actual) []).

Fixpoint normalise_credit (teams : list string) (win_counts : dict Q)
         (total : Q) : result (dict Q) :=
  match teams with
  | [] => Ok []
  | t :: rest =>
      if Qltb 0 (dict_get_default win_counts t 0) then
        v <- py_div (dict_get_default win_counts t 0) total ;;
        tl <- normalise_credit rest win_counts total ;;
        Ok ((t, v) :: tl)
      else normalise_credit rest win_counts total
  end.

Definition compute_win_probability (actual : dict TeamScore.t)
           (state : MeetState.t) (gender : Gender.t) (n_iterations : Z)
  : result (dict Q) :=
  let upcoming := upcoming_with_entries state gender in
  match upcoming with
  | [] => current_leaders actual
  | _ =>
      event_data <- map_result event_probs upcoming ;;
      let all_teams := simulation_teams actual event_data in
      st <- run_trials (Z.to_nat n_iterations) actual all_teams event_data (O, []) ;;
      let win_counts := snd st in
      let total := sum_Q (dict_values win_counts) in
      normalise_credit all_teams win_counts total
  end.

(** *** 6. Scenario builder for a specific team *)

(** [rank_map]: from the identity of a ranked entry to its 1-based rank. *)
Fixpoint rank_map_set (m : list (nat * Z)) (k : nat) (v : Z) : list (nat * Z) :=
  match m with
  | [] => [(k, v)]
  | (k', v') :: t =>
      if Nat.eqb k k' then (k', v) :: t else (k', v') :: rank_map_set t k v
  end.

Fixpoint rank_map_get (m : list (nat * Z)) (k : nat) (default : Z) : Z :=
  match m with
  | [] => default
  | (k', v) :: t => if Nat.eqb k k' then v else rank_map_get t k default
  end.

Fixpoint build_rank_map (ranked : list (nat * EventEntry.t)) (i : Z)
         (m : list (nat * Z)) : list (nat * Z) :=
  match ranked with
  | [] => m
  | e :: t => build_rank_map t (i + 1)%Z (rank_map_set m (fst e) (i + 1)%Z)
  end.

Definition seed_mark_text (entry : EventEntry.t) : string :=
  match EventEntry.effective_seed entry with
  | Some m => if truthy m then m else "N/A"%string
  | None => "N/A"%string
  end.

(** Scenario A over the team's entries: points and per-entry details. *)
Definition seeds_hold (rank_map : list (nat * Z))
           (team_entries : list (nat * EventEntry.t))
  : Z * list EntryDetail.t :=
  fold_left
    (fun acc ie =>
       let proj_place := rank_map_get rank_map (fst ie) 9%Z in
       let pts := points_or_zero proj_place in
       ((fst acc + pts)%Z,
        snd acc ++ [EntryDetail.mk (Athlete.name (EventEntry.athlete (snd ie)))
                                   (seed_mark_text (snd ie)) proj_place pts]))
    team_entries (0%Z, []).

Definition Z_mem (x : Z) (l : list Z) : bool := existsb (Z.eqb x) l.

Definition occupied_places (team : string) (rank_map : list (nat * Z))
           (ranked : list (nat * EventEntry.t)) : list Z :=
  map (fun ie => rank_map_get rank_map (fst ie) 9%Z)
      (filter (fun ie => negb (String.eqb (entry_team (snd ie)) team)) ranked).

Definition available_places (occupied : list Z) : list Z :=
  sorted Z.ltb (filter (fun p => negb (Z_mem p occupied)) (range 1 9)).

(** Scenario B: the loop over [enumerate(team_entries)]. *)
Definition best_case (available : list Z)
           (team_entries : list (nat * EventEntry.t)) : Z :=
  fold_left
    (fun b i =>
       match nth_error available i with
       | Some p => (b + points_or_zero p)%Z
       | None => b
       end)
    (seq 0 (length team_entries)) 0%Z.

Definition scenario_event (team : string) (acc : Z * Z * Z * list EventBreakdown.t)
           (event : MeetEvent.t) : Z * Z * Z * list EventBreakdown.t :=
  let '(scenario_a, scenario_b, scenario_c, event_breakdown) := acc in
  let team_entries :=
    filter (fun ie => String.eqb (entry_team (snd ie)) team)
           (indexed_entries event) in
  match team_entries with
  | [] => acc
  | _ =>
      let ranked := _rank_entries_by_seed event in
      let rank_map := build_rank_map ranked 0%Z [] in
      let (a_pts, entry_details) := seeds_hold rank_map team_entries in
      let occupied := occupied_places team rank_map ranked in
      let b_pts := best_case (available_places occupied) team_entries in
      let c_pts := 0%Z in
      ((scenario_a + a_pts)%Z, (scenario_b + b_pts)%Z, (scenario_c + c_pts)%Z,
       event_breakdown ++
         [EventBreakdown.mk (MeetEvent.event_name event) entry_details
                            a_pts b_pts c_pts])
  end.

Definition compute_team_scenarios (team : string) (actual : dict TeamScore.t)
           (state : MeetState.t) (gender : Gender.t) : Scenarios.t :=
  let base_pts := actual_points_of actual team in
  let '(scenario_a, scenario_b, scenario_c, event_breakdown) :=
    fold_left (scenario_event team) (get_upcoming_finals state gender)
              (base_pts, base_pts, base_pts, []) in
  Scenarios.mk team base_pts scenario_a scenario_b scenario_c event_breakdown.

(** *** Master function *)

Variable MONTE_CARLO_ITERATIONS : Z.

(** [int(x)] on an exact value: truncation toward zero. *)
Definition py_int (x : Q) : Z := Z.quot (Qnum x) (Zpos (Qden x)).

(** [round(x, 1)], ties to the even tenth. *)
Definition py_round1 (x : Q) : Q :=
  let y := x * 10 in
  let f := Qfloor y in
  let d := y - inject_Z f in
  let n := match d ?= 1 # 2 with
           | Lt => f
           | Gt => (f + 1)%Z
           | Eq => if Z.even f then f else (f + 1)%Z
           end in
  inject_Z n / 10.

Definition union_keys (a b : list string) : list string :=
  fold_left set_add b a.

(** The record of one team after the three layers are stored in it, in
    exact arithmetic; [fill_team_score_in] is the same with the arithmetic
    as a parameter. *)
Definition fill_team_score (gender : Gender.t) (actual : dict TeamScore.t)
           (ceilings : dict Z) (projections win_probs : dict Q)
           (team : string) : TeamScore.t :=
  let ts := match dict_get actual team with
            | Some ts => ts
            | None => TeamScore.new team gender
            end in
  let pts := TeamScore.actual_points ts in
  TeamScore.mk (TeamScore.team ts) (TeamScore.gender ts) pts
               (TeamScore.events_scored ts)
               (dict_get_default ceilings team pts)
               (py_int (dict_get_default projections team (inject_Z pts)))
               (py_round1 (dict_get_default win_probs team 0 * 100)).

(** [run_all_analysis], without the leverage layer: no field of
    [team_scores] or [actual] depends on it.  The records of [actual] are
    the objects that the loop fills in, so the returned [actual] holds the
    filled records. *)
Definition run_all_analysis (state : MeetState.t) (gender : Gender.t)
  : result Report.t :=
  let actual := compute_actual_scores state gender in
  let ceilings := compute_optimistic_ceiling actual state gender in
  let projections := compute_seed_projection actual state gender in
  win_probs <- compute_win_probability actual state gender
                                       MONTE_CARLO_ITERATIONS ;;
  let all_teams :=
    union_keys (union_keys (fold_left set_add (dict_keys actual) [])
                           (dict_keys ceilings))
               (dict_keys projections) in
  let fill := fill_team_score gender actual ceilings projections win_probs in
  let team_scores := map fill (sorted string_ltb all_teams) in
  let team_scores :=
    sorted (fun x y => (TeamScore.seed_projection y <? TeamScore.seed_projection x)%Z)
           team_scores in
  Ok (Report.mk gender team_scores
                (map (fun kv => (fst kv, fill (fst kv))) actual) state).

End Scoring.

(* ------------------------------------------------------------------ *)
(** ** Vocabulary of the properties *)
(* ------------------------------------------------------------------ *)

(** Sample snapshots. *)
Definition seeded (name team : string) (seed : option string) : EventEntry.t :=
  EventEntry.mk (Athlete.mk name team seed None None None) seed.

Definition placed (name team : string) (place : Z) : EventEntry.t :=
  EventEntry.mk (Athlete.mk name team None None (Some place) None) None.

Definition upcoming_final (event_name base : string)
           (entries : list EventEntry.t) : MeetEvent.t :=
  MeetEvent.mk event_name base Gender.MEN RoundType.FINAL
               EventStatus.SCHEDULED entries.

Definition completed_final (event_name base : string)
           (entries : list EventEntry.t) : MeetEvent.t :=
  MeetEvent.mk event_name base Gender.MEN RoundType.FINAL
               EventStatus.FINAL entries.

(** A 60m final with the faster seed on the team that sorts second. *)
Definition dash_final : MeetEvent.t :=
  upcoming_final "Men 60m" "60m"
    [seeded "Ann" "A" (Some "7.00"); seeded "Bob" "B" (Some "6.50")]%string.

Definition dash_meet : MeetState.t := MeetState.mk [dash_final] [].

(** A final of nine entrants of one team, none of them seeded yet. *)
Definition unseeded_final : MeetEvent.t :=
  upcoming_final "Men Mile" "Mile"
    (map (fun n => seeded n "A" None)
         ["R1"; "R2"; "R3"; "R4"; "R5"; "R6"; "R7"; "R8"; "R9"]%string).

Definition unseeded_meet : MeetState.t := MeetState.mk [unseeded_final] [].

(** A long jump with marks in feet and inches. *)
Definition long_jump : MeetEvent.t :=
  upcoming_final "Men Long Jump" "Long Jump"
    [seeded "Ann" "A" (Some "13-04.50"); seeded "Bob" "B" (Some "20-00.00")]%string.

(** A meet with one completed and one upcoming final. *)
Definition relay_day : MeetState.t :=
  MeetState.mk
    [completed_final "Men 200m" "200m"
       [placed "Ann" "A" 1; placed "Bob" "B" 2; placed "Cy" "C" 9]%string%Z;
     upcoming_final "Men 60m" "60m"
       [seeded "Ann" "A" (Some "7.00"); seeded "Bob" "B" (Some "6.50");
        seeded "Cy" "A" (Some "6.90"); seeded EmptyString "A" None]%string]
    [CombinedEventResult.mk "Men Heptathlon" Gender.MEN EventStatus.FINAL
       [Athlete.mk "Dan" "C" None None (Some 1%Z) None;
        Athlete.mk "Eli" "B" None None None None]%string true].

(** *** Score tabulator, in the words of the specification *)

Definition in_scoring_range (a : Athlete.t) : bool :=
  match Athlete.final_place a with
  | Some p => (1 <=? p)%Z && (p <=? 8)%Z
  | None => false
  end.

(** Points that one athlete is worth: the table value of a place set and
    within 1 to 8, and nothing otherwise. *)
Definition athlete_worth (table : list (Z * Z)) (a : Athlete.t) : Z :=
  match Athlete.final_place a with
  | Some p => if (1 <=? p)%Z && (p <=? 8)%Z
              then points_or_zero table p else 0%Z
  | None => 0%Z
  end.

(** Athletes read by the tabulator: entries of the completed finals, then
    athletes of the complete combined events of the gender. *)
Definition tabulated_athletes
           (get_completed_finals : MeetState.t -> Gender.t -> list MeetEvent.t)
           (state : MeetState.t) (gender : Gender.t) : list Athlete.t :=
  flat_map (fun e => map EventEntry.athlete (MeetEvent.entries e))
           (get_completed_finals state gender)
  ++ flat_map CombinedEventResult.athletes
       (filter (fun c => Gender.eqb (CombinedEventResult.gender c) gender
                         && CombinedEventResult.is_complete c)
               (MeetState.combined_events state)).

Definition team_worth (table : list (Z * Z)) (team : string)
           (athletes : list Athlete.t) : Z :=
  sum_Z (map (athlete_worth table)
             (filter (fun a => String.eqb (Athlete.team a) team) athletes)).

(** *** Ceiling estimator, in the words of the specification *)

Definition teams_on_entries (state : MeetState.t) : list string :=
  flat_map (fun e => map entry_team (MeetEvent.entries e))
           (MeetState.events state).

Definition has_upcoming_entrant
           (get_upcoming_finals : MeetState.t -> Gender.t -> list MeetEvent.t)
           (state : MeetState.t) (gender : Gender.t) (team : string) : Prop :=
  exists event entry,
    In event (get_upcoming_finals state gender) /\
    In entry (MeetEvent.entries event) /\ entry_team entry = team.

(** The ceiling map has a key for the team, worth at least the actual
    points of the team, and exactly those without an upcoming entrant. *)
Definition ceiling_covers (table : list (Z * Z))
           (get_upcoming_finals : MeetState.t -> Gender.t -> list MeetEvent.t)
           (actual : dict TeamScore.t) (state : MeetState.t)
           (gender : Gender.t) (team : string) : Prop :=
  exists v,
    dict_get (compute_optimistic_ceiling table get_upcoming_finals
                                         actual state gender) team = Some v /\
    (actual_points_of actual team <= v)%Z /\
    (~ has_upcoming_entrant get_upcoming_finals state gender team ->
     v = actual_points_of actual team).

(** A completed final one of whose rows carries no team name. *)
Definition nameless_team_meet : MeetState.t :=
  MeetState.mk
    [completed_final "Men 200m" "200m"
       [placed "Ann" "A" 1; placed "Bob" EmptyString 2]%string%Z]
    [].

(** *** Win probability, in the words of the specification *)

(** Number of teams of the actual-scores map that hold [pts] points. *)
Definition teams_holding (actual : dict TeamScore.t) (pts : Z) : nat :=
  length (filter (fun kv => (TeamScore.actual_points (snd kv) =? pts)%Z) actual).

(** No team of the map has more points than [ts]. *)
Definition leads (actual : dict TeamScore.t) (ts : TeamScore.t) : Prop :=
  forall t' ts', In (t', ts') actual ->
                 (TeamScore.actual_points ts' <= TeamScore.actual_points ts)%Z.

(** Some team of the map has more points than [ts]. *)
Definition trails (actual : dict TeamScore.t) (ts : TeamScore.t) : Prop :=
  exists t' ts', In (t', ts') actual /\
                 (TeamScore.actual_points ts < TeamScore.actual_points ts')%Z.

(** Some team is known to the simulator: the actual-scores map has a team,
    or an upcoming final has a named entrant. *)
Definition some_team_known
           (get_upcoming_finals : MeetState.t -> Gender.t -> list MeetEvent.t)
           (actual : dict TeamScore.t) (state : MeetState.t)
           (gender : Gender.t) : Prop :=
  actual <> [] \/
  exists event entry,
    In event (get_upcoming_finals state gender) /\
    In entry (MeetEvent.entries event) /\ entry_named entry = true.

(** An upcoming final whose only row is a placeholder without a name. *)
Definition placeholder_final : MeetEvent.t :=
  upcoming_final "Men 60m" "60m" [seeded EmptyString "A" None]%string.

Definition placeholder_meet : MeetState.t := MeetState.mk [placeholder_final] [].



(** A meet whose finals are all completed. *)
Definition finished_day : MeetState.t :=
  MeetState.mk
    [completed_final "Men 200m" "200m"
       [placed "Ann" "A" 1; placed "Bob" "B" 2; placed "Cy" "C" 9]%string%Z]
    [CombinedEventResult.mk "Men Heptathlon" Gender.MEN EventStatus.FINAL
       [Athlete.mk "Dan" "C" None None (Some 1%Z) None;
        Athlete.mk "Eli" "B" None None None None]%string true].

Definition finished_actual : dict TeamScore.t :=
  compute_actual_scores standard_place_points spec_get_completed_finals
                        finished_day Gender.MEN.

Definition relay_actual : dict TeamScore.t :=
  compute_actual_scores standard_place_points spec_get_completed_finals
                        relay_day Gender.MEN.

(** A source of random draws that always returns one half. *)
Definition half_draws (n : nat) : Q := 1 # 2.

(** *** Scenario builder: places read off the ranking *)

(** Position of the first occurrence of an identity in a list. *)
Fixpoint index_of (k : nat) (l : list nat) : option nat :=
  match l with
  | [] => None
  | x :: t => if Nat.eqb k x then Some O
              else match index_of k t with
                   | Some j => Some (S j)
                   | None => None
                   end
  end.

(** Places, counted from [p], of the ranked entries that are flagged. *)
Fixpoint flagged_places (flags : list bool) (p : Z) : list Z :=
  match flags with
  | [] => []
  | f :: t => (if f then [p] else []) ++ flagged_places t (p + 1)%Z
  end.

Definition on_team (team : string) (ie : nat * EventEntry.t) : bool :=
  String.eqb (entry_team (snd ie)) team.

(** One row of the breakdown is in order: the worst case is 0, and
    best case >= seeds hold >= worst case. *)
Definition row_in_order (row : EventBreakdown.t) : Prop :=
  EventBreakdown.scenario_c_pts row = 0%Z /\
  (EventBreakdown.scenario_c_pts row <= EventBreakdown.scenario_a_pts row)%Z /\
  (EventBreakdown.scenario_a_pts row <= EventBreakdown.scenario_b_pts row)%Z.

(** *** Seed projector: the awards of the walk, one per ranked entry *)

(** The walk of [project_walk], listing for each member of a paid block its
    team and the average it is paid. *)
Fixpoint walk_awards (table : list (Z * Z)) (fuel : nat) (event : MeetEvent.t)
         (rest : list (nat * EventEntry.t)) (place : Z) : list (string * Q) :=
  match fuel with
  | O => []
  | S fuel' =>
      match rest with
      | [] => []
      | first :: others =>
          if (place >? 8)%Z then []
          else
            let current_key := _seed_sort_key (snd first) event in
            let tail := take_tied event current_key others in
            let tied_count := Z.of_nat (S (length tail)) in
            let tied_places := range place (Z.min (place + tied_count) 9) in
            let avg_pts := average_points table tied_places in
            (if any_scoring table tied_places
             then map (fun e => (entry_team (snd e), avg_pts)) (first :: tail)
             else [])
            ++ walk_awards table fuel' event (skipn (length tail) others)
                           (place + tied_count)%Z
      end
  end.

Definition event_awards (table : list (Z * Z)) (event : MeetEvent.t)
  : list (string * Q) :=
  let ranked := _rank_entries_by_seed event in
  walk_awards table (length ranked) event ranked 1%Z.

Definition projected_awards (table : list (Z * Z))
           (get_upcoming_finals : MeetState.t -> Gender.t -> list MeetEvent.t)
           (state : MeetState.t) (gender : Gender.t) : list (string * Q) :=
  flat_map (event_awards table) (get_upcoming_finals state gender).

(** Sum of the awards that go to one team. *)
Definition team_award (team : string) (awards : list (string * Q)) : Q :=
  sum_Q (map snd (filter (fun ta => String.eqb (fst ta) team) awards)).

Definition credit_award (pr : dict Q) (ta : string * Q) : dict Q :=
  dict_add_Q pr (fst ta) (snd ta).


(** *** Invariants used in the proofs *)

(** A key of the ceiling map stays, and its value does not go down. *)
Definition kept_above (t : string) (c c' : dict Z) : Prop :=
  forall v, dict_get c t = Some v ->
            exists v', dict_get c' t = Some v' /\ (v <= v')%Z.

(** Teams of the entrants still to be placed. *)
Definition teams_of (remaining : list (EventEntry.t * Q)) : list string :=
  map (fun ep => entry_team (fst ep)) remaining.

(** No credit is negative. *)
Definition nonneg_values (d : dict Q) : Prop :=
  forall v, In v (dict_values d) -> 0 <= v.

(** The end-to-end example of the specification: three entrants of teams
    X, Y, X seeded 10.50, 10.60, 10.70 under the table 10-8-6. *)
Definition podium_table : list (Z * Z) := [(1, 10); (2, 8); (3, 6)]%Z.

Definition podium_meet : MeetState.t :=
  MeetState.mk
    [upcoming_final "Men 100m" "100m"
       [seeded "X1" "X" (Some "10.50"); seeded "Y1" "Y" (Some "10.60");
        seeded "X2" "X" (Some "10.70")]%string]
    [].

(** *** Rank resolver: the order of the ranking *)

(** [a] may stand before [b] in the ranking of [event]: its key is not
    larger, and with equal keys it comes first in [event.entries]. *)
Definition ranks_before (event : MeetEvent.t) (a b : nat * EventEntry.t) : Prop :=
  _seed_sort_key (snd a) event <= _seed_sort_key (snd b) event /\
  (_seed_sort_key (snd b) event <= _seed_sort_key (snd a) event ->
   (fst a < fst b)%nat).

(** *** Score tabulator: what a record holds *)

(** Number of the athletes of a team that hold a scoring place. *)
Definition scoring_count (team : string) (athletes : list Athlete.t) : nat :=
  length (filter (fun a => String.eqb (Athlete.team a) team && in_scoring_range a)
                 athletes).

(** The record of [team], if any, carries the name of the team and the
    gender, has positive points and one scoring event per athlete of the
    team with a scoring place; a team without such an athlete has no
    record. *)
Definition record_matches (gender : Gender.t) (scores : dict TeamScore.t)
           (athletes : list Athlete.t) (team : string) : Prop :=
  match dict_get scores team with
  | Some ts =>
      TeamScore.team ts = team /\ TeamScore.gender ts = gender /\
      (0 < TeamScore.actual_points ts)%Z /\
      length (TeamScore.events_scored ts) = scoring_count team athletes /\
      (0 < scoring_count team athletes)%nat
  | None => scoring_count team athletes = O
  end.

(** *** Points on offer in an event *)

(** Table points of the best [n] places, [n] capped at 8: what an event of
    [n] entries has on offer. *)
Definition top_places_total (table : list (Z * Z)) (n : nat) : Z :=
  sum_Z (map (points_or_zero table) (range 1 (Z.min (Z.of_nat n) 8 + 1))).

(** *** Seed projector: who is entered *)

(** The team has a named entrant in an upcoming final of the gender. *)
Definition has_named_entrant
           (get_upcoming_finals : MeetState.t -> Gender.t -> list MeetEvent.t)
           (state : MeetState.t) (gender : Gender.t) (team : string) : Prop :=
  exists event entry,
    In event (get_upcoming_finals state gender) /\
    In entry (MeetEvent.entries event) /\
    entry_named entry = true /\ entry_team entry = team.

(** Number of named entries of an event. *)
Definition named_count (event : MeetEvent.t) : nat :=
  length (filter entry_named (MeetEvent.entries event)).

(** A 60m final of two entrants half a thousandth of a second apart. *)
Definition photo_finish : MeetEvent.t :=
  upcoming_final "Men 60m" "60m"
    [seeded "Ann" "A" (Some "7.00"); seeded "Bob" "B" (Some "7.0005")]%string.

(** *** Simulator: random draws of one trial *)

(** Every trial places the named entrants of an event until they or the
    eight places run out, one random draw for each place. *)
Definition draws_per_trial (events : list MeetEvent.t) : nat :=
  fold_right (fun e acc => (Nat.min (named_count e) 8 + acc)%nat) O events.

(** *** Scenario builder: the rows of the breakdown *)

(** The entries of the team in an event, unnamed ones included. *)
Definition team_entries_of (team : string) (event : MeetEvent.t)
  : list EventEntry.t :=
  filter (fun e => String.eqb (entry_team e) team) (MeetEvent.entries event).

Definition team_entered (team : string) (event : MeetEvent.t) : bool :=
  match team_entries_of team event with [] => false | _ => true end.

(** What a detail of a breakdown row says of the entry it is made for, the
    entry being given with its position in [event.entries]: a named entry
    is listed at its rank, one more than its index in the ranking of the
    event, and an unnamed entry at place 9 with no points. *)
Definition detail_matches (table : list (Z * Z)) (event : MeetEvent.t)
           (ie : nat * EventEntry.t) (d : EntryDetail.t) : Prop :=
  EntryDetail.athlete d = Athlete.name (EventEntry.athlete (snd ie)) /\
  EntryDetail.seed_mark d = seed_mark_text (snd ie) /\
  EntryDetail.seed_pts d = points_or_zero table (EntryDetail.proj_place d) /\
  if entry_named (snd ie)
  then exists j,
         nth_error (_rank_entries_by_seed event) j = Some ie /\
         EntryDetail.proj_place d = (Z.of_nat j + 1)%Z
  else EntryDetail.proj_place d = 9%Z /\ EntryDetail.seed_pts d = 0%Z.

(** The row that the scenario builder appends for an event. *)
Definition scenario_row (table : list (Z * Z)) (team : string)
           (event : MeetEvent.t) : EventBreakdown.t :=
  let team_entries := filter (on_team team) (indexed_entries event) in
  let ranked := _rank_entries_by_seed event in
  let rank_map := build_rank_map ranked 0%Z [] in
  EventBreakdown.mk
    (MeetEvent.event_name event)
    (snd (seeds_hold table rank_map team_entries))
    (fst (seeds_hold table rank_map team_entries))
    (best_case table (available_places (occupied_places team rank_map ranked))
               team_entries)
    0%Z.

(* ------------------------------------------------------------------ *)
(** ** scoring.py: the leverage index *)
(* ------------------------------------------------------------------ *)

(** One record of the list that [compute_leverage_index] returns. *)
Module LeverageRow.
Record t := mk {
  event_name : string;
  event : MeetEvent.t;
  leverage_score : Z;
  max_swing : Z;
  total_pts_available : Z;
  n_teams : Z;
  top_teams_in_event : list string;
  headline : string
}.
End LeverageRow.

(** [sep.join(l)] *)
Definition join (sep : string) (l : list string) : string :=
  match l with
  | [] => EmptyString
  | x :: t => fold_left (fun acc y => (acc ++ sep ++ y)%string) t x
  end.

(** The dash of the headline, U+2014, as its three UTF-8 bytes. *)
Definition em_dash : string :=
  String (chr 226) (String (chr 128) (String (chr 148) EmptyString)).

Section Leverage.

Variable PLACE_POINTS : list (Z * Z).
Variable get_upcoming_finals : MeetState.t -> Gender.t -> list MeetEvent.t.

Definition _leverage_headline (event : MeetEvent.t) (top_teams : list string)
           (total_pts max_swing : Z) : string :=
  let teams_str := match top_teams with
                   | [] => "multiple teams"%string
                   | _ => join " & " (firstn 2 top_teams)
                   end in
  (MeetEvent.event_name event ++ ": " ++ str_of_Z total_pts
   ++ " pts available " ++ em_dash ++ " "
   ++ teams_str ++ " both have athletes entered. "
   ++ "Max swing: " ++ str_of_Z max_swing ++ " pts between contenders.")%string.

(** Body of the loop over the upcoming finals, for an event with entries. *)
Definition leverage_row (top_teams : list string) (event : MeetEvent.t)
  : LeverageRow.t :=
  let n := Z.of_nat (length (MeetEvent.entries event)) in
  let teams_in_event :=
    fold_left (fun s e => set_add s (entry_team e)) (MeetEvent.entries event) [] in
  let n_teams := Z.of_nat (length teams_in_event) in
  let max_pts_available :=
    sum_Z (map (points_or_zero PLACE_POINTS) (range 1 (Z.min 9 (n + 1)))) in
  let max_swing :=
    (match place_points PLACE_POINTS 1 with Some v => v | None => 10 end
     - points_or_zero PLACE_POINTS (Z.min 8 n))%Z in
  let top_teams_in_event := filter (set_mem teams_in_event) top_teams in
  let contention_score :=
    (Z.of_nat (length top_teams_in_event) * max_swing)%Z in
  let athletes_scoring := Z.min 8 n in
  let total_pts :=
    sum_Z (map (points_or_zero PLACE_POINTS) (range 1 (athletes_scoring + 1))) in
  LeverageRow.mk (MeetEvent.event_name event) event contention_score max_swing
                 total_pts n_teams top_teams_in_event
                 (_leverage_headline event top_teams_in_event total_pts max_swing).

Definition compute_leverage_index (state : MeetState.t) (gender : Gender.t)
           (actual : dict TeamScore.t) : list LeverageRow.t :=
  let sorted_teams :=
    sorted (fun x y : string * TeamScore.t =>
              (TeamScore.actual_points (snd y) <? TeamScore.actual_points (snd x))%Z)
           actual in
  let top_teams := map fst (firstn 5 sorted_teams) in
  let results :=
    fold_left (fun results event =>
                 match MeetEvent.entries event with
                 | [] => results
                 | _ => results ++ [leverage_row top_teams event]
                 end)
              (get_upcoming_finals state gender) [] in
  sorted (fun x y => (LeverageRow.leverage_score y <? LeverageRow.leverage_score x)%Z)
         results.

End Leverage.

(* ------------------------------------------------------------------ *)
(** ** scraper.py: the effective seeds *)
(* ------------------------------------------------------------------ *)

(** [a or b] on two optional strings: [a] when it is a non-empty string. *)
Definition or_else (a b : option string) : option string :=
  match a with
  | Some m => if truthy m then a else b
  | None => b
  end.

(** The event after its entry list has been updated in place. *)
Definition with_entries (event : MeetEvent.t) (entries : list EventEntry.t)
  : MeetEvent.t :=
  MeetEvent.mk (MeetEvent.event_name event) (MeetEvent.base_event_name event)
               (MeetEvent.gender event) (MeetEvent.round_type event)
               (MeetEvent.status event) entries.

Section EffectiveSeeds.

(** The property [is_sprint_event] of data_model.py.  It is read once for
    every entry, on the event as the loop has left it so far. *)
Variable is_sprint_event : MeetEvent.t -> bool.

(** The loop over [event.entries]: [done] holds the entries already given
    their seed, [todo] the others. *)
Fixpoint assign_entries (event : MeetEvent.t) (done todo : list EventEntry.t)
  : list EventEntry.t :=
  match todo with
  | [] => done
  | entry :: rest =>
      let a := EventEntry.athlete entry in
      let seed :=
        if is_sprint_event (with_entries event (done ++ todo))
        then or_else (Athlete.prelim_mark a) (Athlete.seed_mark a)
        else Athlete.seed_mark a in
      assign_entries event (done ++ [EventEntry.mk a seed]) rest
  end.

Definition assign_event (event : MeetEvent.t) : MeetEvent.t :=
  if negb (RoundType.eqb (MeetEvent.round_type event) RoundType.FINAL)
  then event
  else with_entries event (assign_entries event [] (MeetEvent.entries event)).

Definition _assign_effective_seeds (state : MeetState.t) : MeetState.t :=
  MeetState.mk (map assign_event (MeetState.events state))
               (MeetState.combined_events state).

End EffectiveSeeds.

(** *** Effective seeds: vocabulary *)

(** The seed of the entry is a mark of its athlete: the prelim mark when
    that is a non-empty string, or the seed mark. *)
Definition seed_from_athlete (entry : EventEntry.t) : Prop :=
  EventEntry.effective_seed entry
  = Athlete.seed_mark (EventEntry.athlete entry) \/
  exists m,
    EventEntry.effective_seed entry = Some m /\
    Athlete.prelim_mark (EventEntry.athlete entry) = Some m /\
    m <> EmptyString.

(** Two events differ at most in the effective seeds of their entries. *)
Definition same_but_seeds (e e' : MeetEvent.t) : Prop :=
  MeetEvent.event_name e' = MeetEvent.event_name e /\
  MeetEvent.base_event_name e' = MeetEvent.base_event_name e /\
  MeetEvent.gender e' = MeetEvent.gender e /\
  MeetEvent.round_type e' = MeetEvent.round_type e /\
  MeetEvent.status e' = MeetEvent.status e /\
  map EventEntry.athlete (MeetEvent.entries e')
  = map EventEntry.athlete (MeetEvent.entries e).

(** The seeding rule for one entry. *)
Definition seeded_by_rule (sprint : bool) (entry : EventEntry.t)
  : EventEntry.t :=
  let a := EventEntry.athlete entry in
  EventEntry.mk a (if sprint
                   then or_else (Athlete.prelim_mark a) (Athlete.seed_mark a)
                   else Athlete.seed_mark a).

(** A reading of [is_sprint_event] from the base name of the event. *)
Definition sixty_is_sprint (event : MeetEvent.t) : bool :=
  String.eqb (MeetEvent.base_event_name event) "60m".

(* ------------------------------------------------------------------ *)
(** ** scraper.py: event code and round number of a link *)
(* ------------------------------------------------------------------ *)

(** [s.split(sep)[-1]] for a one-character separator. *)
Definition last_segment (sep : ascii) (l : list ascii) : list ascii :=
  rev (take_while (not_sep sep) (rev l)).

(** [_parse_href].  The greedy digit groups of the two patterns can only
    match the whole run of digits, since the character that has to follow
    is not a digit.  [int] of the round digits is their decimal value (the
    interpreter's limit on the length of a digit string is not part of the
    model). *)
Definition _parse_href (href : string) : string * Z * bool :=
  let basename := last_segment "/" (of_string href) in
  let fallback := ("000"%string, 1%Z, false) in
  let code := take_while is_digit basename in
  let rest := drop_while is_digit basename in
  match code with
  | [] => fallback
  | _ :: _ =>
      if is_prefix (of_string "_Scores.htm") rest
      then (string_of_list_ascii code, 0%Z, true)
      else
        match rest with
        | c :: after =>
            if Ascii.eqb c "-" then
              match take_while is_digit after, drop_while is_digit after with
              | (_ :: _) as round, u :: _ =>
                  if Ascii.eqb u "_"
                  then (string_of_list_ascii code, PyFloat.digits_to_Z round, false)
                  else fallback
              | _, _ => fallback
              end
            else fallback
        | [] => fallback
        end
  end.

(** *** Links: vocabulary *)

(** A directory part of a link: nothing, or text that ends in a slash. *)
Definition directory_part (d : list ascii) : Prop :=
  d = [] \/ exists p, d = p ++ ["/"%char].

Definition no_slash (l : list ascii) : Prop :=
  Forall (fun c => Ascii.eqb c "/" = false) l.

Definition all_digits (l : list ascii) : Prop :=
  Forall (fun c => is_digit c = true) l.

(** *** Marks: vocabulary *)

(** The text has no leading and no trailing whitespace. *)
Definition trimmed (l : list ascii) : Prop := strip l = l.

(** Value of the decimal numeral made of the digits [ip], a point and the
    digits [fp]. *)
Definition decimal_value (ip fp : list ascii) : Q :=
  inject_Z (PyFloat.digits_to_Z (ip ++ fp))
  / inject_Z (10 ^ Z.of_nat (length fp)).

(** A character of a clean time mark: a digit, the point or the colon. *)
Definition time_char (c : ascii) : Prop :=
  is_digit c = true \/ c = "."%char \/ c = ":"%char.

(** *** Simulator: shape of the probabilities of an event *)

(** Every element after the first is [r] times the one before it. *)
Fixpoint geometric (r : Q) (l : list Q) : Prop :=
  match l with
  | p :: (q :: _) as t => q == r * p /\ geometric r t
  | _ => True
  end.

(* ------------------------------------------------------------------ *)
(** ** scraper.py: gender and round of an event *)
(* ------------------------------------------------------------------ *)

Definition _infer_gender (event_name : string) : Gender.t :=
  let name_lower := lower (of_string event_name) in
  if contains (of_string "women") name_lower then Gender.WOMEN else Gender.MEN.

Definition _infer_round (round_str : string) : RoundType.t :=
  let s := lower (of_string round_str) in
  if contains (of_string "prelim") s then RoundType.PRELIM else RoundType.FINAL.

(* ------------------------------------------------------------------ *)
(** ** The arithmetic of the seed projection *)
(* ------------------------------------------------------------------ *)

(** The sort keys of the ranking are floats, the seed projection adds
    quotients of integers to integers, and the orchestrator turns the sums
    into integers and the winning shares into percentages.  The numbers in
    which this is done are a parameter of the functions of this part: with
    [exact_arith] they are the rationals of the sections above, with
    [binary64] they are the values of the interpreter. *)
Record arith := Arith {
  (** a value of the projection: an [int] or a [float] *)
  num : Type;
  (** an [int] where a number is expected *)
  num_of_int : Z -> num;
  (** [a / b] on two [int]s *)
  num_true_div : Z -> Z -> result num;
  (** [x + y] *)
  num_add : num -> num -> result num;
  (** [int(x)] *)
  num_int : num -> result Z;
  (** a [float] *)
  key : Type;
  (** [float(s)], [None] for ValueError *)
  key_of_text : list ascii -> option key;
  (** an [int] operand of a float operation, and an integral literal *)
  key_of_int : Z -> key;
  (** the literal [0.001] *)
  key_tolerance : key;
  key_mul : key -> key -> key;
  key_add : key -> key -> key;
  key_sub : key -> key -> key;
  key_opp : key -> key;
  key_abs : key -> key;
  (** [x < y] *)
  key_ltb : key -> key -> bool;
  (** [round(p * 100, 1)] for a share [p] of the credit of the simulation,
      which is exact *)
  percent : Q -> Q
}.

Definition exact_arith : arith :=
  {| num := Q;
     num_of_int := inject_Z;
     num_true_div := fun a b => py_div (inject_Z a) (inject_Z b);
     num_add := fun x y => Ok (x + y);
     num_int := fun x => Ok (py_int x);
     key := Q;
     key_of_text := PyFloat.py_float;
     key_of_int := inject_Z;
     key_tolerance := tie_tolerance;
     key_mul := Qmult;
     key_add := Qplus;
     key_sub := Qminus;
     key_opp := Qopp;
     key_abs := Qabs;
     key_ltb := Qltb;
     percent := fun p => py_round1 (p * 100) |}.

(** A number of the interpreter. *)
Inductive pynum := PyInt (z : Z) | PyFloat (f : float).

Module Binary64.

(** The float nearest to an integer, ties to even. *)
Definition of_Z (z : Z) : float :=
  SF2Prim (binary_normalize prec emax z 0 false).

(** The float nearest to the quotient of two integers, ties to even: the
    quotient is taken with 64 bits or more, and one more bit tells whether
    the division left a remainder. *)
Definition of_ratio (a b : Z) : float :=
  let n := Z.abs a in
  let d := Z.abs b in
  if (n =? 0)%Z then of_Z 0
  else
    let k := Z.max 0 (Z.log2 d + 64 - Z.log2 n) in
    let q := (n * 2 ^ k / d)%Z in
    let r := ((n * 2 ^ k) mod d)%Z in
    let m := (2 * q + (if (r =? 0)%Z then 0 else 1))%Z in
    let negative := xorb (a <? 0)%Z (b <? 0)%Z in
    SF2Prim (binary_normalize prec emax (if negative then - m else m)
                              (- (k + 1)) false).

(** The float nearest to a rational. *)
Definition of_Q (q : Q) : float := of_ratio (Qnum q) (Zpos (Qden q)).

(** The rational that a finite float is; [0] for the others. *)
Definition to_Q (f : float) : Q :=
  match Prim2SF f with
  | S754_finite s m e =>
      let v := if (0 <=? e)%Z then inject_Z (Zpos m * 2 ^ e)
               else Qmake (Zpos m) (Z.to_pos (2 ^ (- e))) in
      if s then Qopp v else v
  | _ => 0
  end.

(** [a / b] on two [int]s. *)
Definition true_div (a b : Z) : result pynum :=
  if (b =? 0)%Z then Raise ZeroDivisionError
  else
    let f := of_ratio a b in
    if is_infinity f then Raise OverflowError else Ok (PyFloat f).

(** The conversion of an operand of a float operation. *)
Definition to_float (x : pynum) : result float :=
  match x with
  | PyInt z =>
      let f := of_Z z in
      if is_infinity f then Raise OverflowError else Ok f
  | PyFloat f => Ok f
  end.

(** [x + y] *)
Definition add (x y : pynum) : result pynum :=
  match x, y with
  | PyInt a, PyInt b => Ok (PyInt (a + b))
  | _, _ => fx <- to_float x ;; fy <- to_float y ;; Ok (PyFloat (fx + fy))
  end.

(** [int(x)]: a float is cut toward zero. *)
Definition int (x : pynum) : result Z :=
  match x with
  | PyInt z => Ok z
  | PyFloat f =>
      match Prim2SF f with
      | S754_zero _ => Ok 0%Z
      | S754_finite s m e =>
          let v := if (0 <=? e)%Z then (Zpos m * 2 ^ e)%Z
                   else (Zpos m / 2 ^ (- e))%Z in
          Ok (if s then (- v)%Z else v)
      | S754_infinity _ => Raise OverflowError
      | S754_nan => Raise ValueError
      end
  end.

(** [float(s)]: the words for the infinities and for the value that is no
    number, in either case, and the decimal literals, each taken to the
    nearest float. *)
Definition float_of_text (s : list ascii) : option float :=
  let (negative, body) := PyFloat.read_sign (PyFloat.float_strip s) in
  let word := string_of_list_ascii (Text.lower body) in
  if String.eqb word "inf" || String.eqb word "infinity"
  then Some (if negative then neg_infinity else infinity)
  else if String.eqb word "nan" then Some nan
  else option_map of_Q (PyFloat.py_float s).

(** [round(p * 100, 1)] on the float nearest to [p]: the product is rounded
    to one decimal, ties to even, and the decimal taken to the nearest
    float.  The float nearest to [p] is the share that the simulator
    returns as long as its credits, sums of [1.0 / len(leaders)], are exact
    in floats, which they are when the leaders of every trial number a
    power of two. *)
Definition round_percent (p : Q) : Q :=
  to_Q (of_Q (py_round1 (to_Q (of_Q p * of_Z 100)))).

End Binary64.

Definition binary64 : arith :=
  {| num := pynum;
     num_of_int := PyInt;
     num_true_div := Binary64.true_div;
     num_add := Binary64.add;
     num_int := Binary64.int;
     key := float;
     key_of_text := Binary64.float_of_text;
     key_of_int := Binary64.of_Z;
     key_tolerance := Binary64.of_ratio 1 1000;
     key_mul := PrimFloat.mul;
     key_add := PrimFloat.add;
     key_sub := PrimFloat.sub;
     key_opp := PrimFloat.opp;
     key_abs := PrimFloat.abs;
     key_ltb := PrimFloat.ltb;
     percent := Binary64.round_percent |}.

(** A loop whose body may raise. *)
Fixpoint fold_result (B C : Type) (f : C -> B -> result C) (l : list B)
         (acc : C) : result C :=
  match l with
  | [] => Ok acc
  | x :: t => acc1 <- f acc x ;; fold_result f t acc1
  end.

Section ProjectionIn.

Import Text Scraper.

Variable A : arith.

(** [_mark_to_seconds] with the float operations of [A]. *)
Definition _mark_to_seconds_in (mark : string) : option (key A) :=
  let mark := upper (_normalize_mark (of_string mark)) in
  if text_in mark unparseable_words then None
  else
    let mark := sub_parens O mark in
    let mark := strip (sub_trailing_letter mark) in
    if feet_inches_shape mark then
      match key_of_text A (split_part0 "-" mark), split_part1 "-" mark with
      | Some feet, Some p1 =>
          match key_of_text A p1 with
          | Some inches =>
              Some (key_opp A (key_add A (key_mul A feet (key_of_int A 12))
                                       inches))
          | None => None
          end
      | _, _ => None
      end
    else if existsb (Ascii.eqb ":") mark then
      match key_of_text A (split_part0 ":" mark), split_part1 ":" mark with
      | Some minutes, Some p1 =>
          match key_of_text A p1 with
          | Some seconds =>
              Some (key_add A (key_mul A minutes (key_of_int A 60)) seconds)
          | None => None
          end
      | _, _ => None
      end
    else key_of_text A mark.

Definition _seed_sort_key_in (entry : EventEntry.t) (event : MeetEvent.t)
  : key A :=
  let mark := match EventEntry.effective_seed entry with
              | Some m => m
              | None => EmptyString
              end in
  match _mark_to_seconds_in mark with
  | None => key_of_int A 1000000000
  | Some val => if is_field_event event then key_opp A val else val
  end.

(** The ranking; the sort compares the keys with [<], and is the stable
    sort of the interpreter as long as that is a strict weak order, which it
    is when no key is the value that is no number. *)
Definition _rank_entries_by_seed_in (event : MeetEvent.t)
  : list (nat * EventEntry.t) :=
  let entries := filter (fun ie => entry_named (snd ie)) (indexed_entries event) in
  sorted (fun a b => key_ltb A (_seed_sort_key_in (snd a) event)
                               (_seed_sort_key_in (snd b) event))
         entries.

Definition tied_with_in (event : MeetEvent.t) (current_key : key A)
           (e : nat * EventEntry.t) : bool :=
  key_ltb A (key_abs A (key_sub A (_seed_sort_key_in (snd e) event) current_key))
          (key_tolerance A).

Fixpoint take_tied_in (event : MeetEvent.t) (current_key : key A)
         (l : list (nat * EventEntry.t)) : list (nat * EventEntry.t) :=
  match l with
  | [] => []
  | e :: t => if tied_with_in event current_key e
              then e :: take_tied_in event current_key t else []
  end.

Variable PLACE_POINTS : list (Z * Z).
Variable get_completed_finals : MeetState.t -> Gender.t -> list MeetEvent.t.
Variable get_upcoming_finals : MeetState.t -> Gender.t -> list MeetEvent.t.
Variable random_draws : nat -> Q.
Variable MONTE_CARLO_ITERATIONS : Z.

(** [sum(...) / len(tied_places) if tied_places else 0] *)
Definition average_points_in (tied_places : list Z) : result (num A) :=
  match tied_places with
  | [] => Ok (num_of_int A 0)
  | _ => num_true_div A (sum_Z (map (points_or_zero PLACE_POINTS) tied_places))
                      (Z.of_nat (length tied_places))
  end.

(** The loop [for entry in ranked[i:j]]. *)
Fixpoint award_block_in (tied_places : list Z) (avg_pts : num A)
         (projections : dict (num A)) (block : list (nat * EventEntry.t))
  : result (dict (num A)) :=
  match block with
  | [] => Ok projections
  | e :: rest =>
      if any_scoring PLACE_POINTS tied_places
      then
        v <- num_add A (dict_get_default projections (entry_team (snd e))
                                         (num_of_int A 0))
                     avg_pts ;;
        award_block_in tied_places avg_pts
                       (dict_set projections (entry_team (snd e)) v) rest
      else award_block_in tied_places avg_pts projections rest
  end.

Fixpoint project_walk_in (fuel : nat) (event : MeetEvent.t)
         (rest : list (nat * EventEntry.t)) (place : Z)
         (projections : dict (num A)) : result (dict (num A)) :=
  match fuel with
  | O => Ok projections
  | S fuel' =>
      match rest with
      | [] => Ok projections
      | first :: others =>
          if (place >? 8)%Z then Ok projections
          else
            let current_key := _seed_sort_key_in (snd first) event in
            let tail := take_tied_in event current_key others in
            let tied_count := Z.of_nat (S (length tail)) in
            let tied_places := range place (Z.min (place + tied_count) 9) in
            avg_pts <- average_points_in tied_places ;;
            projections1 <-
              award_block_in tied_places avg_pts projections (first :: tail) ;;
            project_walk_in fuel' event (skipn (length tail) others)
                            (place + tied_count)%Z projections1
      end
  end.

Definition project_event_in (projections : dict (num A)) (event : MeetEvent.t)
  : result (dict (num A)) :=
  let ranked := _rank_entries_by_seed_in event in
  project_walk_in (length ranked) event ranked 1%Z projections.

Definition compute_seed_projection_in (actual : dict TeamScore.t)
           (state : MeetState.t) (gender : Gender.t) : result (dict (num A)) :=
  let projections :=
    fold_left (fun pr kv =>
                 dict_set pr (fst kv)
                          (num_of_int A (TeamScore.actual_points (snd kv))))
              actual [] in
  fold_result project_event_in (get_upcoming_finals state gender) projections.



End ProjectionIn.

(** *** Projection and store: vocabulary *)


(** Two entrants whose seeds are written one thousandth apart. *)
Definition close_seeds_meet : MeetState.t :=
  MeetState.mk
    [upcoming_final "Men 60m" "60m"
       [seeded "Ann" "A" (Some "9.000"); seeded "Bob" "B" (Some "9.001")]]%string
    [].




(* ------------------------------------------------------------------ *)
(** ** Properties *)
(* ------------------------------------------------------------------ *)

(** *** Dictionaries *)

Lemma dict_get_set (V : Type) (d : dict V) (k k' : string) (v : V) :
  dict_get (dict_set d k v) k' =
  if String.eqb k' k then Some v else dict_get d k'.
Proof.
  induction d as [|[k0 v0] d IH]; simpl.
  - reflexivity.
  - destruct (String.eqb_spec k k0) as [->|Hk]; simpl.
    + destruct (String.eqb k' k0); reflexivity.
    + rewrite IH.
      destruct (String.eqb_spec k' k) as [->|Hk'].
      * destruct (String.eqb_spec k k0); [contradiction|reflexivity].
      * reflexivity.
Qed.

Lemma dict_get_set_same (V : Type) (d : dict V) (k : string) (v : V) :
  dict_get (dict_set d k v) k = Some v.
Proof. rewrite dict_get_set, String.eqb_refl; reflexivity. Qed.

Lemma dict_get_set_other (V : Type) (d : dict V) (k k' : string) (v : V) :
  k' <> k -> dict_get (dict_set d k v) k' = dict_get d k'.
Proof.
  intros H. rewrite dict_get_set.
  destruct (String.eqb_spec k' k); [contradiction|reflexivity].
Qed.

(** *** The table *)

Lemma table_get_in (table : list (Z * Z)) (p v : Z) :
  table_get table p = Some v -> In (p, v) table.
Proof.
  induction table as [|[k w] t IH]; simpl; [discriminate|].
  destruct (Z.eqb_spec p k) as [->|Hne].
  - intros [= ->]. now left.
  - intros H. right. now apply IH.
Qed.

Lemma valid_table_range (table : list (Z * Z)) (p v : Z) :
  valid_table table = true -> table_get table p = Some v ->
  (1 <= p <= 8 /\ 0 < v)%Z.
Proof.
  unfold valid_table. intros Hv Hg.
  apply andb_prop in Hv as [Hall _].
  rewrite forallb_forall in Hall.
  specialize (Hall _ (table_get_in _ _ Hg)). simpl in Hall.
  apply andb_prop in Hall as [Hall H3]. apply andb_prop in Hall as [H1 H2].
  lia.
Qed.

Lemma table_get_some (table : list (Z * Z)) (p : Z) :
  existsb (fun kv => (p =? fst kv)%Z) table = true ->
  exists v, table_get table p = Some v.
Proof.
  induction table as [|[k w] t IH]; simpl; [discriminate|].
  destruct (Z.eqb_spec p k) as [->|Hne]; simpl.
  - intros _. now exists w.
  - exact IH.
Qed.

Lemma valid_table_domain (table : list (Z * Z)) (p : Z) :
  valid_table table = true -> (1 <= p <= 8)%Z ->
  exists v, table_get table p = Some v.
Proof.
  unfold valid_table. intros Hv Hp.
  apply andb_prop in Hv as [_ Hdom].
  rewrite forallb_forall in Hdom.
  apply table_get_some, Hdom. simpl.
  assert (p = 1 \/ p = 2 \/ p = 3 \/ p = 4 \/ p = 5 \/ p = 6 \/ p = 7 \/ p = 8)%Z
    as H by lia.
  intuition.
Qed.

Lemma points_or_zero_nonneg (table : list (Z * Z)) (p : Z) :
  valid_table table = true -> (0 <= points_or_zero table p)%Z.
Proof.
  intros Hv. unfold points_or_zero, place_points.
  destruct (table_get table p) as [v|] eqn:E; [|lia].
  destruct (valid_table_range _ _ Hv E). lia.
Qed.

Lemma points_or_zero_outside (table : list (Z * Z)) (p : Z) :
  valid_table table = true -> ~ (1 <= p <= 8)%Z -> points_or_zero table p = 0%Z.
Proof.
  intros Hv Hp. unfold points_or_zero, place_points.
  destruct (table_get table p) as [v|] eqn:E; [|reflexivity].
  destruct (valid_table_range _ _ Hv E). lia.
Qed.

(** *** Score tabulator *)

Section TabulatorProperties.

Variable table : list (Z * Z).
Variable get_completed_finals : MeetState.t -> Gender.t -> list MeetEvent.t.
Hypothesis table_ok : valid_table table = true.

Lemma athlete_worth_place (a : Athlete.t) (p pts : Z) :
  Athlete.final_place a = Some p -> place_points table p = Some pts ->
  athlete_worth table a = pts /\ in_scoring_range a = true.
Proof.
  intros Hp Hg. unfold athlete_worth, in_scoring_range. rewrite Hp.
  destruct (valid_table_range _ _ table_ok Hg) as [Hr _].
  replace ((1 <=? p)%Z && (p <=? 8)%Z) with true
    by (symmetry; apply andb_true_intro; split; lia).
  unfold points_or_zero. rewrite Hg. auto.
Qed.

Lemma athlete_worth_no_place (a : Athlete.t) (p : Z) :
  Athlete.final_place a = Some p -> place_points table p = None ->
  athlete_worth table a = 0%Z /\ in_scoring_range a = false.
Proof.
  intros Hp Hg. unfold athlete_worth, in_scoring_range. rewrite Hp.
  destruct ((1 <=? p)%Z && (p <=? 8)%Z) eqn:E; [|auto].
  apply andb_prop in E as [E1 E2].
  destruct (@valid_table_domain table p table_ok) as [v Hv]; [lia|].
  unfold place_points in Hg. congruence.
Qed.

(** What one athlete changes in the tally of a team. *)
Lemma tally_athlete_points (g : Gender.t) (label : string)
      (scores : dict TeamScore.t) (a : Athlete.t) (t : string) :
  actual_points_of (tally_athlete table g label scores a) t =
  (actual_points_of scores t
   + if String.eqb (Athlete.team a) t then athlete_worth table a else 0)%Z.
Proof.
  unfold tally_athlete.
  destruct (Athlete.final_place a) as [p|] eqn:Hp.
  - destruct (Z.eqb_spec p 0) as [->|Hp0].
    + unfold athlete_worth. rewrite Hp. simpl.
      destruct (String.eqb _ _); lia.
    + destruct (place_points table p) as [pts|] eqn:Hg.
      * destruct (athlete_worth_place a Hp Hg) as [-> _].
        unfold _get_or_create, actual_points_of.
        destruct (dict_get scores (Athlete.team a)) as [ts|] eqn:Hts;
          rewrite dict_get_set, String.eqb_sym.
        -- destruct (String.eqb_spec (Athlete.team a) t) as [<-|Hne].
           ++ rewrite Hts. reflexivity.
           ++ lia.
        -- destruct (String.eqb_spec (Athlete.team a) t) as [<-|Hne].
           ++ rewrite Hts. reflexivity.
           ++ rewrite dict_get_set_other by congruence. lia.
      * destruct (athlete_worth_no_place a Hp Hg) as [-> _].
        destruct (String.eqb _ _); lia.
  - unfold athlete_worth. rewrite Hp. destruct (String.eqb _ _); lia.
Qed.

(** An athlete without a scoring place leaves the tally as it is. *)
Lemma tally_athlete_unscored (g : Gender.t) (label : string)
      (scores : dict TeamScore.t) (a : Athlete.t) :
  in_scoring_range a = false ->
  tally_athlete table g label scores a = scores.
Proof.
  unfold tally_athlete, in_scoring_range.
  destruct (Athlete.final_place a) as [p|] eqn:Hp; [|reflexivity].
  intros Hr. destruct (Z.eqb_spec p 0); [reflexivity|].
  destruct (place_points table p) as [pts|] eqn:Hg; [|reflexivity].
  destruct (valid_table_range _ _ table_ok Hg) as [Hrange _].
  apply andb_false_iff in Hr as [Hr|Hr]; lia.
Qed.

(** An athlete with a scoring place is credited the table value. *)
Lemma tally_athlete_scored (g : Gender.t) (label : string)
      (scores : dict TeamScore.t) (a : Athlete.t) :
  in_scoring_range a = true ->
  exists p pts,
    Athlete.final_place a = Some p /\ place_points table p = Some pts /\
    actual_points_of (tally_athlete table g label scores a) (Athlete.team a)
    = (actual_points_of scores (Athlete.team a) + pts)%Z.
Proof.
  unfold in_scoring_range.
  destruct (Athlete.final_place a) as [p|] eqn:Hp; [|discriminate].
  intros Hr. apply andb_prop in Hr as [H1 H2].
  destruct (@valid_table_domain table p table_ok) as [pts Hg]; [lia|].
  exists p, pts. repeat split; auto.
  rewrite tally_athlete_points, String.eqb_refl.
  destruct (athlete_worth_place a Hp Hg) as [-> _]. reflexivity.
Qed.

Lemma tally_athletes_points (g : Gender.t) (label : string)
      (l : list Athlete.t) (scores : dict TeamScore.t) (t : string) :
  actual_points_of (fold_left (tally_athlete table g label) l scores) t =
  (actual_points_of scores t + team_worth table t l)%Z.
Proof.
  revert scores. induction l as [|a l IH]; intros scores; simpl.
  - unfold team_worth. simpl. lia.
  - rewrite IH, tally_athlete_points. unfold team_worth. simpl.
    destruct (String.eqb (Athlete.team a) t); simpl; lia.
Qed.

Lemma team_worth_app (t : string) (l1 l2 : list Athlete.t) :
  team_worth table t (l1 ++ l2) = (team_worth table t l1 + team_worth table t l2)%Z.
Proof.
  unfold team_worth. rewrite filter_app, map_app.
  induction (map (athlete_worth table) (filter _ l1)); simpl; lia.
Qed.

Lemma tally_final_points (g : Gender.t) (event : MeetEvent.t)
      (scores : dict TeamScore.t) (t : string) :
  actual_points_of (tally_final table g scores event) t =
  (actual_points_of scores t
   + team_worth table t (map EventEntry.athlete (MeetEvent.entries event)))%Z.
Proof.
  unfold tally_final.
  rewrite <- tally_athletes_points with (g := g)
                                        (label := MeetEvent.event_name event).
  f_equal. generalize scores.
  induction (MeetEvent.entries event) as [|x l IH]; intros sc; simpl; auto.
Qed.

Lemma tally_finals_points (g : Gender.t) (events : list MeetEvent.t)
      (scores : dict TeamScore.t) (t : string) :
  actual_points_of (fold_left (tally_final table g) events scores) t =
  (actual_points_of scores t
   + team_worth table t
       (flat_map (fun e => map EventEntry.athlete (MeetEvent.entries e)) events))%Z.
Proof.
  revert scores. induction events as [|e events IH]; intros scores; simpl.
  - unfold team_worth. simpl. lia.
  - rewrite IH, tally_final_points, team_worth_app. lia.
Qed.

Lemma tally_combined_points (g : Gender.t)
      (combined : list CombinedEventResult.t)
      (scores : dict TeamScore.t) (t : string) :
  actual_points_of (fold_left (tally_combined table g) combined scores) t =
  (actual_points_of scores t
   + team_worth table t
       (flat_map CombinedEventResult.athletes
          (filter (fun c => Gender.eqb (CombinedEventResult.gender c) g
                            && CombinedEventResult.is_complete c)
                  combined)))%Z.
Proof.
  revert scores. induction combined as [|c combined IH]; intros scores; simpl.
  - unfold team_worth. simpl. lia.
  - rewrite IH. unfold tally_combined.
    destruct (Gender.eqb (CombinedEventResult.gender c) g);
      destruct (CombinedEventResult.is_complete c); simpl; try lia.
    rewrite tally_athletes_points, team_worth_app. lia.
Qed.

(** C8. The tabulator credits the table value of a place to the team of an
    athlete exactly when the place is set and lies in 1 to 8, in the
    completed finals and in the complete combined events alike: such an
    athlete adds the table value to the team, any other athlete leaves every
    total as it is, and the total of a team is the sum of what its athletes
    are worth. *)
Theorem actual_scores_credit_scoring_places :
  (forall g label scores a,
      in_scoring_range a = true ->
      exists p pts,
        Athlete.final_place a = Some p /\ place_points table p = Some pts /\
        actual_points_of (tally_athlete table g label scores a) (Athlete.team a)
        = (actual_points_of scores (Athlete.team a) + pts)%Z) /\
  (forall g label scores a,
      in_scoring_range a = false ->
      tally_athlete table g label scores a = scores) /\
  (forall state gender team,
      actual_points_of
        (compute_actual_scores table get_completed_finals state gender) team
      = team_worth table team
                   (tabulated_athletes get_completed_finals state gender)).
Proof.
  split; [|split].
  - intros. now apply tally_athlete_scored.
  - intros. now apply tally_athlete_unscored.
  - intros state gender team. unfold compute_actual_scores, tabulated_athletes.
    rewrite tally_combined_points, tally_finals_points, team_worth_app.
    unfold actual_points_of at 1. simpl. lia.
Qed.

End TabulatorProperties.

(** *** Sets and sorting *)

Lemma set_add_keeps (s : list string) (k t : string) :
  In t s -> In t (set_add s k).
Proof.
  unfold set_add. destruct (set_mem s k); [auto|].
  intros H. apply in_or_app. now left.
Qed.

Lemma set_add_in (s : list string) (k : string) : In k (set_add s k).
Proof.
  unfold set_add, set_mem. destruct (existsb (String.eqb k) s) eqn:E.
  - apply existsb_exists in E as (x & Hx & Heq).
    apply String.eqb_eq in Heq. now subst.
  - apply in_or_app. right. now left.
Qed.

Lemma set_add_inv (s : list string) (k t : string) :
  In t (set_add s k) -> In t s \/ t = k.
Proof.
  unfold set_add. destruct (set_mem s k); [auto|].
  intros H. apply in_app_or in H as [H|[H|[]]]; auto.
Qed.

Lemma sorted_insert_in (A : Type) (lt : A -> A -> bool) (x y : A) (l : list A) :
  In y (sorted_insert lt x l) <-> y = x \/ In y l.
Proof.
  induction l as [|z l IH]; simpl.
  - intuition.
  - destruct (lt z x); simpl; rewrite ?IH; intuition.
Qed.

Lemma sorted_in (A : Type) (lt : A -> A -> bool) (y : A) (l : list A) :
  In y (sorted lt l) <-> In y l.
Proof.
  induction l as [|x l IH]; simpl; [tauto|].
  rewrite sorted_insert_in, IH. intuition.
Qed.

(** *** Ceiling estimator *)

Section CeilingProperties.

Variable table : list (Z * Z).
Variable get_upcoming_finals : MeetState.t -> Gender.t -> list MeetEvent.t.
Hypothesis table_ok : valid_table table = true.

Lemma kept_above_refl (t : string) (c : dict Z) : kept_above t c c.
Proof. intros v Hv. exists v. split; [auto|lia]. Qed.

Lemma kept_above_trans (t : string) (c1 c2 c3 : dict Z) :
  kept_above t c1 c2 -> kept_above t c2 c3 -> kept_above t c1 c3.
Proof.
  intros H12 H23 v Hv.
  destruct (H12 _ Hv) as (v2 & Hv2 & Hle2).
  destruct (H23 _ Hv2) as (v3 & Hv3 & Hle3).
  exists v3. split; [auto|lia].
Qed.

Lemma dict_add_Z_kept (t k : string) (c : dict Z) (pts : Z) :
  (0 <= pts)%Z -> kept_above t c (dict_add_Z c k pts).
Proof.
  intros Hpts v Hv. unfold dict_add_Z. rewrite dict_get_set.
  destruct (String.eqb_spec t k) as [->|Hne].
  - unfold dict_get_default. rewrite Hv. eexists. split; [reflexivity|lia].
  - exists v. split; [auto|lia].
Qed.

Lemma claim_places_kept (t team : string) (count : nat) (place : Z) (c : dict Z) :
  kept_above t c (snd (claim_places table count team place c)).
Proof.
  revert place c. induction count as [|k IH]; intros place c; simpl.
  - apply kept_above_refl.
  - destruct (place_points table place) as [pts|] eqn:Hg.
    + assert (kept_above t c (dict_add_Z c team pts)) as Hstep.
      { apply dict_add_Z_kept.
        destruct (valid_table_range _ _ table_ok Hg). lia. }
      destruct (place + 1 >? 8)%Z; simpl; [exact Hstep|].
      eapply kept_above_trans; [exact Hstep|apply IH].
    + destruct (place >? 8)%Z; simpl; [apply kept_above_refl|apply IH].
Qed.

Lemma claim_places_other (t team : string) (count : nat) (place : Z) (c : dict Z) :
  t <> team ->
  dict_get (snd (claim_places table count team place c)) t = dict_get c t.
Proof.
  intros Hne. revert place c.
  induction count as [|k IH]; intros place c; simpl; [reflexivity|].
  destruct (place_points table place) as [pts|].
  - destruct (place + 1 >? 8)%Z; simpl; [|rewrite IH];
      unfold dict_add_Z; now rewrite dict_get_set_other.
  - destruct (place >? 8)%Z; simpl; [reflexivity|apply IH].
Qed.

Lemma claim_by_team_kept (t : string) (team_list : list string)
      (counts : dict Z) (place : Z) (c : dict Z) :
  kept_above t c (claim_by_team table team_list counts place c).
Proof.
  revert place c. induction team_list as [|team rest IH]; intros place c; simpl.
  - apply kept_above_refl.
  - pose proof (claim_places_kept t team
                  (Z.to_nat (dict_get_default counts team 0%Z)) place c) as H.
    destruct (claim_places table _ team place c) as [place1 c1]. simpl in H.
    destruct (place1 >? 8)%Z; [exact H|].
    eapply kept_above_trans; [exact H|apply IH].
Qed.

Lemma claim_by_team_other (t : string) (team_list : list string)
      (counts : dict Z) (place : Z) (c : dict Z) :
  ~ In t team_list ->
  dict_get (claim_by_team table team_list counts place c) t = dict_get c t.
Proof.
  revert place c. induction team_list as [|team rest IH]; intros place c Hin; simpl.
  - reflexivity.
  - pose proof (@claim_places_other t team
                  (Z.to_nat (dict_get_default counts team 0%Z)) place c) as H.
    destruct (claim_places table _ team place c) as [place1 c1]. simpl in H.
    assert (t <> team) as Hne by (intros ->; apply Hin; now left).
    destruct (place1 >? 8)%Z; [now apply H|].
    rewrite IH; [now apply H|]. intros Hr. apply Hin. now right.
Qed.

Lemma dict_set_keys (V : Type) (d : dict V) (k t : string) (v : V) :
  In t (dict_keys (dict_set d k v)) -> In t (dict_keys d) \/ t = k.
Proof.
  induction d as [|[k0 v0] d IH]; simpl.
  - intros [H|[]]; auto.
  - destruct (String.eqb k k0); simpl; intros [H|H]; auto.
    destruct (IH H); auto.
Qed.

Lemma count_team_athletes_keys (event : MeetEvent.t) (t : string) :
  In t (dict_keys (count_team_athletes event)) ->
  exists entry, In entry (MeetEvent.entries event) /\ entry_team entry = t.
Proof.
  unfold count_team_athletes.
  assert (forall l d,
             In t (dict_keys (fold_left
                                (fun d entry => dict_add_Z d (entry_team entry) 1)
                                l d)) ->
             In t (dict_keys d) \/
             exists entry, In entry l /\ entry_team entry = t) as H.
  { induction l as [|e l IH]; intros d; simpl; [auto|].
    intros Hin. apply IH in Hin as [Hin|(entry & He & Ht)].
    - unfold dict_add_Z in Hin. apply dict_set_keys in Hin as [Hin| ->]; eauto.
    - eauto. }
  intros Hin. apply H in Hin as [[]|Hin]. exact Hin.
Qed.

Lemma ceiling_event_kept (t : string) (c : dict Z) (event : MeetEvent.t) :
  kept_above t c (ceiling_event table c event).
Proof. apply claim_by_team_kept. Qed.

Lemma ceiling_event_other (t : string) (c : dict Z) (event : MeetEvent.t) :
  (forall entry, In entry (MeetEvent.entries event) -> entry_team entry <> t) ->
  dict_get (ceiling_event table c event) t = dict_get c t.
Proof.
  intros Hno. apply claim_by_team_other.
  rewrite sorted_in. intros Hin.
  apply count_team_athletes_keys in Hin as (entry & He & Ht).
  exact (Hno _ He Ht).
Qed.

Lemma ceiling_events_kept (t : string) (events : list MeetEvent.t) (c : dict Z) :
  kept_above t c (fold_left (ceiling_event table) events c).
Proof.
  revert c. induction events as [|e events IH]; intros c; simpl.
  - apply kept_above_refl.
  - eapply kept_above_trans; [apply ceiling_event_kept|apply IH].
Qed.

Lemma ceiling_events_other (t : string) (events : list MeetEvent.t) (c : dict Z) :
  (forall event entry, In event events -> In entry (MeetEvent.entries event) ->
                       entry_team entry <> t) ->
  dict_get (fold_left (ceiling_event table) events c) t = dict_get c t.
Proof.
  revert c. induction events as [|e events IH]; intros c Hno; simpl.
  - reflexivity.
  - rewrite IH.
    + apply ceiling_event_other. intros entry He. apply (Hno e); simpl; auto.
    + intros event entry He. apply Hno. now right.
Qed.

Lemma snapshot_teams_complete (state : MeetState.t) (t : string) :
  truthy t = true -> In t (teams_on_entries state) -> In t (snapshot_teams state).
Proof.
  intros Ht. unfold teams_on_entries, snapshot_teams.
  set (inner := fun (acc' : list string) entry =>
                  if truthy (entry_team entry)
                  then set_add acc' (entry_team entry) else acc').
  assert (forall l acc, In t acc -> In t (fold_left inner l acc)) as Hkeep_in.
  { induction l as [|e l IH]; intros acc Hacc; simpl; [auto|].
    apply IH. unfold inner. destruct (truthy (entry_team e)); [|auto].
    now apply set_add_keeps. }
  assert (forall l acc, In t (map entry_team l) -> In t (fold_left inner l acc))
    as Hadd_in.
  { induction l as [|e l IH]; intros acc; simpl; [tauto|].
    intros [He|Hl]; [|now apply IH].
    apply Hkeep_in. unfold inner. rewrite He, Ht. apply set_add_in. }
  assert (forall events acc,
             In t acc ->
             In t (fold_left (fun acc event =>
                                fold_left inner (MeetEvent.entries event) acc)
                             events acc)) as Hkeep_out.
  { induction events as [|e events IH]; intros acc Hacc; simpl; [auto|].
    apply IH, Hkeep_in, Hacc. }
  generalize (@nil string).
  induction (MeetState.events state) as [|e events IH]; intros acc; simpl;
    [tauto|].
  intros Hin. apply in_app_or in Hin as [Hin|Hin].
  - apply Hkeep_out, Hadd_in, Hin.
  - now apply IH.
Qed.

Lemma ceiling_base (actual : dict TeamScore.t) (t : string)
      (teams : list string) (c : dict Z) :
  In t teams ->
  dict_get (fold_left (fun c team => dict_set c team (actual_points_of actual team))
                      teams c) t
  = Some (actual_points_of actual t).
Proof.
  assert (forall l c0,
             dict_get c0 t = Some (actual_points_of actual t) ->
             dict_get (fold_left
                         (fun c team => dict_set c team (actual_points_of actual team))
                         l c0) t = Some (actual_points_of actual t)) as Hkeep.
  { induction l as [|x l IH]; intros c0 H0; simpl; [auto|].
    apply IH. rewrite dict_get_set.
    destruct (String.eqb_spec t x) as [->|]; auto. }
  revert c. induction teams as [|x teams IH]; intros c; simpl; [tauto|].
  intros [->|Hin]; [|now apply IH].
  apply Hkeep, dict_get_set_same.
Qed.

(** C10, as amended. Every non-empty team name found on an entry of any
    event of the snapshot, whatever its gender or round, is a key of the
    ceiling map; its ceiling is at least the actual points of the team, and
    equal to them when the team has no entrant in an upcoming final of the
    gender. *)
Theorem ceiling_covers_named_teams
        (actual : dict TeamScore.t) (state : MeetState.t) (gender : Gender.t)
        (team : string) :
  team <> EmptyString ->
  In team (teams_on_entries state) ->
  ceiling_covers table get_upcoming_finals actual state gender team.
Proof.
  intros Hname Hin. unfold ceiling_covers, compute_optimistic_ceiling.
  assert (truthy team = true) as Ht.
  { unfold truthy. destruct (String.eqb_spec team EmptyString); [contradiction|auto]. }
  pose proof (ceiling_base actual team (snapshot_teams state) []
                           (snapshot_teams_complete state team Ht Hin)) as Hbase.
  destruct (ceiling_events_kept team (get_upcoming_finals state gender) _ Hbase)
    as (v & Hv & Hle).
  exists v. repeat split; auto.
  intros Hno. rewrite ceiling_events_other in Hv.
  - rewrite Hbase in Hv. congruence.
  - intros event entry He Hentry Hteam. apply Hno.
    exists event, entry. auto.
Qed.

End CeilingProperties.

(** C10, as stated, fails for the empty team name: a row whose team is the
    empty string is skipped when the keys are collected. *)
Lemma ceiling_skips_empty_team_name :
  ~ (forall team,
        In team (teams_on_entries nameless_team_meet) ->
        ceiling_covers standard_place_points spec_get_upcoming_finals []
                       nameless_team_meet Gender.MEN team).
Proof.
  intros H. destruct (H EmptyString) as (v & Hv & _).
  - simpl. auto.
  - vm_compute in Hv. discriminate.
Qed.

(** *** The layers on the sample snapshots *)

(** C1. On [dash_meet] the ceiling of team B is below its seed projection:
    team A sorts first and claims place 1 of the shared counter, so the
    ceiling of B is 8, while the faster seed of B projects to 10 points. *)
Theorem ceiling_below_projection_on_dash_meet :
  let actual := compute_actual_scores standard_place_points
                                      spec_get_completed_finals
                                      dash_meet Gender.MEN in
  dict_get (compute_optimistic_ceiling standard_place_points
                                       spec_get_upcoming_finals
                                       actual dash_meet Gender.MEN) "B"
  = Some 8%Z /\
  exists v,
    dict_get (compute_seed_projection standard_place_points
                                      spec_get_upcoming_finals
                                      actual dash_meet Gender.MEN) "B"
    = Some v /\ v == 10 /\ inject_Z 8 < v.
Proof.
  split; [reflexivity|].
  eexists. split; [vm_compute; reflexivity|]. split; reflexivity.
Qed.

(** C2. On [unseeded_meet] the nine unseeded entrants form one tied block
    over places 1 to 9; each receives the average over places 1 to 8, and
    the block is paid 351/8 points, more than the 39 points of the places
    it occupies. *)
Theorem tied_block_past_eighth_place_overpays :
  exists v,
    dict_get (compute_seed_projection standard_place_points
                                      spec_get_upcoming_finals
                                      [] unseeded_meet Gender.MEN) "A"
    = Some v /\ v == 351 # 8 /\
    inject_Z (sum_Z (map (points_or_zero standard_place_points) (range 1 10))) < v.
Proof.
  eexists. split; [vm_compute; reflexivity|]. split; reflexivity.
Qed.

(** C3. In the long jump the key of the mark 13-04.50 is +160.5, the
    magnitude and not its negation, and the shorter jump is ranked ahead of
    the longer one; the metric mark 16.45 has the key -16.45. *)
Theorem feet_inches_key_is_not_negated :
  is_field_event long_jump = true /\
  _mark_to_seconds "13-04.50" = Some (-321 # 2) /\
  _seed_sort_key (seeded "Ann" "A" (Some "13-04.50"%string)) long_jump == 321 # 2 /\
  _seed_sort_key (seeded "Bob" "B" (Some "20-00.00"%string)) long_jump == 240 /\
  _seed_sort_key (seeded "Cy" "C" (Some "16.45"%string)) long_jump == - (329 # 20) /\
  map (fun ie => Athlete.name (EventEntry.athlete (snd ie)))
      (_rank_entries_by_seed long_jump) = ["Ann"; "Bob"]%string.
Proof.
  repeat split; reflexivity.
Qed.

(** *** Win probability: nothing left to simulate *)

Lemma fold_max_bounds (l : list Z) (x : Z) :
  (x <= fold_left Z.max l x)%Z /\
  (forall y, In y l -> (y <= fold_left Z.max l x)%Z) /\
  (fold_left Z.max l x = x \/ In (fold_left Z.max l x) l).
Proof.
  revert x. induction l as [|a l IH]; intros x; simpl.
  - repeat split; [lia|tauto|auto].
  - destruct (IH (Z.max x a)) as (H1 & H2 & H3).
    repeat split.
    + lia.
    + intros y [->|Hy]; [lia|auto].
    + destruct H3 as [H3|H3]; [|auto].
      destruct (Z.max_spec x a) as [[_ Hm]|[_ Hm]]; rewrite Hm in *;
        [right; left; congruence|left; congruence].
Qed.

Lemma py_max_spec (l : list Z) :
  l <> [] ->
  exists m, py_max l = Ok m /\ In m l /\ forall y, In y l -> (y <= m)%Z.
Proof.
  destruct l as [|x l]; [congruence|]. intros _.
  destruct (fold_max_bounds l x) as (H1 & H2 & H3).
  exists (fold_left Z.max l x). simpl. repeat split.
  - destruct H3 as [->|H3]; auto.
  - intros y [<-|Hy]; auto.
Qed.

Lemma map_result_total (A B : Type) (f : A -> result B) (g : A -> B)
      (l : list A) :
  (forall x, In x l -> f x = Ok (g x)) -> map_result f l = Ok (map g l).
Proof.
  induction l as [|x l IH]; intros H; simpl; [reflexivity|].
  rewrite (H x) by now left. simpl.
  rewrite IH by (intros y Hy; apply H; now right). reflexivity.
Qed.

Lemma dict_get_in (V : Type) (d : dict V) (t : string) (v : V) :
  NoDup (dict_keys d) -> In (t, v) d -> dict_get d t = Some v.
Proof.
  induction d as [|[k w] d IH]; simpl; [tauto|].
  intros Hnd [Heq|Hin].
  - inversion Heq; subst. now rewrite String.eqb_refl.
  - inversion Hnd as [|? ? Hk Hnd']; subst.
    destruct (String.eqb_spec t k) as [->|Hne]; [|auto].
    exfalso. apply Hk. change k with (fst (k, v)).
    now apply in_map.
Qed.

Lemma dict_get_some_in (V : Type) (d : dict V) (t : string) (v : V) :
  dict_get d t = Some v -> In (t, v) d.
Proof.
  induction d as [|[k w] d IH]; simpl; [discriminate|].
  destruct (String.eqb_spec t k) as [->|Hne].
  - intros [= ->]. now left.
  - intros H. right. auto.
Qed.

Lemma dict_get_map (V W : Type) (g : string * V -> W) (d : dict V) (t : string) :
  dict_get (map (fun kv => (fst kv, g kv)) d) t =
  match dict_get d t with
  | Some v => Some (g (t, v))
  | None => None
  end.
Proof.
  induction d as [|[k w] d IH]; simpl; [reflexivity|].
  destruct (String.eqb_spec t k) as [->|Hne]; auto.
Qed.

Lemma set_mem_true (s : list string) (k : string) :
  set_mem s k = true <-> In k s.
Proof.
  unfold set_mem. rewrite existsb_exists. split.
  - intros (x & Hx & Heq). apply String.eqb_eq in Heq. now subst.
  - intros H. exists k. split; [auto|apply String.eqb_refl].
Qed.

Section LeadersProperties.

Variable table : list (Z * Z).
Variable get_upcoming_finals : MeetState.t -> Gender.t -> list MeetEvent.t.

Lemma winner_iff (actual : dict TeamScore.t) (m : Z) (t : string)
      (ts : TeamScore.t) :
  NoDup (dict_keys actual) -> In (t, ts) actual ->
  set_mem (dict_keys (filter (fun kv => (TeamScore.actual_points (snd kv) =? m)%Z)
                             actual)) t = true
  <-> TeamScore.actual_points ts = m.
Proof.
  intros Hnd Hin. rewrite set_mem_true. unfold dict_keys. rewrite in_map_iff.
  split.
  - intros ([t' ts'] & Heq & Hf). simpl in Heq. subst t'.
    apply filter_In in Hf as [Hin' Hp]. simpl in Hp.
    pose proof (dict_get_in _ _ _ Hnd Hin) as E1.
    pose proof (dict_get_in _ _ _ Hnd Hin') as E2.
    rewrite E1 in E2. injection E2 as <-. lia.
  - intros Hm. exists (t, ts). split; [reflexivity|].
    apply filter_In. split; [auto|]. simpl. lia.
Qed.

(** C6. With no upcoming final that has entrants, whatever the random draws
    and the iteration count, the result is the empty map for no team, and
    otherwise it has the keys of the actual-scores map, gives 1/k to each of
    the k teams that hold the maximum of the actual points and 0 to every
    other team. *)
Theorem no_upcoming_final_splits_among_leaders
        (actual : dict TeamScore.t) (state : MeetState.t) (gender : Gender.t) :
  NoDup (dict_keys actual) ->
  upcoming_with_entries get_upcoming_finals state gender = [] ->
  exists m,
    (forall random_draws n_iterations,
        compute_win_probability table get_upcoming_finals random_draws
                                actual state gender n_iterations = Ok m) /\
    (actual = [] -> m = []) /\
    dict_keys m = dict_keys actual /\
    forall t ts,
      In (t, ts) actual ->
      exists v,
        dict_get m t = Some v /\
        (leads actual ts ->
         v == 1 / inject_Z (Z.of_nat (teams_holding actual
                                                    (TeamScore.actual_points ts)))) /\
        (trails actual ts -> v == 0).
Proof.
  intros Hnd Hup. unfold compute_win_probability. rewrite Hup.
  unfold current_leaders.
  destruct actual as [|kv0 rest] eqn:Hact.
  { exists []. repeat split; auto. intros t ts []. }
  rewrite <- Hact in *.
  destruct (@py_max_spec (map TeamScore.actual_points (dict_values actual)))
    as (mx & Hmax & Hmem & Hge).
  { rewrite Hact. discriminate. }
  rewrite Hmax. simpl.
  set (winners := dict_keys
                    (filter (fun kv => (TeamScore.actual_points (snd kv) =? mx)%Z)
                            actual)).
  set (share := 1 / inject_Z (Z.of_nat (length winners))).
  set (g := fun kv : string * TeamScore.t =>
              if set_mem winners (fst kv) then share else 0).
  assert (forall t, In t winners ->
                    py_div 1 (inject_Z (Z.of_nat (length winners))) = Ok share)
    as Hdiv.
  { intros t Ht. unfold py_div.
    destruct winners as [|w ws]; [destruct Ht|].
    reflexivity. }
  erewrite map_result_total with (g := fun kv => (fst kv, g kv)).
  2:{ intros [t ts] Hin. unfold g. simpl.
      destruct (set_mem winners t) eqn:E; [|reflexivity].
      apply set_mem_true in E. rewrite (Hdiv _ E). reflexivity. }
  eexists. split; [reflexivity|]. split; [rewrite Hact; discriminate|]. split.
  { unfold dict_keys. rewrite map_map. reflexivity. }
  intros t ts Hin.
  rewrite dict_get_map, (dict_get_in _ _ _ Hnd Hin).
  eexists. split; [reflexivity|]. unfold g. simpl.
  assert (In (TeamScore.actual_points ts)
             (map TeamScore.actual_points (dict_values actual))) as Hpts.
  { apply in_map. unfold dict_values. change ts with (snd (t, ts)).
    now apply in_map. }
  pose proof (@winner_iff actual mx t ts Hnd Hin) as Hw. fold winners in Hw.
  split.
  - intros Hlead.
    assert (TeamScore.actual_points ts = mx) as Heq.
    { apply Z.le_antisymm; [auto|].
      unfold dict_values in Hmem. rewrite map_map in Hmem.
      apply in_map_iff in Hmem as ([t' ts'] & <- & Hin'). simpl.
      exact (Hlead _ _ Hin'). }
    apply Hw in Heq. rewrite Heq. unfold share, teams_holding.
    subst winners. unfold dict_keys. rewrite length_map.
    replace mx with (TeamScore.actual_points ts) by (now apply Hw).
    reflexivity.
  - intros (t' & ts' & Hin' & Hlt).
    destruct (set_mem winners t) eqn:E; [|reflexivity].
    exfalso. apply proj1 in Hw. specialize (Hw eq_refl).
    assert (TeamScore.actual_points ts' <= mx)%Z.
    { apply Hge. apply in_map. unfold dict_values.
      change ts' with (snd (t', ts')). now apply in_map. }
    lia.
Qed.

End LeadersProperties.

(** *** Rational sums and checked division *)

Lemma sum_Q_nonneg (l : list Q) :
  (forall x, In x l -> 0 <= x) -> 0 <= sum_Q l.
Proof.
  induction l as [|x l IH]; intros H; simpl; [lra|].
  assert (0 <= x) by (apply H; now left).
  assert (0 <= sum_Q l) by (apply IH; intros y Hy; apply H; now right).
  lra.
Qed.

Lemma sum_Q_pos (l : list Q) :
  l <> [] -> (forall x, In x l -> 0 < x) -> 0 < sum_Q l.
Proof.
  destruct l as [|x l]; [congruence|]. intros _ H. simpl.
  assert (0 < x) by (apply H; now left).
  assert (0 <= sum_Q l).
  { apply sum_Q_nonneg. intros y Hy. apply Qlt_le_weak, H. now right. }
  lra.
Qed.

Lemma sum_Q_ge_member (l : list Q) (x : Q) :
  (forall y, In y l -> 0 <= y) -> In x l -> x <= sum_Q l.
Proof.
  induction l as [|y l IH]; intros Hnn Hin; simpl; [destruct Hin|].
  assert (0 <= y) by (apply Hnn; now left).
  assert (0 <= sum_Q l).
  { apply sum_Q_nonneg. intros z Hz. apply Hnn. now right. }
  destruct Hin as [->|Hin]; [lra|].
  assert (x <= sum_Q l) by (apply IH; [intros z Hz; apply Hnn; now right|auto]).
  lra.
Qed.

Lemma sum_Q_app (l1 l2 : list Q) : sum_Q (l1 ++ l2) == sum_Q l1 + sum_Q l2.
Proof.
  induction l1 as [|x l1 IH]; simpl; [lra|]. rewrite IH. lra.
Qed.

Lemma py_div_ok (a b : Q) : ~ b == 0 -> py_div a b = Ok (a / b).
Proof.
  intros Hb. unfold py_div.
  destruct (Qeq_bool b 0) eqn:E; [|reflexivity].
  apply Qeq_bool_iff in E. contradiction.
Qed.

Lemma Qltb_true (a b : Q) : Qltb a b = true <-> a < b.
Proof.
  unfold Qltb. rewrite negb_true_iff. split.
  - intros H. apply Qnot_le_lt. intros Hle.
    apply Qle_bool_iff in Hle. congruence.
  - intros H. destruct (Qle_bool b a) eqn:E; [|reflexivity].
    apply Qle_bool_iff in E. lra.
Qed.

Lemma inject_nat_pos (n : nat) : (0 < n)%nat -> 0 < inject_Z (Z.of_nat n).
Proof.
  intros H. change 0 with (inject_Z 0). rewrite <- Zlt_Qlt. lia.
Qed.

(** *** Keys of a dictionary under assignment *)

Lemma dict_set_keeps_key (V : Type) (d : dict V) (k t : string) (v : V) :
  In t (dict_keys d) -> In t (dict_keys (dict_set d k v)).
Proof.
  induction d as [|[k0 v0] d IH]; simpl; [tauto|].
  destruct (String.eqb k k0); simpl; intros [H|H]; auto.
Qed.

Lemma dict_set_has_key (V : Type) (d : dict V) (k : string) (v : V) :
  In k (dict_keys (dict_set d k v)).
Proof.
  induction d as [|[k0 v0] d IH]; simpl; [auto|].
  destruct (String.eqb_spec k k0) as [->|Hne]; simpl; auto.
Qed.

Lemma dict_set_nodup (V : Type) (d : dict V) (k : string) (v : V) :
  NoDup (dict_keys d) -> NoDup (dict_keys (dict_set d k v)).
Proof.
  induction d as [|[k0 v0] d IH]; simpl; intros Hnd.
  - constructor; [intros []|constructor].
  - inversion Hnd as [|? ? Hk Hnd']; subst.
    destruct (String.eqb_spec k k0) as [->|Hne]; simpl.
    + now constructor.
    + constructor; [|auto].
      intros Hin. apply dict_set_keys in Hin as [Hin|Hin]; [auto|congruence].
Qed.

Lemma dict_get_none_key (V : Type) (d : dict V) (k : string) :
  dict_get d k = None <-> ~ In k (dict_keys d).
Proof.
  induction d as [|[k0 v0] d IH]; simpl; [tauto|].
  destruct (String.eqb_spec k k0) as [->|Hne].
  - split; [discriminate|]. intros H. exfalso. apply H. now left.
  - rewrite IH. split; [intros H [E|Hin]; [congruence|auto]|tauto].
Qed.

Lemma dict_set_sum (d : dict Q) (k : string) (w : Q) :
  sum_Q (dict_values (dict_set d k w))
  == sum_Q (dict_values d) - dict_get_default d k 0 + w.
Proof.
  unfold dict_get_default.
  induction d as [|[k0 v0] d IH]; simpl.
  - lra.
  - destruct (String.eqb_spec k k0) as [->|Hne]; simpl.
    + lra.
    + rewrite IH. lra.
Qed.

(** The values of a dictionary after [d[k] += v] sum to [v] more. *)
Lemma dict_add_Q_sum (d : dict Q) (k : string) (v : Q) :
  sum_Q (dict_values (dict_add_Q d k v)) == sum_Q (dict_values d) + v.
Proof.
  unfold dict_add_Q. rewrite dict_set_sum. lra.
Qed.

(** *** The ranking is a rearrangement of the named entries *)

Lemma sorted_insert_perm (A : Type) (lt : A -> A -> bool) (x : A) (l : list A) :
  Permutation (sorted_insert lt x l) (x :: l).
Proof.
  induction l as [|y l IH]; simpl; [reflexivity|].
  destruct (lt y x); [|reflexivity].
  rewrite IH. apply perm_swap.
Qed.

Lemma sorted_perm (A : Type) (lt : A -> A -> bool) (l : list A) :
  Permutation (sorted lt l) l.
Proof.
  induction l as [|x l IH]; simpl; [reflexivity|].
  rewrite sorted_insert_perm. now apply perm_skip.
Qed.

Lemma combine_snd (A B : Type) (l1 : list A) (l2 : list B) :
  length l1 = length l2 -> map snd (combine l1 l2) = l2.
Proof.
  revert l2. induction l1 as [|a l1 IH]; intros [|b l2] H; simpl in *;
    try discriminate; [reflexivity|].
  f_equal. apply IH. lia.
Qed.

Lemma filter_map_snd (A B : Type) (p : B -> bool) (l : list (A * B)) :
  map snd (filter (fun ab => p (snd ab)) l) = filter p (map snd l).
Proof.
  induction l as [|[a b] l IH]; simpl; [reflexivity|].
  destruct (p b); simpl; now rewrite IH.
Qed.

Lemma indexed_entries_snd (event : MeetEvent.t) :
  map snd (indexed_entries event) = MeetEvent.entries event.
Proof.
  unfold indexed_entries. apply combine_snd. apply length_seq.
Qed.

Lemma ranked_entries_perm (event : MeetEvent.t) :
  Permutation (map snd (_rank_entries_by_seed event))
              (filter entry_named (MeetEvent.entries event)).
Proof.
  unfold _rank_entries_by_seed.
  rewrite sorted_perm, filter_map_snd, indexed_entries_snd. reflexivity.
Qed.

(** *** Win probability: the simulation *)

Section SimulatorProperties.

Variable table : list (Z * Z).
Variable get_upcoming_finals : MeetState.t -> Gender.t -> list MeetEvent.t.
Variable random_draws : nat -> Q.

Lemma strength_pos (rank n : Z) (p : Q) : 0 < _seed_rank_to_strength rank n p.
Proof.
  unfold _seed_rank_to_strength. destruct (n <=? 1)%Z; [reflexivity|].
  apply Qpower_0_lt. reflexivity.
Qed.

Lemma range_length (a b : Z) : length (range a b) = Z.to_nat (b - a).
Proof. unfold range. now rewrite length_map, length_seq. Qed.

Lemma event_probs_ok (event : MeetEvent.t) :
  exists probs,
    event_probs event = Ok (combine (map snd (_rank_entries_by_seed event)) probs) /\
    length probs = length (_rank_entries_by_seed event) /\
    (forall p, In p probs -> 0 < p).
Proof.
  unfold event_probs.
  set (ranked := map snd (_rank_entries_by_seed event)).
  set (n := Z.of_nat (length ranked)).
  set (strengths := map (fun i => _seed_rank_to_strength (i + 1) n
                                    (_get_top_seed_win_prob event))
                        (range 0 n)).
  assert (forall s, In s strengths -> 0 < s) as Hpos.
  { intros s Hs. apply in_map_iff in Hs as (i & <- & _). apply strength_pos. }
  assert (forall s, In s strengths -> 0 < sum_Q strengths) as Htotal.
  { intros s Hs. apply sum_Q_pos; [|exact Hpos].
    intros E. rewrite E in Hs. destruct Hs. }
  exists (map (fun s => s / sum_Q strengths) strengths).
  rewrite map_result_total with (g := fun s => s / sum_Q strengths).
  2:{ intros s Hs. apply py_div_ok. specialize (Htotal _ Hs). lra. }
  split; [reflexivity|]. split.
  - rewrite length_map. unfold strengths. rewrite length_map, range_length.
    unfold n, ranked. rewrite length_map. lia.
  - intros p Hp. apply in_map_iff in Hp as (s & <- & Hs).
    unfold Qdiv. apply Qmult_lt_0_compat; [auto|].
    apply Qinv_lt_0_compat. eauto.
Qed.

Lemma choose_index_bound (r c : Q) (i : nat) (remaining : list (EventEntry.t * Q)) :
  choose_index r c i remaining = O \/
  (choose_index r c i remaining < i + length remaining)%nat.
Proof.
  revert c i. induction remaining as [|[e p] rest IH]; intros c i; simpl.
  - now left.
  - destruct (Qle_bool r (c + p)); [right; lia|].
    destruct (IH (c + p) (S i)) as [H|H]; [now left|right; lia].
Qed.

Lemma in_without (A : Type) (l : list A) (i : nat) (y : A) :
  In y (firstn i l ++ skipn (S i) l) -> In y l.
Proof.
  revert i. induction l as [|x l IH]; intros [|i]; simpl; auto.
  intros [H|H]; eauto.
Qed.

Lemma list_pop_ok (A : Type) (l : list A) (i : nat) :
  (i < length l)%nat ->
  exists x, list_pop l i = Ok (x, firstn i l ++ skipn (S i) l) /\ In x l.
Proof.
  intros Hi. unfold list_pop.
  destruct (nth_error l i) as [x|] eqn:E.
  - exists x. split; [reflexivity|]. eapply nth_error_In, E.
  - apply nth_error_Some in Hi. contradiction.
Qed.

(** The place loop ends without a fault; it keeps the keys of the scores
    and adds only teams of the entrants. *)
Lemma place_loop_ok (fuel : nat) (remaining : list (EventEntry.t * Q))
      (place : Z) (draws : nat) (sim : dict Z) :
  exists draws' sim',
    place_loop table random_draws fuel remaining place draws sim
    = Ok (draws', sim') /\
    (forall k, In k (dict_keys sim) -> In k (dict_keys sim')) /\
    (forall k, In k (dict_keys sim') ->
               In k (dict_keys sim) \/ In k (teams_of remaining)).
Proof.
  revert remaining place draws sim.
  induction fuel as [|fuel IH]; intros remaining place draws sim; simpl.
  { exists draws, sim. auto. }
  destruct remaining as [|ep rest].
  { exists draws, sim. auto. }
  destruct (place >? 8)%Z.
  { exists draws, sim. auto. }
  set (remaining := ep :: rest).
  destruct (Qle_bool (sum_Q (map snd remaining)) 0).
  { exists draws, sim. auto. }
  set (idx := choose_index (random_draws draws * sum_Q (map snd remaining))
                           0 0 remaining).
  assert (idx < length remaining)%nat as Hidx.
  { destruct (choose_index_bound
                (random_draws draws * sum_Q (map snd remaining)) 0 0 remaining)
      as [H|H]; fold idx in H; [rewrite H; simpl; lia|lia]. }
  destruct (list_pop_ok remaining Hidx) as (x & Hpop & Hx).
  rewrite Hpop. simpl.
  set (sim1 := if (points_or_zero table place >? 0)%Z
               then dict_set sim (entry_team (fst x))
                             (dict_get_default sim (entry_team (fst x)) 0
                              + points_or_zero table place)%Z
               else sim).
  destruct (IH (firstn idx remaining ++ skipn (S idx) remaining)
               (place + 1)%Z (S draws) sim1) as (d' & s' & Hrun & Hkeep & Hnew).
  exists d', s'. split; [exact Hrun|]. split.
  - intros k Hk. apply Hkeep. unfold sim1.
    destruct (points_or_zero table place >? 0)%Z; [|auto].
    now apply dict_set_keeps_key.
  - intros k Hk. apply Hnew in Hk as [Hk|Hk].
    + unfold sim1 in Hk.
      destruct (points_or_zero table place >? 0)%Z; [|auto].
      apply dict_set_keys in Hk as [Hk| ->]; [auto|].
      right. exact (in_map (fun ep => entry_team (fst ep)) remaining x Hx).
    + right. unfold teams_of in Hk. apply in_map_iff in Hk as (y & <- & Hy).
      exact (in_map (fun ep => entry_team (fst ep)) remaining y
                    (in_without _ _ _ Hy)).
Qed.

Lemma simulate_events_ok (event_data : list (list (EventEntry.t * Q)))
      (st : nat * dict Z) :
  exists draws' sim',
    simulate_events table random_draws event_data st = Ok (draws', sim') /\
    (forall k, In k (dict_keys (snd st)) -> In k (dict_keys sim')) /\
    (forall k, In k (dict_keys sim') ->
               In k (dict_keys (snd st)) \/
               exists ed, In ed event_data /\ In k (teams_of ed)).
Proof.
  revert st. induction event_data as [|ed rest IH]; intros st; simpl.
  { exists (fst st), (snd st). destruct st. auto. }
  unfold simulate_event.
  destruct (place_loop_ok (length ed) ed 1 (fst st) (snd st))
    as (d1 & s1 & Hrun & Hkeep & Hnew).
  rewrite Hrun. simpl.
  destruct (IH (d1, s1)) as (d2 & s2 & Hrun2 & Hkeep2 & Hnew2).
  exists d2, s2. split; [exact Hrun2|]. simpl in *. split.
  - auto.
  - intros k Hk. apply Hnew2 in Hk as [Hk|(ed' & Hed & Hk)].
    + apply Hnew in Hk as [Hk|Hk]; eauto.
    + eauto.
Qed.

Lemma dict_set_values (V : Type) (d : dict V) (k : string) (w v : V) :
  In v (dict_values (dict_set d k w)) -> v = w \/ In v (dict_values d).
Proof.
  induction d as [|[k0 v0] d IH]; simpl.
  - intros [H|[]]; auto.
  - destruct (String.eqb k k0); simpl; intros [H|H]; auto.
    destruct (IH H); auto.
Qed.

Lemma dict_get_default_nonneg (d : dict Q) (k : string) :
  nonneg_values d -> 0 <= dict_get_default d k 0.
Proof.
  intros Hnn. unfold dict_get_default.
  destruct (dict_get d k) as [v|] eqn:E; [|lra].
  apply Hnn. apply dict_get_some_in in E.
  unfold dict_values. change v with (snd (k, v)). now apply in_map.
Qed.

Lemma dict_add_Q_nonneg (d : dict Q) (k : string) (v : Q) :
  0 <= v -> nonneg_values d -> nonneg_values (dict_add_Q d k v).
Proof.
  intros Hv Hnn x Hx. unfold dict_add_Q in Hx.
  apply dict_set_values in Hx as [-> |Hx]; [|auto].
  pose proof (dict_get_default_nonneg k Hnn). lra.
Qed.

Lemma inject_nat_succ (n : nat) :
  inject_Z (Z.of_nat (S n)) == inject_Z (Z.of_nat n) + 1.
Proof.
  rewrite Nat2Z.inj_succ, <- Z.add_1_r, inject_Z_plus. reflexivity.
Qed.

(** Crediting the leaders: each one receives the same share. *)
Lemma credit_leaders_ok (leaders todo : list string) (wc : dict Q) :
  leaders <> [] \/ todo = [] ->
  exists wc',
    credit_leaders leaders todo wc = Ok wc' /\
    sum_Q (dict_values wc')
    == sum_Q (dict_values wc)
       + inject_Z (Z.of_nat (length todo))
         * (1 / inject_Z (Z.of_nat (length leaders))) /\
    (nonneg_values wc -> nonneg_values wc') /\
    (NoDup (dict_keys wc) -> NoDup (dict_keys wc')) /\
    (forall k, In k (dict_keys wc') -> In k (dict_keys wc) \/ In k todo).
Proof.
  intros Hne. revert wc.
  induction todo as [|t rest IH]; intros wc; cbn [credit_leaders].
  { exists wc. split; [reflexivity|]. split; [|auto].
    setoid_replace (inject_Z (Z.of_nat (length (@nil string)))) with 0
      by reflexivity.
    rewrite Qmult_0_l. lra. }
  destruct Hne as [Hne|Hne]; [|discriminate].
  set (len := inject_Z (Z.of_nat (length leaders))).
  assert (0 < len) as Hlen.
  { apply inject_nat_pos. destruct leaders; [congruence|simpl; lia]. }
  rewrite py_div_ok by lra. cbn [bind].
  assert (0 < 1 / len) as Hshare.
  { unfold Qdiv. rewrite Qmult_1_l. now apply Qinv_lt_0_compat. }
  destruct (IH (or_introl Hne) (dict_add_Q wc t (1 / len)))
    as (wc' & Hrun & Hsum & Hnn & Hnd & Hkeys).
  exists wc'. split; [exact Hrun|]. split; [|split; [|split]].
  - rewrite Hsum, dict_add_Q_sum.
    change (Datatypes.length (t :: rest)) with (S (length rest)).
    rewrite inject_nat_succ. fold len. lra.
  - intros H. apply Hnn, dict_add_Q_nonneg; [lra|auto].
  - intros H. apply Hnd. unfold dict_add_Q. now apply dict_set_nodup.
  - intros k Hk. apply Hkeys in Hk as [Hk|Hk]; [|right; now right].
    unfold dict_add_Q in Hk.
    apply dict_set_keys in Hk as [Hk| ->]; [now left|right; now left].
Qed.

Lemma init_scores_keys (f : string -> Z) (teams : list string) (d : dict Z)
      (k : string) :
  In k (dict_keys (fold_left (fun d t => dict_set d t (f t)) teams d))
  <-> In k (dict_keys d) \/ In k teams.
Proof.
  revert d. induction teams as [|t teams IH]; intros d; simpl; [tauto|].
  rewrite IH. split.
  - intros [H|H]; [|auto]. apply dict_set_keys in H as [H| ->]; auto.
  - intros [H|[<- |H]]; auto.
    + left. now apply dict_set_keeps_key.
    + left. apply dict_set_has_key.
Qed.

Lemma filter_keys_in (V : Type) (p : string * V -> bool) (d : dict V) (k : string) :
  In k (dict_keys (filter p d)) -> In k (dict_keys d).
Proof.
  unfold dict_keys. rewrite !in_map_iff.
  intros (kv & Hk & Hin). apply filter_In in Hin as [Hin _]. eauto.
Qed.

(** One trial ends without a fault and hands out one unit of credit. *)
Lemma run_trial_ok (actual : dict TeamScore.t) (all_teams : list string)
      (event_data : list (list (EventEntry.t * Q))) (st : nat * dict Q) :
  (forall ed k, In ed event_data -> In k (teams_of ed) -> In k all_teams) ->
  exists draws' wc',
    run_trial table random_draws actual all_teams event_data st
    = Ok (draws', wc') /\
    (all_teams <> [] ->
     sum_Q (dict_values wc') == sum_Q (dict_values (snd st)) + 1) /\
    (nonneg_values (snd st) -> nonneg_values wc') /\
    (NoDup (dict_keys (snd st)) -> NoDup (dict_keys wc')) /\
    (forall k, In k (dict_keys wc') ->
               In k (dict_keys (snd st)) \/ In k all_teams).
Proof.
  intros Hteams. unfold run_trial.
  set (init := fold_left (fun d t => dict_set d t (actual_points_of actual t))
                         all_teams []).
  destruct (simulate_events_ok event_data (fst st, init))
    as (d1 & s1 & Hrun & Hkeep & Hnew).
  rewrite Hrun. simpl in *.
  assert (forall k, In k (dict_keys s1) -> In k all_teams) as Hs1.
  { intros k Hk. apply Hnew in Hk as [Hk|(ed & Hed & Hk)]; [|eauto].
    apply init_scores_keys in Hk as [[]|Hk]. exact Hk. }
  destruct s1 as [|kv s1'] eqn:Es1.
  - simpl. exists d1, (snd st). split; [reflexivity|]. split; [|auto].
    intros Hne. exfalso. destruct all_teams as [|t ts]; [congruence|].
    apply (Hkeep t). apply init_scores_keys. right. now left.
  - rewrite <- Es1 in *.
    destruct (@py_max_spec (dict_values s1)) as (mx & Hmax & Hmem & _).
    { rewrite Es1. discriminate. }
    rewrite Hmax. cbn [bind].
    set (leaders := dict_keys (filter (fun kv => (snd kv =? mx)%Z) s1)).
    assert (leaders <> []) as Hlead.
    { unfold dict_values in Hmem. apply in_map_iff in Hmem as ([k v] & Hv & Hin).
      simpl in Hv. subst v.
      assert (In k leaders) as Hk.
      { unfold leaders, dict_keys. apply in_map_iff. exists (k, mx).
        split; [reflexivity|]. apply filter_In. split; [auto|]. simpl. lia. }
      intros E. rewrite E in Hk. destruct Hk. }
    destruct (@credit_leaders_ok leaders leaders (snd st) (or_introl Hlead))
      as (wc' & Hcred & Hsum & Hnn & Hnd & Hkeys).
    rewrite Hcred. simpl. exists d1, wc'. split; [reflexivity|].
    split; [|split; [|split]]; auto.
    + intros _. rewrite Hsum.
      assert (0 < inject_Z (Z.of_nat (length leaders))).
      { apply inject_nat_pos. destruct leaders; [congruence|simpl; lia]. }
      field. lra.
    + intros k Hk. apply Hkeys in Hk as [Hk|Hk]; [auto|].
      right. apply Hs1. eapply filter_keys_in, Hk.
Qed.

Lemma run_trials_ok (n : nat) (actual : dict TeamScore.t)
      (all_teams : list string)
      (event_data : list (list (EventEntry.t * Q))) (st : nat * dict Q) :
  (forall ed k, In ed event_data -> In k (teams_of ed) -> In k all_teams) ->
  exists draws' wc',
    run_trials table random_draws n actual all_teams event_data st
    = Ok (draws', wc') /\
    (all_teams <> [] ->
     sum_Q (dict_values wc')
     == sum_Q (dict_values (snd st)) + inject_Z (Z.of_nat n)) /\
    (nonneg_values (snd st) -> nonneg_values wc') /\
    (NoDup (dict_keys (snd st)) -> NoDup (dict_keys wc')) /\
    (forall k, In k (dict_keys wc') ->
               In k (dict_keys (snd st)) \/ In k all_teams).
Proof.
  intros Hteams. revert st.
  induction n as [|n IH]; intros st.
  { exists (fst st), (snd st). destruct st as [d wc]. cbn [run_trials fst snd].
    split; [reflexivity|]. split; [|auto]. intros _.
    setoid_replace (inject_Z (Z.of_nat 0)) with 0 by reflexivity. lra. }
  cbn [run_trials].
  destruct (@run_trial_ok actual all_teams event_data st Hteams)
    as (d1 & wc1 & Hrun & Hsum & Hnn & Hnd & Hkeys).
  rewrite Hrun. cbn [bind].
  destruct (IH (d1, wc1)) as (d2 & wc2 & Hrun2 & Hsum2 & Hnn2 & Hnd2 & Hkeys2).
  exists d2, wc2. cbn [fst snd] in *. split; [exact Hrun2|].
  split; [|split; [|split]]; auto.
  - intros Hne. rewrite (Hsum2 Hne), (Hsum Hne), inject_nat_succ. lra.
  - intros k Hk. apply Hkeys2 in Hk as [Hk|Hk]; auto.
Qed.

(** The final normalisation never divides by zero. *)
Lemma normalise_credit_ok (teams : list string) (wc : dict Q) :
  nonneg_values wc ->
  normalise_credit teams wc (sum_Q (dict_values wc))
  = Ok (map (fun t => (t, dict_get_default wc t 0 / sum_Q (dict_values wc)))
            (filter (fun t => Qltb 0 (dict_get_default wc t 0)) teams)).
Proof.
  intros Hnn. induction teams as [|t teams IH]; simpl; [reflexivity|].
  destruct (Qltb 0 (dict_get_default wc t 0)) eqn:E; [|exact IH].
  apply Qltb_true in E.
  assert (dict_get_default wc t 0 <= sum_Q (dict_values wc)) as Hle.
  { unfold dict_get_default in *.
    destruct (dict_get wc t) as [v|] eqn:Eg; [|lra].
    apply sum_Q_ge_member; [exact Hnn|].
    apply dict_get_some_in in Eg. unfold dict_values.
    change v with (snd (t, v)). now apply in_map. }
  rewrite py_div_ok by lra. simpl. rewrite IH. reflexivity.
Qed.

Lemma map_result_ok (A B : Type) (f : A -> result B) (P : A -> B -> Prop)
      (l : list A) :
  (forall x, In x l -> exists y, f x = Ok y /\ P x y) ->
  exists ys, map_result f l = Ok ys /\ Forall2 P l ys.
Proof.
  induction l as [|x l IH]; intros H; simpl.
  - exists []. split; [reflexivity|constructor].
  - destruct (H x (or_introl eq_refl)) as (y & Hy & HP).
    destruct IH as (ys & Hys & HF); [intros z Hz; apply H; now right|].
    exists (y :: ys). rewrite Hy, Hys. split; [reflexivity|now constructor].
Qed.


Lemma set_add_nodup (s : list string) (k : string) :
  NoDup s -> NoDup (set_add s k).
Proof.
  intros Hnd. unfold set_add. destruct (set_mem s k) eqn:E; [auto|].
  apply NoDup_app; [auto|constructor; [intros []|constructor]|].
  intros x Hx [<- |[]].
  apply set_mem_true in Hx. congruence.
Qed.

Lemma fold_set_add_in (A : Type) (f : A -> string) (l : list A)
      (acc : list string) (k : string) :
  In k (fold_left (fun a x => set_add a (f x)) l acc)
  <-> In k acc \/ In k (map f l).
Proof.
  revert acc. induction l as [|x l IH]; intros acc; simpl; [tauto|].
  rewrite IH. split.
  - intros [H|H]; [|auto]. apply set_add_inv in H as [H| ->]; auto.
  - intros [H|[<- |H]]; auto.
    + left. now apply set_add_keeps.
    + left. apply set_add_in.
Qed.

Lemma fold_set_add_nodup (A : Type) (f : A -> string) (l : list A)
      (acc : list string) :
  NoDup acc -> NoDup (fold_left (fun a x => set_add a (f x)) l acc).
Proof.
  revert acc. induction l as [|x l IH]; intros acc H; simpl; [auto|].
  apply IH. now apply set_add_nodup.
Qed.

Lemma simulation_teams_in (actual : dict TeamScore.t)
      (event_data : list (list (EventEntry.t * Q))) (k : string) :
  In k (simulation_teams actual event_data)
  <-> In k (dict_keys actual) \/ exists ed, In ed event_data /\ In k (teams_of ed).
Proof.
  unfold simulation_teams.
  assert (forall acc,
             In k (fold_left
                     (fun acc ed =>
                        fold_left (fun acc' ep => set_add acc' (entry_team (fst ep)))
                                  ed acc) event_data acc)
             <-> In k acc \/ exists ed, In ed event_data /\ In k (teams_of ed)) as H.
  { induction event_data as [|ed rest IH]; intros acc; simpl.
    - split; [auto|]. intros [H|(ed & [] & _)]. exact H.
    - rewrite IH, (fold_set_add_in (fun ep : EventEntry.t * Q => entry_team (fst ep))).
      split.
      + intros [[H|H]|(ed' & Hed & Hk)]; eauto.
      + intros [H|(ed' & [<- |Hed] & Hk)]; eauto. }
  rewrite H.
  rewrite (fold_set_add_in (fun x : string => x)), map_id. simpl. tauto.
Qed.

Lemma simulation_teams_nodup (actual : dict TeamScore.t)
      (event_data : list (list (EventEntry.t * Q))) :
  NoDup (simulation_teams actual event_data).
Proof.
  unfold simulation_teams.
  assert (NoDup (fold_left set_add (dict_keys actual) [])) as H0.
  { apply (fold_set_add_nodup (fun x : string => x)). constructor. }
  revert H0. generalize (fold_left set_add (dict_keys actual) []).
  induction event_data as [|ed rest IH]; intros acc Hacc; simpl; [auto|].
  apply IH.
  now apply (fold_set_add_nodup (fun ep : EventEntry.t * Q => entry_team (fst ep))).
Qed.






(** Credit summed over the teams is the credit summed over the keys. *)
Lemma sum_pick_absent (f : string -> Q) (k : string) (v : Q) (teams : list string) :
  ~ In k teams ->
  sum_Q (map (fun t => if String.eqb t k then v else f t) teams)
  == sum_Q (map f teams).
Proof.
  induction teams as [|t teams IH]; intros Hk; simpl; [reflexivity|].
  destruct (String.eqb_spec t k) as [->|Hne]; [exfalso; apply Hk; now left|].
  rewrite IH; [reflexivity|]. intros H. apply Hk. now right.
Qed.

Lemma sum_pick_present (f : string -> Q) (k : string) (v : Q) (teams : list string) :
  NoDup teams -> In k teams -> f k == 0 ->
  sum_Q (map (fun t => if String.eqb t k then v else f t) teams)
  == v + sum_Q (map f teams).
Proof.
  induction teams as [|t teams IH]; intros Hnd Hin Hf; simpl; [destruct Hin|].
  inversion Hnd as [|? ? Ht Hnd']; subst.
  destruct (String.eqb_spec t k) as [->|Hne].
  - rewrite sum_pick_absent by exact Ht. rewrite Hf. lra.
  - destruct Hin as [Hin|Hin]; [congruence|].
    rewrite IH by auto. lra.
Qed.

Lemma Qeq_refl_map (A : Type) (f g : A -> Q) (l : list A) :
  (forall x, f x = g x) -> sum_Q (map f l) == sum_Q (map g l).
Proof.
  intros H. induction l as [|x l IH]; simpl; [reflexivity|].
  rewrite H, IH. reflexivity.
Qed.

Lemma sum_zero (A : Type) (l : list A) : sum_Q (map (fun _ => 0) l) == 0.
Proof. induction l as [|x l IH]; simpl; [reflexivity|]. rewrite IH. lra. Qed.

Lemma credit_reindex (teams : list string) (wc : dict Q) :
  NoDup teams -> NoDup (dict_keys wc) ->
  (forall k, In k (dict_keys wc) -> In k teams) ->
  sum_Q (map (fun t => dict_get_default wc t 0) teams) == sum_Q (dict_values wc).
Proof.
  intros Hteams. induction wc as [|[k v] wc IH]; intros Hnd Hsub.
  - simpl. apply sum_zero.
  - simpl in *. inversion Hnd as [|? ? Hk Hnd']; subst.
    rewrite <- IH by auto.
    rewrite <- (@sum_pick_present (fun t => dict_get_default wc t 0) k v teams);
      auto.
    + unfold dict_get_default. simpl.
      apply Qeq_refl_map. intros t. now destruct (String.eqb t k).
    + unfold dict_get_default.
      apply dict_get_none_key in Hk. rewrite Hk. reflexivity.
Qed.

Lemma combine_fst (A B : Type) (l1 : list A) (l2 : list B) :
  length l1 = length l2 -> map fst (combine l1 l2) = l1.
Proof.
  revert l2. induction l1 as [|a l1 IH]; intros [|b l2] H; simpl in *;
    try discriminate; [reflexivity|].
  f_equal. apply IH. lia.
Qed.

Lemma Forall2_in_left (A B : Type) (P : A -> B -> Prop) (l : list A)
      (l' : list B) (x : A) :
  Forall2 P l l' -> In x l -> exists y, In y l' /\ P x y.
Proof.
  induction 1 as [|a b l l' Hab HF IH]; simpl; [tauto|].
  intros [<- |Hin]; [eauto|].
  destruct (IH Hin) as (y & Hy & HP). eauto.
Qed.

Lemma Forall2_in_right (A B : Type) (P : A -> B -> Prop) (l : list A)
      (l' : list B) (y : B) :
  Forall2 P l l' -> In y l' -> exists x, In x l /\ P x y.
Proof.
  induction 1 as [|a b l l' Hab HF IH]; simpl; [tauto|].
  intros [<- |Hy]; [eauto|].
  destruct (IH Hy) as (x & Hx & Hp). eauto.
Qed.

Lemma dict_get_tabulate (V : Type) (g : string -> V) (l : list string) (t : string) :
  dict_get (map (fun t => (t, g t)) l) t = if set_mem l t then Some (g t) else None.
Proof.
  unfold set_mem. induction l as [|x l IH]; simpl; [reflexivity|].
  destruct (String.eqb_spec t x) as [->|Hne]; simpl; auto.
Qed.

Lemma sum_scaled (A : Type) (c : A -> Q) (d : Q) (l : list A) :
  sum_Q (map (fun t => c t / d) l) == sum_Q (map c l) / d.
Proof.
  unfold Qdiv. induction l as [|x l IH]; simpl; [ring|]. rewrite IH. ring.
Qed.

Lemma sum_positive_part (c : string -> Q) (l : list string) :
  (forall t, 0 <= c t) ->
  sum_Q (map c (filter (fun t => Qltb 0 (c t)) l)) == sum_Q (map c l).
Proof.
  intros Hnn. induction l as [|x l IH]; simpl; [reflexivity|].
  destruct (Qltb 0 (c x)) eqn:E; simpl; rewrite IH; [reflexivity|].
  assert (~ 0 < c x) as Hx by (rewrite <- Qltb_true; congruence).
  specialize (Hnn x). lra.
Qed.

(** The teams of the data of an event are the teams of its ranked entries. *)
Lemma event_data_ok (events : list MeetEvent.t) :
  exists event_data,
    map_result event_probs events = Ok event_data /\
    Forall2 (fun e ed => map fst ed = map snd (_rank_entries_by_seed e))
            events event_data.
Proof.
  apply map_result_ok. intros e _.
  destruct (event_probs_ok e) as (probs & Hp & Hlen & _).
  eexists. split; [exact Hp|].
  apply combine_fst. rewrite length_map. auto.
Qed.

Lemma known_team_simulated (actual : dict TeamScore.t) (state : MeetState.t)
      (gender : Gender.t) (event_data : list (list (EventEntry.t * Q))) :
  some_team_known get_upcoming_finals actual state gender ->
  Forall2 (fun e ed => map fst ed = map snd (_rank_entries_by_seed e))
          (upcoming_with_entries get_upcoming_finals state gender) event_data ->
  simulation_teams actual event_data <> [].
Proof.
  intros Hknown HF.
  assert (exists k, In k (simulation_teams actual event_data)) as (k & Hk).
  { destruct Hknown as [Hact|(event & entry & Hev & Hen & Hname)].
    - destruct actual as [|[k v] rest]; [congruence|].
      exists k. apply simulation_teams_in. left. now left.
    - assert (In event (upcoming_with_entries get_upcoming_finals state gender))
        as Hup.
      { unfold upcoming_with_entries. apply filter_In. split; [auto|].
        destruct (MeetEvent.entries event); [destruct Hen|reflexivity]. }
      destruct (Forall2_in_left event HF Hup) as (ed & Hed & Hfst).
      exists (entry_team entry). apply simulation_teams_in. right.
      exists ed. split; [auto|].
      unfold teams_of. rewrite <- (map_map fst entry_team), Hfst.
      apply in_map.
      eapply Permutation_in;
        [apply Permutation_sym, ranked_entries_perm|].
      apply filter_In. auto. }
  intros E. rewrite E in Hk. destruct Hk.
Qed.

(** C5, as amended. With at least one iteration and an upcoming final with
    entrants, the simulator returns a map whose keys are exactly the teams
    with nonzero accumulated credit, each with its credit divided by the
    total credit.  When some team is known the probabilities sum to 1; when
    no team is known the result is the empty map. *)
Theorem win_probabilities_sum_to_one
        (actual : dict TeamScore.t) (state : MeetState.t) (gender : Gender.t)
        (n_iterations : Z) :
  (1 <= n_iterations)%Z ->
  upcoming_with_entries get_upcoming_finals state gender <> [] ->
  exists event_data draws win_counts m,
    map_result event_probs (upcoming_with_entries get_upcoming_finals state gender)
    = Ok event_data /\
    run_trials table random_draws (Z.to_nat n_iterations) actual
               (simulation_teams actual event_data) event_data (O, [])
    = Ok (draws, win_counts) /\
    compute_win_probability table get_upcoming_finals random_draws
                            actual state gender n_iterations = Ok m /\
    (forall t, dict_mem m t = true <-> ~ dict_get_default win_counts t 0 == 0) /\
    (forall t v, dict_get m t = Some v ->
                 v = dict_get_default win_counts t 0
                     / sum_Q (dict_values win_counts)) /\
    (some_team_known get_upcoming_finals actual state gender ->
     sum_Q (dict_values m) == 1) /\
    (~ some_team_known get_upcoming_finals actual state gender -> m = []).
Proof.
  intros Hn Hup.
  destruct (event_data_ok (upcoming_with_entries get_upcoming_finals state gender))
    as (event_data & Hed & HF).
  set (teams := simulation_teams actual event_data).
  destruct (@run_trials_ok (Z.to_nat n_iterations) actual teams event_data (O, []))
    as (d & wc & Hrun & Hsum & Hnn & Hnd & Hkeys).
  { intros ed k Hed' Hk. apply simulation_teams_in. eauto. }
  cbn [snd] in *.
  assert (nonneg_values wc) as Hnn' by (apply Hnn; intros v []).
  assert (NoDup (dict_keys wc)) as Hnd' by (apply Hnd; constructor).
  assert (forall k, In k (dict_keys wc) -> In k teams) as Hsub.
  { intros k Hk. apply Hkeys in Hk as [[]|Hk]. exact Hk. }
  exists event_data, d, wc.
  eexists. split; [exact Hed|]. split; [exact Hrun|].
  split; [|split; [|split; [|split]]].
  - unfold compute_win_probability.
    destruct (upcoming_with_entries get_upcoming_finals state gender) eqn:E;
      [congruence|].
    rewrite Hed. cbn [bind]. fold teams. rewrite Hrun. cbn [bind snd].
    apply normalise_credit_ok, Hnn'.
  - intros t. unfold dict_mem. rewrite dict_get_tabulate.
    pose proof (dict_get_default_nonneg t Hnn') as Ht.
    destruct (set_mem _ t) eqn:E.
    + apply set_mem_true, filter_In in E as [_ E]. apply Qltb_true in E.
      split; [intros _; lra|reflexivity].
    + split; [discriminate|]. intros Hne. exfalso.
      assert (0 < dict_get_default wc t 0) as Hlt by lra.
      assert (In t teams) as Hin.
      { apply Hsub. unfold dict_get_default in Hlt.
        destruct (dict_get wc t) eqn:Eg; [|lra].
        destruct (in_dec string_dec t (dict_keys wc)) as [H|H]; [auto|].
        apply dict_get_none_key in H. congruence. }
      assert (set_mem (filter (fun t => Qltb 0 (dict_get_default wc t 0)) teams) t
              = true) as Hmem.
      { apply set_mem_true, filter_In. split; [auto|now apply Qltb_true]. }
      congruence.
  - intros t v Hv. rewrite dict_get_tabulate in Hv.
    destruct (set_mem _ t); congruence.
  - intros Hknown.
    assert (sum_Q (dict_values wc) == inject_Z n_iterations) as Htotal.
    { rewrite Hsum by (eapply known_team_simulated; eauto).
      simpl. rewrite Z2Nat.id by lia. lra. }
    assert (0 < sum_Q (dict_values wc)) as Hpos.
    { rewrite Htotal. change 0 with (inject_Z 0). rewrite <- Zlt_Qlt. lia. }
    unfold dict_values. rewrite map_map. cbn [snd].
    rewrite <- (map_map (fun t => dict_get_default wc t 0 / sum_Q (map snd wc))
                        (fun x => x)), map_id.
    rewrite (@sum_scaled string), sum_positive_part, credit_reindex; auto.
    + unfold dict_values. field. unfold dict_values in Hpos. lra.
    + apply simulation_teams_nodup.
    + intros t. now apply dict_get_default_nonneg.
  - intros Hnone.
    assert (simulation_teams actual event_data = []) as E.
    { destruct (simulation_teams actual event_data) as [|k ks] eqn:E;
        [reflexivity|exfalso].
      assert (In k (simulation_teams actual event_data)) as Hk
          by (rewrite E; now left).
      apply Hnone.
      apply simulation_teams_in in Hk as [Hk|(ed & Hed' & Hk)].
      - left. intros ->. destruct Hk.
      - right.
        destruct (@Forall2_in_right _ _ _ _ _ ed HF Hed') as (e & He & Hfst).
        unfold teams_of in Hk. rewrite <- (map_map fst entry_team), Hfst in Hk.
        apply in_map_iff in Hk as (entry & _ & Hentry).
        apply (Permutation_in _ (ranked_entries_perm e)), filter_In in Hentry
          as [Hentry Hnamed].
        apply filter_In in He as [He _].
        exists e, entry. auto. }
    unfold teams. rewrite E. reflexivity.
Qed.

End SimulatorProperties.

(** C5, as stated, fails when no team is known: for the placeholder final
    and an empty actual-scores map, one iteration returns the empty map,
    whose probabilities sum to 0. *)
Lemma placeholder_final_gives_empty_map :
  (1 <= 1)%Z /\
  upcoming_with_entries spec_get_upcoming_finals placeholder_meet Gender.MEN <> [] /\
  forall random_draws,
    compute_win_probability standard_place_points spec_get_upcoming_finals
                            random_draws [] placeholder_meet Gender.MEN 1
    = Ok [] /\
    ~ sum_Q (dict_values (@nil (string * Q))) == 1.
Proof.
  split; [lia|]. split; [discriminate|].
  intros rd. split; [reflexivity|]. discriminate.
Qed.

(** *** Scenario builder *)

Lemma rank_map_get_set (m : list (nat * Z)) (k k' : nat) (v d : Z) :
  rank_map_get (rank_map_set m k v) k' d =
  if Nat.eqb k' k then v else rank_map_get m k' d.
Proof.
  induction m as [|[k0 v0] m IH]; simpl.
  - reflexivity.
  - destruct (Nat.eqb_spec k k0) as [->|Hk]; simpl.
    + destruct (Nat.eqb k' k0); reflexivity.
    + rewrite IH. destruct (Nat.eqb_spec k' k) as [->|Hk'].
      * destruct (Nat.eqb_spec k k0); [contradiction|reflexivity].
      * reflexivity.
Qed.

Lemma index_of_none (k : nat) (l : list nat) :
  index_of k l = None <-> ~ In k l.
Proof.
  induction l as [|x l IH]; simpl; [tauto|].
  destruct (Nat.eqb_spec k x) as [->|Hne].
  - split; [discriminate|]. intros H. exfalso. apply H. now left.
  - destruct (index_of k l).
    + split; [discriminate|]. intros H. exfalso.
      assert (~ In k l) as H' by (intros Hin; apply H; now right).
      apply IH in H'. discriminate.
    + split; [|reflexivity]. intros _ [E|Hin]; [congruence|].
      now apply (proj1 IH).
Qed.

Lemma index_of_nth (A : Type) (l : list (nat * A)) (j : nat) (ie : nat * A) :
  NoDup (map fst l) -> nth_error l j = Some ie ->
  index_of (fst ie) (map fst l) = Some j.
Proof.
  revert j. induction l as [|x l IH]; intros j Hnd Hn; [destruct j; discriminate|].
  inversion Hnd as [|? ? Hx Hnd']; subst. simpl.
  destruct j as [|j]; simpl in Hn.
  - injection Hn as ->. now rewrite Nat.eqb_refl.
  - destruct (Nat.eqb_spec (fst ie) (fst x)) as [E|Hne].
    + exfalso. apply Hx. rewrite <- E. apply in_map. eapply nth_error_In, Hn.
    + now rewrite (IH j Hnd' Hn).
Qed.

Lemma build_rank_map_get (ranked : list (nat * EventEntry.t)) (i : Z)
      (m : list (nat * Z)) (k : nat) (d : Z) :
  NoDup (map fst ranked) ->
  rank_map_get (build_rank_map ranked i m) k d =
  match index_of k (map fst ranked) with
  | Some j => (i + Z.of_nat j + 1)%Z
  | None => rank_map_get m k d
  end.
Proof.
  revert i m. induction ranked as [|e ranked IH]; intros i m Hnd; simpl.
  - reflexivity.
  - inversion Hnd as [|? ? He Hnd']; subst.
    rewrite IH by exact Hnd'.
    destruct (Nat.eqb_spec k (fst e)) as [->|Hne].
    + apply index_of_none in He. rewrite He.
      rewrite rank_map_get_set, Nat.eqb_refl. lia.
    + destruct (index_of k (map fst ranked)) as [j|]; [lia|].
      rewrite rank_map_get_set.
      destruct (Nat.eqb_spec k (fst e)); [contradiction|reflexivity].
Qed.

Lemma nodup_fst_filter (A : Type) (p : nat * A -> bool) (l : list (nat * A)) :
  NoDup (map fst l) -> NoDup (map fst (filter p l)).
Proof.
  induction l as [|x l IH]; simpl; intros Hnd; [constructor|].
  inversion Hnd as [|? ? Hx Hnd']; subst.
  destruct (p x); simpl; [|auto].
  constructor; [|auto].
  intros Hin. apply Hx. apply in_map_iff in Hin as (y & Hy & Hin).
  apply filter_In in Hin as [Hin _]. rewrite <- Hy. now apply in_map.
Qed.

Lemma indexed_entries_nodup (event : MeetEvent.t) :
  NoDup (map fst (indexed_entries event)).
Proof.
  unfold indexed_entries. rewrite combine_fst by apply length_seq.
  apply seq_NoDup.
Qed.

Lemma ranked_perm_indexed (event : MeetEvent.t) :
  Permutation (_rank_entries_by_seed event)
              (filter (fun ie => entry_named (snd ie)) (indexed_entries event)).
Proof. apply sorted_perm. Qed.

Lemma ranked_nodup (event : MeetEvent.t) :
  NoDup (map fst (_rank_entries_by_seed event)).
Proof.
  eapply Permutation_NoDup.
  - apply Permutation_sym, Permutation_map, ranked_perm_indexed.
  - apply nodup_fst_filter, indexed_entries_nodup.
Qed.

Lemma nodup_fst_injective (A : Type) (l : list (nat * A)) (x y : nat * A) :
  NoDup (map fst l) -> In x l -> In y l -> fst x = fst y -> x = y.
Proof.
  induction l as [|z l IH]; simpl; intros Hnd Hx Hy E; [destruct Hx|].
  inversion Hnd as [|? ? Hz Hnd']; subst.
  destruct Hx as [->|Hx], Hy as [->|Hy]; auto.
  - exfalso. apply Hz. rewrite E. now apply in_map.
  - exfalso. apply Hz. rewrite <- E. now apply in_map.
Qed.

Lemma sum_Z_app (l1 l2 : list Z) : sum_Z (l1 ++ l2) = (sum_Z l1 + sum_Z l2)%Z.
Proof. induction l1 as [|x l1 IH]; simpl; lia. Qed.

Lemma sum_Z_perm (l1 l2 : list Z) : Permutation l1 l2 -> sum_Z l1 = sum_Z l2.
Proof. induction 1; simpl; lia. Qed.

Lemma sum_Z_nonneg (l : list Z) :
  (forall x, In x l -> (0 <= x)%Z) -> (0 <= sum_Z l)%Z.
Proof.
  induction l as [|x l IH]; simpl; intros H; [lia|].
  assert (0 <= x)%Z by (apply H; now left).
  assert (0 <= sum_Z l)%Z by (apply IH; intros y Hy; apply H; now right).
  lia.
Qed.

Lemma sum_Z_split (A : Type) (p : A -> bool) (f : A -> Z) (l : list A) :
  sum_Z (map f l)
  = (sum_Z (map f (filter p l)) + sum_Z (map f (filter (fun x => negb (p x)) l)))%Z.
Proof.
  induction l as [|x l IH]; simpl; [reflexivity|].
  destruct (p x); simpl; lia.
Qed.

Lemma sum_Z_zero (A : Type) (f : A -> Z) (l : list A) :
  (forall x, In x l -> f x = 0%Z) -> sum_Z (map f l) = 0%Z.
Proof.
  induction l as [|x l IH]; simpl; intros H; [reflexivity|].
  rewrite (H x) by now left. rewrite IH; [reflexivity|].
  intros y Hy. apply H. now right.
Qed.

Lemma filter_comm (A : Type) (p q : A -> bool) (l : list A) :
  filter p (filter q l) = filter q (filter p l).
Proof.
  induction l as [|x l IH]; simpl; [reflexivity|].
  destruct (p x) eqn:Ep, (q x) eqn:Eq; simpl; rewrite ?Ep, ?Eq, IH; reflexivity.
Qed.

Lemma filter_perm (A : Type) (p : A -> bool) (l1 l2 : list A) :
  Permutation l1 l2 -> Permutation (filter p l1) (filter p l2).
Proof.
  induction 1 as [|x l1 l2 H IH|x y l|l1 l2 l3 H1 IH1 H2 IH2]; simpl.
  - constructor.
  - destruct (p x); [now constructor|auto].
  - destruct (p x), (p y); try reflexivity. apply perm_swap.
  - etransitivity; eauto.
Qed.

Lemma filter_shorter (A : Type) (p : A -> bool) (l : list A) :
  (length (filter p l) <= length l)%nat.
Proof.
  induction l as [|x l IH]; simpl; [lia|]. destruct (p x); simpl; lia.
Qed.

Lemma range_cons (a b : Z) : (a < b)%Z -> range a b = a :: range (a + 1) b.
Proof.
  intros H. unfold range.
  replace (Z.to_nat (b - a)) with (S (Z.to_nat (b - (a + 1)))) by lia.
  cbn [seq map]. f_equal; [lia|].
  rewrite <- seq_shift, map_map. apply map_ext. intros i. lia.
Qed.

Lemma range_empty (a b : Z) : (b <= a)%Z -> range a b = [].
Proof.
  intros H. unfold range. replace (Z.to_nat (b - a)) with O by lia. reflexivity.
Qed.

Lemma range_bounds (a b q : Z) : In q (range a b) -> (a <= q < b)%Z.
Proof.
  unfold range. intros H. apply in_map_iff in H as (i & <- & Hi).
  apply in_seq in Hi. lia.
Qed.

Lemma range_sorted (a b : Z) : StronglySorted Z.le (range a b).
Proof.
  remember (Z.to_nat (b - a)) as n eqn:Hn. revert a Hn.
  induction n as [|n IH]; intros a Hn.
  - rewrite range_empty by lia. constructor.
  - rewrite range_cons by lia. constructor.
    + apply IH. lia.
    + apply Forall_forall. intros q Hq. apply range_bounds in Hq. lia.
Qed.

Lemma filter_sorted (p : Z -> bool) (l : list Z) :
  StronglySorted Z.le l -> StronglySorted Z.le (filter p l).
Proof.
  induction 1 as [|x l Hs IH Hall]; simpl; [constructor|].
  destruct (p x); [|exact IH].
  constructor; [exact IH|].
  rewrite Forall_forall in *. intros y Hy. apply filter_In in Hy as [Hy _]. auto.
Qed.

(** Sorting a list that is already ascending changes nothing. *)
Lemma sorted_ascending (l : list Z) :
  StronglySorted Z.le l -> sorted Z.ltb l = l.
Proof.
  induction 1 as [|x l Hs IH Hall]; simpl; [reflexivity|].
  rewrite IH. destruct l as [|y t]; [reflexivity|]. simpl.
  inversion Hall as [|? ? Hxy _]; subst.
  destruct (Z.ltb_spec y x); [lia|reflexivity].
Qed.

Lemma flagged_lower_bound (flags : list bool) (p q : Z) :
  In q (flagged_places flags p) -> (p <= q)%Z.
Proof.
  revert p. induction flags as [|f flags IH]; intros p; simpl; [tauto|].
  intros H. apply in_app_or in H as [H|H].
  - destruct f; [destruct H as [<- |[]]; lia|destruct H].
  - apply IH in H. lia.
Qed.

Lemma flagged_length (flags : list bool) (p : Z) :
  length (flagged_places flags p) = length (filter (fun f => f) flags).
Proof.
  revert p. induction flags as [|f flags IH]; intros p; simpl; [reflexivity|].
  rewrite length_app, IH. destruct f; reflexivity.
Qed.

(** Ranks of the selected entries of a list whose ranks count up from [p]. *)
Lemma ranks_of_selected (A : Type) (l : list (nat * A)) (rank : nat -> Z)
      (p : Z) (q : nat * A -> bool) :
  (forall j ie, nth_error l j = Some ie -> rank (fst ie) = (p + Z.of_nat j)%Z) ->
  map (fun ie => rank (fst ie)) (filter q l) = flagged_places (map q l) p.
Proof.
  revert p. induction l as [|x l IH]; intros p H; simpl; [reflexivity|].
  assert (rank (fst x) = p) as Hx by (rewrite (H O x eq_refl); simpl; lia).
  assert (map (fun ie => rank (fst ie)) (filter q l)
          = flagged_places (map q l) (p + 1)) as Ht.
  { apply IH. intros j ie Hj. rewrite (H (S j) ie Hj). lia. }
  destruct (q x); simpl; rewrite Ht, ?Hx; reflexivity.
Qed.

(** The free places from [p] to 8 start with the flagged places up to 8. *)
Lemma free_places_split (flags : list bool) (p : Z) :
  exists tail,
    filter (fun q => negb (Z_mem q (flagged_places (map negb flags) p)))
           (range p 9)
    = filter (fun q => (q <=? 8)%Z) (flagged_places flags p) ++ tail.
Proof.
  revert p. induction flags as [|f flags IH]; intros p.
  { simpl. eauto. }
  destruct (Z_lt_le_dec p 9) as [Hp|Hp].
  - rewrite range_cons by exact Hp. destruct (IH (p + 1)%Z) as (tail & Ht).
    assert (forall fl, Z_mem p (flagged_places fl (p + 1)) = false) as Hfresh.
    { intros fl. unfold Z_mem. destruct (existsb _ _) eqn:E; [|reflexivity].
      apply existsb_exists in E as (x & Hx & Heq).
      apply flagged_lower_bound in Hx. lia. }
    destruct f; cbn [map negb flagged_places app filter].
    + rewrite Hfresh. cbn [negb].
      replace (p <=? 8)%Z with true by lia.
      rewrite Ht. exists tail. reflexivity.
    + unfold Z_mem at 1. cbn [existsb]. rewrite Z.eqb_refl. cbn [orb negb].
      exists tail. rewrite <- Ht. apply filter_ext_in.
      intros q Hq. apply range_bounds in Hq.
      unfold Z_mem. cbn [existsb].
      replace (q =? p)%Z with false by lia. reflexivity.
  - rewrite range_empty by exact Hp. exists []. cbn [filter].
    rewrite app_nil_r. symmetry.
    assert (forall l, (forall q, In q l -> (9 <= q)%Z) ->
                      filter (fun q => (q <=? 8)%Z) l = []) as Hnone.
    { induction l as [|x l IHl]; intros H; simpl; [reflexivity|].
      replace (x <=? 8)%Z with false
        by (specialize (H x (or_introl eq_refl)); lia).
      apply IHl. intros q Hq. apply H. now right. }
    apply Hnone. intros q Hq. apply flagged_lower_bound in Hq. lia.
Qed.

Lemma skipn_nth (A : Type) (l : list A) (s : nat) (x : A) :
  nth_error l s = Some x -> skipn s l = x :: skipn (S s) l.
Proof.
  revert s. induction l as [|y l IH]; intros [|s] H; simpl in *;
    try discriminate.
  - now injection H as ->.
  - now apply IH.
Qed.

Lemma filter_flags_length (A : Type) (q : A -> bool) (l : list A) :
  length (filter (fun f : bool => f) (map q l)) = length (filter q l).
Proof.
  induction l as [|x l IH]; simpl; [reflexivity|].
  destruct (q x); simpl; now rewrite IH.
Qed.

Section ScenarioProperties.

Variable table : list (Z * Z).
Variable get_upcoming_finals : MeetState.t -> Gender.t -> list MeetEvent.t.
Hypothesis table_ok : valid_table table = true.

Lemma seeds_hold_sum (rank_map : list (nat * Z))
      (team_entries : list (nat * EventEntry.t)) :
  fst (seeds_hold table rank_map team_entries)
  = sum_Z (map (fun ie => points_or_zero table (rank_map_get rank_map (fst ie) 9))
               team_entries).
Proof.
  unfold seeds_hold.
  assert (forall l acc,
             fst (fold_left
                    (fun (acc : Z * list EntryDetail.t) (ie : nat * EventEntry.t) =>
                       ((fst acc
                         + points_or_zero table
                             (rank_map_get rank_map (fst ie) 9))%Z,
                        snd acc ++
                          [EntryDetail.mk
                             (Athlete.name (EventEntry.athlete (snd ie)))
                             (seed_mark_text (snd ie))
                             (rank_map_get rank_map (fst ie) 9)
                             (points_or_zero table
                                (rank_map_get rank_map (fst ie) 9))]))
                    l acc)
             = (fst acc
                + sum_Z (map (fun ie => points_or_zero table
                                          (rank_map_get rank_map (fst ie) 9)) l))%Z)
    as H.
  { induction l as [|x l IH]; intros acc; simpl; [lia|].
    rewrite IH. simpl. lia. }
  rewrite H. simpl. lia.
Qed.

Lemma best_case_sum (available : list Z)
      (team_entries : list (nat * EventEntry.t)) :
  best_case table available team_entries
  = sum_Z (map (points_or_zero table) (firstn (length team_entries) available)).
Proof.
  unfold best_case.
  assert (forall m s b,
             fold_left (fun b i => match nth_error available i with
                                   | Some p => (b + points_or_zero table p)%Z
                                   | None => b
                                   end) (seq s m) b
             = (b + sum_Z (map (points_or_zero table)
                               (firstn m (skipn s available))))%Z) as H.
  { induction m as [|m IH]; intros s b; simpl; [lia|].
    rewrite IH.
    destruct (nth_error available s) as [p|] eqn:E.
    - rewrite (skipn_nth _ _ E). simpl. lia.
    - apply nth_error_None in E.
      rewrite !skipn_all2 by lia. rewrite !firstn_nil. simpl. lia. }
  rewrite H. simpl. lia.
Qed.

(** In one event the seeds-hold points of a team lie between 0 and its
    best-case points. *)
Lemma event_scenarios_ordered (team : string) (event : MeetEvent.t) :
  let team_entries := filter (on_team team) (indexed_entries event) in
  let ranked := _rank_entries_by_seed event in
  let rank_map := build_rank_map ranked 0%Z [] in
  let a_pts := fst (seeds_hold table rank_map team_entries) in
  let b_pts := best_case table
                         (available_places (occupied_places team rank_map ranked))
                         team_entries in
  (0 <= a_pts <= b_pts)%Z.
Proof.
  intros team_entries ranked rank_map a_pts b_pts.
  set (P := points_or_zero table).
  set (rank := fun k => rank_map_get rank_map k 9%Z).
  set (named := fun ie : nat * EventEntry.t => entry_named (snd ie)).
  set (flags := map (on_team team) ranked).
  assert (forall j ie, nth_error ranked j = Some ie ->
                       rank (fst ie) = (1 + Z.of_nat j)%Z) as Hrank.
  { intros j ie Hj. unfold rank, rank_map.
    rewrite build_rank_map_get by apply ranked_nodup.
    rewrite (@index_of_nth _ ranked j ie (ranked_nodup event) Hj). lia. }
  assert (forall ie, In ie (indexed_entries event) -> named ie = false ->
                     P (rank (fst ie)) = 0%Z) as Hunnamed.
  { intros ie Hin Hn. unfold rank, rank_map.
    rewrite build_rank_map_get by apply ranked_nodup.
    destruct (index_of (fst ie) (map fst ranked)) eqn:E.
    - exfalso.
      assert (In (fst ie) (map fst ranked)) as Hid.
      { destruct (in_dec Nat.eq_dec (fst ie) (map fst ranked)) as [H|H]; [auto|].
        apply index_of_none in H. congruence. }
      apply in_map_iff in Hid as (ie' & Hfst & Hin').
      apply (Permutation_in _ (ranked_perm_indexed event)) in Hin'.
      apply filter_In in Hin' as [Hin' Hnamed'].
      assert (ie' = ie) as ->
          by (eapply nodup_fst_injective;
              eauto using indexed_entries_nodup).
      unfold named in Hn. congruence.
    - simpl. apply points_or_zero_outside; [exact table_ok|lia]. }
  set (own := flagged_places flags 1).
  set (own8 := filter (fun q => (q <=? 8)%Z) own).
  assert (Permutation (filter (on_team team) ranked)
                      (filter named team_entries)) as Hperm.
  { unfold team_entries. rewrite filter_comm.
    apply filter_perm, ranked_perm_indexed. }
  assert (a_pts = sum_Z (map P own8)) as Ha.
  { unfold a_pts. rewrite seeds_hold_sum.
    change (sum_Z (map (fun ie => P (rank (fst ie))) team_entries)
            = sum_Z (map P own8)).
    rewrite (sum_Z_split named).
    rewrite (@sum_Z_zero _ (fun ie => P (rank (fst ie)))
                         (filter (fun x => negb (named x)) team_entries)).
    2:{ intros ie Hie. apply filter_In in Hie as [Hie Hn].
        apply filter_In in Hie as [Hie _].
        apply Hunnamed; [auto|]. now apply negb_true_iff. }
    rewrite <- (sum_Z_perm (Permutation_map (fun ie => P (rank (fst ie))) Hperm)).
    rewrite <- (map_map (fun ie => rank (fst ie)) P).
    rewrite (ranks_of_selected ranked rank 1 (on_team team) Hrank).
    fold flags. fold own.
    rewrite (sum_Z_split (fun q => (q <=? 8)%Z) P own). fold own8.
    rewrite (@sum_Z_zero _ P (filter (fun x => negb (x <=? 8)%Z) own)); [lia|].
    intros q Hq. apply filter_In in Hq as [_ Hq].
    apply points_or_zero_outside; [exact table_ok|].
    apply negb_true_iff in Hq. lia. }
  assert (forall l, (0 <= sum_Z (map P l))%Z) as Hnn.
  { intros l. apply sum_Z_nonneg. intros x Hx.
    apply in_map_iff in Hx as (q & <- & _).
    now apply points_or_zero_nonneg. }
  assert (length own8 <= length team_entries)%nat as Hlen.
  { unfold own8. etransitivity; [apply filter_shorter|].
    unfold own. rewrite flagged_length. unfold flags.
    rewrite filter_flags_length, (Permutation_length Hperm).
    apply filter_shorter. }
  assert (exists tail,
             available_places (occupied_places team rank_map ranked)
             = own8 ++ tail) as (tail & Hav).
  { unfold available_places.
    rewrite sorted_ascending by (apply filter_sorted, range_sorted).
    unfold occupied_places.
    change (map (fun ie => rank_map_get rank_map (fst ie) 9%Z)
                (filter (fun ie => negb (String.eqb (entry_team (snd ie)) team))
                        ranked))
      with (map (fun ie => rank (fst ie))
                (filter (fun ie => negb (on_team team ie)) ranked)).
    rewrite (ranks_of_selected ranked rank 1
                               (fun ie => negb (on_team team ie)) Hrank).
    rewrite <- (map_map (on_team team) negb). fold flags.
    apply free_places_split. }
  split; [rewrite Ha; apply Hnn|].
  unfold b_pts. rewrite best_case_sum, Hav, Ha.
  rewrite firstn_app, firstn_all2 by exact Hlen.
  rewrite map_app, sum_Z_app.
  pose proof (Hnn (firstn (length team_entries - length own8) tail)).
  unfold P in *. lia.
Qed.

Lemma scenario_event_keeps (team : string) (base : Z)
      (acc : Z * Z * Z * list EventBreakdown.t) (event : MeetEvent.t) :
  snd (fst acc) = base /\ Forall row_in_order (snd acc) ->
  snd (fst (scenario_event table team acc event)) = base /\
  Forall row_in_order (snd (scenario_event table team acc event)).
Proof.
  destruct acc as [[[a b] c] bd]. simpl. intros [Hc Hbd].
  unfold scenario_event.
  pose proof (event_scenarios_ordered team event) as Hord. simpl in Hord.
  unfold on_team in Hord.
  destruct (filter (fun ie => String.eqb (entry_team (snd ie)) team)
                   (indexed_entries event)) as [|x l] eqn:E.
  { simpl. auto. }
  rewrite <- E in *.
  destruct (seeds_hold table (build_rank_map (_rank_entries_by_seed event) 0 [])
                       (filter (fun ie => String.eqb (entry_team (snd ie)) team)
                               (indexed_entries event)))
    as [a_pts details] eqn:Es.
  simpl in *. split; [lia|].
  apply Forall_app. split; [exact Hbd|].
  constructor; [|constructor].
  unfold row_in_order. simpl. lia.
Qed.

(** C7. For every team and snapshot the worst-case total of the scenario
    builder is the current actual points of the team, and every row of the
    breakdown has a worst case of 0 and
    best case >= seeds hold >= worst case. *)
Theorem scenarios_worst_is_current_and_rows_ordered
        (team : string) (actual : dict TeamScore.t) (state : MeetState.t)
        (gender : Gender.t) :
  let r := compute_team_scenarios table get_upcoming_finals team actual
                                  state gender in
  Scenarios.current r = actual_points_of actual team /\
  Scenarios.scenario_c r = Scenarios.current r /\
  Forall row_in_order (Scenarios.breakdown r).
Proof.
  unfold compute_team_scenarios.
  set (base := actual_points_of actual team).
  assert (forall events acc,
             snd (fst acc) = base /\ Forall row_in_order (snd acc) ->
             snd (fst (fold_left (scenario_event table team) events acc)) = base /\
             Forall row_in_order
                    (snd (fold_left (scenario_event table team) events acc)))
    as Hfold.
  { induction events as [|e events IH]; intros acc Hacc; simpl; [exact Hacc|].
    apply IH, scenario_event_keeps, Hacc. }
  specialize (Hfold (get_upcoming_finals state gender) (base, base, base, [])).
  destruct (fold_left (scenario_event table team)
                      (get_upcoming_finals state gender) (base, base, base, []))
    as [[[a b] c] bd].
  simpl in *. destruct Hfold as [Hc Hbd]; [split; [reflexivity|constructor]|].
  auto.
Qed.

End ScenarioProperties.

(** *** Seed projector and orchestrator *)

Lemma credit_award_value (pr : dict Q) (ta : string * Q) (t : string) :
  dict_get_default (credit_award pr ta) t 0
  == dict_get_default pr t 0 + (if String.eqb (fst ta) t then snd ta else 0).
Proof.
  unfold credit_award, dict_add_Q, dict_get_default.
  rewrite dict_get_set, String.eqb_sym.
  destruct (String.eqb_spec (fst ta) t) as [->|Hne]; lra.
Qed.

Lemma credit_fold_value (awards : list (string * Q)) (pr : dict Q) (t : string) :
  dict_get_default (fold_left credit_award awards pr) t 0
  == dict_get_default pr t 0 + team_award t awards.
Proof.
  revert pr. unfold team_award.
  induction awards as [|ta awards IH]; intros pr; simpl; [lra|].
  rewrite IH, credit_award_value.
  destruct (String.eqb (fst ta) t); simpl; lra.
Qed.

Section ProjectorProperties.

Variable table : list (Z * Z).
Variable get_completed_finals : MeetState.t -> Gender.t -> list MeetEvent.t.
Variable get_upcoming_finals : MeetState.t -> Gender.t -> list MeetEvent.t.

Lemma award_block_fold (tied_places : list Z) (avg_pts : Q) (pr : dict Q)
      (block : list (nat * EventEntry.t)) :
  award_block table tied_places avg_pts pr block
  = fold_left credit_award
              (if any_scoring table tied_places
               then map (fun e => (entry_team (snd e), avg_pts)) block
               else [])
              pr.
Proof.
  unfold award_block. destruct (any_scoring table tied_places).
  - revert pr. induction block as [|e block IH]; intros pr; simpl; [reflexivity|].
    apply IH.
  - revert pr. induction block as [|e block IH]; intros pr; simpl; auto.
Qed.

Lemma project_walk_awards (fuel : nat) (event : MeetEvent.t)
      (rest : list (nat * EventEntry.t)) (place : Z) (pr : dict Q) :
  project_walk table fuel event rest place pr
  = fold_left credit_award (walk_awards table fuel event rest place) pr.
Proof.
  revert rest place pr.
  induction fuel as [|fuel IH]; intros rest place pr;
    cbn [project_walk walk_awards]; [reflexivity|].
  destruct rest as [|first others]; [reflexivity|].
  destruct (place >? 8)%Z; [reflexivity|].
  rewrite IH, fold_left_app, award_block_fold. reflexivity.
Qed.

Lemma project_events_awards (events : list MeetEvent.t) (pr : dict Q) :
  fold_left (project_event table) events pr
  = fold_left credit_award (flat_map (event_awards table) events) pr.
Proof.
  revert pr. induction events as [|e events IH]; intros pr; simpl; [reflexivity|].
  rewrite fold_left_app, IH. unfold project_event, event_awards.
  now rewrite project_walk_awards.
Qed.

Lemma projection_base (actual : dict TeamScore.t) (pr : dict Q) (t : string) :
  NoDup (dict_keys actual) ->
  dict_get (fold_left (fun pr kv =>
                         dict_set pr (fst kv)
                                  (inject_Z (TeamScore.actual_points (snd kv))))
                      actual pr) t
  = match dict_get actual t with
    | Some ts => Some (inject_Z (TeamScore.actual_points ts))
    | None => dict_get pr t
    end.
Proof.
  revert pr. induction actual as [|[k v] actual IH]; intros pr Hnd; simpl.
  - reflexivity.
  - inversion Hnd as [|? ? Hk Hnd']; subst. rewrite IH by exact Hnd'.
    destruct (String.eqb_spec t k) as [->|Hne].
    + apply dict_get_none_key in Hk. rewrite Hk.
      simpl. apply dict_get_set_same.
    + destruct (dict_get actual t); [reflexivity|].
      simpl. now apply dict_get_set_other.
Qed.

(** The projection of a team is its actual points plus the exact sum of the
    averages paid to its entrants. *)
Lemma projection_exact (actual : dict TeamScore.t) (state : MeetState.t)
      (gender : Gender.t) (team : string) :
  NoDup (dict_keys actual) ->
  dict_get_default
    (compute_seed_projection table get_upcoming_finals actual state gender) team 0
  == inject_Z (actual_points_of actual team)
     + team_award team (projected_awards table get_upcoming_finals state gender).
Proof.
  intros Hnd. unfold compute_seed_projection, projected_awards.
  rewrite project_events_awards, credit_fold_value.
  unfold dict_get_default at 1. rewrite projection_base by exact Hnd.
  unfold actual_points_of. destruct (dict_get actual team); [reflexivity|].
  cbn [dict_get]. change (inject_Z 0) with 0. lra.
Qed.

Lemma tally_athlete_nodup (g : Gender.t) (label : string)
      (scores : dict TeamScore.t) (a : Athlete.t) :
  NoDup (dict_keys scores) ->
  NoDup (dict_keys (tally_athlete table g label scores a)).
Proof.
  intros Hnd. unfold tally_athlete.
  destruct (Athlete.final_place a) as [p|]; [|exact Hnd].
  destruct (p =? 0)%Z; [exact Hnd|].
  destruct (place_points table p); [|exact Hnd].
  unfold _get_or_create.
  destruct (dict_get scores (Athlete.team a));
    repeat apply dict_set_nodup; exact Hnd.
Qed.

Lemma actual_scores_nodup (state : MeetState.t) (gender : Gender.t) :
  NoDup (dict_keys (compute_actual_scores table get_completed_finals
                                          state gender)).
Proof.
  unfold compute_actual_scores.
  assert (forall label l sc,
             NoDup (dict_keys sc) ->
             NoDup (dict_keys (fold_left (tally_athlete table gender label) l sc)))
    as Hath.
  { induction l as [|a l IH]; intros sc H; simpl; [exact H|].
    apply IH, tally_athlete_nodup, H. }
  assert (forall events sc,
             NoDup (dict_keys sc) ->
             NoDup (dict_keys (fold_left (tally_final table gender) events sc)))
    as Hfin.
  { induction events as [|e events IH]; intros sc H; simpl; [exact H|].
    apply IH. unfold tally_final.
    generalize dependent sc.
    induction (MeetEvent.entries e) as [|x l IHl]; intros sc H; simpl; [exact H|].
    apply IHl, tally_athlete_nodup, H. }
  assert (forall combined sc,
             NoDup (dict_keys sc) ->
             NoDup (dict_keys (fold_left (tally_combined table gender) combined sc)))
    as Hcomb.
  { induction combined as [|c combined IH]; intros sc H; simpl; [exact H|].
    apply IH. unfold tally_combined.
    destruct (negb _ || negb _); [exact H|]. now apply Hath. }
  apply Hcomb, Hfin. constructor.
Qed.

End ProjectorProperties.

Lemma sorted_forall (A : Type) (lt : A -> A -> bool) (P : A -> Prop) (l : list A) :
  Forall P l -> Forall P (sorted lt l).
Proof.
  intros H. eapply Permutation_Forall; [|exact H].
  apply Permutation_sym, sorted_perm.
Qed.

(** *** The bounded loops run to their end *)

Lemma pop_length (A : Type) (l : list A) (i : nat) :
  (i < length l)%nat ->
  length (firstn i l ++ skipn (S i) l) = Nat.pred (length l).
Proof.
  intros H. rewrite length_app, length_firstn, length_skipn. lia.
Qed.

(** Any two numbers of rounds that cover the entries give the same result
    of the place loop. *)
Lemma place_loop_fuel_irrelevant (table : list (Z * Z)) (random_draws : nat -> Q)
      (fuel1 fuel2 : nat) (remaining : list (EventEntry.t * Q)) (place : Z)
      (draws : nat) (sim : dict Z) :
  (length remaining <= fuel1)%nat -> (length remaining <= fuel2)%nat ->
  place_loop table random_draws fuel1 remaining place draws sim
  = place_loop table random_draws fuel2 remaining place draws sim.
Proof.
  revert fuel2 remaining place draws sim.
  induction fuel1 as [|fuel1 IH]; intros fuel2 remaining place draws sim H1 H2.
  { destruct remaining; [destruct fuel2; reflexivity|simpl in H1; lia]. }
  destruct remaining as [|ep rest]; [destruct fuel2; reflexivity|].
  destruct fuel2 as [|fuel2]; [simpl in H2; lia|].
  cbn [place_loop].
  destruct (place >? 8)%Z; [reflexivity|].
  destruct (Qle_bool _ 0); [reflexivity|].
  set (idx := choose_index _ 0 0 (ep :: rest)).
  unfold list_pop.
  destruct (nth_error (ep :: rest) idx) as [x|] eqn:E; [|reflexivity].
  cbn [bind fst snd].
  assert (idx < length (ep :: rest))%nat as Hidx
      by (apply nth_error_Some; congruence).
  apply IH; rewrite (pop_length (ep :: rest) Hidx); simpl in *; lia.
Qed.

(** More rounds than entries change nothing in the place loop. *)
Lemma place_loop_fuel_enough (table : list (Z * Z)) (random_draws : nat -> Q)
      (fuel : nat) (remaining : list (EventEntry.t * Q)) (place : Z)
      (draws : nat) (sim : dict Z) :
  (length remaining <= fuel)%nat ->
  place_loop table random_draws fuel remaining place draws sim
  = place_loop table random_draws (length remaining) remaining place draws sim.
Proof.
  intros H. apply place_loop_fuel_irrelevant; [exact H|lia].
Qed.

Lemma take_tied_length (event : MeetEvent.t) (key : Q)
      (l : list (nat * EventEntry.t)) :
  (length (take_tied event key l) <= length l)%nat.
Proof.
  induction l as [|e l IH]; simpl; [lia|].
  destruct (tied_with event key e); simpl; lia.
Qed.

(** Any two numbers of rounds that cover the ranked entries give the same
    result of the projector walk. *)
Lemma project_walk_fuel_irrelevant (table : list (Z * Z)) (fuel1 fuel2 : nat)
      (event : MeetEvent.t) (rest : list (nat * EventEntry.t)) (place : Z)
      (pr : dict Q) :
  (length rest <= fuel1)%nat -> (length rest <= fuel2)%nat ->
  project_walk table fuel1 event rest place pr
  = project_walk table fuel2 event rest place pr.
Proof.
  revert fuel2 rest place pr.
  induction fuel1 as [|fuel1 IH]; intros fuel2 rest place pr H1 H2.
  { destruct rest; [destruct fuel2; reflexivity|simpl in H1; lia]. }
  destruct rest as [|first others]; [destruct fuel2; reflexivity|].
  destruct fuel2 as [|fuel2]; [simpl in H2; lia|].
  cbn [project_walk].
  destruct (place >? 8)%Z; [reflexivity|].
  apply IH; rewrite length_skipn; simpl in *; lia.
Qed.

(** More rounds than ranked entries change nothing in the projector walk. *)
Lemma project_walk_fuel_enough (table : list (Z * Z)) (fuel : nat)
      (event : MeetEvent.t) (rest : list (nat * EventEntry.t)) (place : Z)
      (pr : dict Q) :
  (length rest <= fuel)%nat ->
  project_walk table fuel event rest place pr
  = project_walk table (length rest) event rest place pr.
Proof.
  intros H. apply project_walk_fuel_irrelevant; [exact H|lia].
Qed.

(** *** The halves of the ceiling and tie claims that the code keeps *)

Section ProjectionBounds.

Variable table : list (Z * Z).
Variable get_upcoming_finals : MeetState.t -> Gender.t -> list MeetEvent.t.
Hypothesis table_ok : valid_table table = true.

Lemma average_points_nonneg (places : list Z) : 0 <= average_points table places.
Proof.
  unfold average_points. destruct places as [|p places]; [lra|].
  set (l := p :: places).
  assert (0 <= sum_Z (map (points_or_zero table) l))%Z as Hs.
  { apply sum_Z_nonneg. intros x Hx. apply in_map_iff in Hx as (q & <- & _).
    now apply points_or_zero_nonneg. }
  assert (0 < inject_Z (Z.of_nat (length l))) as Hl
      by (apply inject_nat_pos; simpl; lia).
  apply Qle_shift_div_l; [exact Hl|].
  rewrite Qmult_0_l. change 0 with (inject_Z 0). now rewrite <- Zle_Qle.
Qed.

Lemma walk_awards_nonneg (fuel : nat) (event : MeetEvent.t)
      (rest : list (nat * EventEntry.t)) (place : Z) (ta : string * Q) :
  In ta (walk_awards table fuel event rest place) -> 0 <= snd ta.
Proof.
  revert rest place. induction fuel as [|fuel IH]; intros rest place;
    cbn [walk_awards]; [intros []|].
  destruct rest as [|first others]; [intros []|].
  destruct (place >? 8)%Z; [intros []|].
  intros H. apply in_app_or in H as [H|H]; [|eapply IH, H].
  destruct (any_scoring table _); [|destruct H].
  apply in_map_iff in H as (e & <- & _). apply average_points_nonneg.
Qed.

Lemma team_award_nonneg (team : string) (awards : list (string * Q)) :
  (forall ta, In ta awards -> 0 <= snd ta) -> 0 <= team_award team awards.
Proof.
  intros H. unfold team_award. apply sum_Q_nonneg.
  intros x Hx. apply in_map_iff in Hx as (ta & <- & Hta).
  apply filter_In in Hta as [Hta _]. auto.
Qed.

(** The seed projection of a team is never below its actual points. *)
Lemma projection_at_least_actual (actual : dict TeamScore.t)
      (state : MeetState.t) (gender : Gender.t) (team : string) :
  NoDup (dict_keys actual) ->
  inject_Z (actual_points_of actual team)
  <= dict_get_default
       (compute_seed_projection table get_upcoming_finals actual state gender)
       team 0.
Proof.
  intros Hnd. rewrite projection_exact by exact Hnd.
  assert (0 <= team_award team
                          (projected_awards table get_upcoming_finals state gender))
    as H; [|lra].
  apply team_award_nonneg. intros ta Hta.
  unfold projected_awards in Hta. apply in_flat_map in Hta as (e & _ & Hta).
  eapply walk_awards_nonneg, Hta.
Qed.

(** Two ranked entrants within the tolerance of each other split places 1
    and 2: each is paid (points(1) + points(2)) / 2. *)
Lemma two_way_tie_average (event : MeetEvent.t) (e1 e2 : nat * EventEntry.t) :
  _rank_entries_by_seed event = [e1; e2] ->
  tied_with event (_seed_sort_key (snd e1) event) e2 = true ->
  exists p1 p2 avg,
    place_points table 1 = Some p1 /\ place_points table 2 = Some p2 /\
    avg == (inject_Z p1 + inject_Z p2) / 2 /\
    event_awards table event
    = [(entry_team (snd e1), avg); (entry_team (snd e2), avg)].
Proof.
  intros Hrank Htied.
  destruct (@valid_table_domain table 1 table_ok) as (p1 & H1); [lia|].
  destruct (@valid_table_domain table 2 table_ok) as (p2 & H2); [lia|].
  destruct (valid_table_range _ _ table_ok H1) as [_ Hp1].
  exists p1, p2. eexists. split; [exact H1|]. split; [exact H2|].
  split; [|unfold event_awards; rewrite Hrank;
           cbn [length walk_awards take_tied]; rewrite Htied;
           cbn [length walk_awards take_tied skipn app map]].
  2:{ replace (1 >? 8)%Z with false by reflexivity.
      change (range 1 (Z.min (1 + Z.of_nat 2) 9)) with [1; 2]%Z.
      unfold any_scoring. cbn [existsb]. unfold points_or_zero at 1.
      unfold place_points in H1. unfold place_points. rewrite H1.
      replace (p1 >? 0)%Z with true by lia. cbn [orb app].
      destruct (1 + Z.of_nat 2 >? 8)%Z eqn:E; [discriminate E|].
      reflexivity. }
  unfold average_points, points_or_zero, place_points in *.
  cbn [map sum_Z fold_right length]. unfold place_points in H1, H2.
  rewrite H1, H2. rewrite Z.add_0_r, inject_Z_plus. reflexivity.
Qed.

End ProjectionBounds.

(** *** The theorems at the sample snapshots *)


(** Three trials on [relay_day]. *)
Lemma win_probabilities_sum_to_one_witness :
  (1 <= 3)%Z /\
  upcoming_with_entries spec_get_upcoming_finals relay_day Gender.MEN <> [] /\
  some_team_known spec_get_upcoming_finals relay_actual relay_day Gender.MEN /\
  exists m,
    compute_win_probability standard_place_points spec_get_upcoming_finals
                            half_draws relay_actual relay_day Gender.MEN 3
    = Ok m /\
    sum_Q (dict_values m) == 1.
Proof.
  assert (1 <= 3)%Z as H1 by lia.
  assert (upcoming_with_entries spec_get_upcoming_finals relay_day Gender.MEN <> [])
    as H2 by (vm_compute; discriminate).
  assert (some_team_known spec_get_upcoming_finals relay_actual relay_day Gender.MEN)
    as H3 by (left; vm_compute; discriminate).
  split; [exact H1|]. split; [exact H2|]. split; [exact H3|].
  destruct (@win_probabilities_sum_to_one
              standard_place_points spec_get_upcoming_finals half_draws
              relay_actual relay_day Gender.MEN 3%Z H1 H2)
    as (ed & d & wc & m & _ & _ & Hm & _ & _ & Hsum & _).
  exists m. split; [exact Hm|exact (Hsum H3)].
Defined.

(** The degenerate distribution on [finished_day]. *)
Lemma no_upcoming_final_splits_among_leaders_witness :
  NoDup (dict_keys finished_actual) /\
  upcoming_with_entries spec_get_upcoming_finals finished_day Gender.MEN = [] /\
  exists m,
    compute_win_probability standard_place_points spec_get_upcoming_finals
                            half_draws finished_actual finished_day Gender.MEN 3
    = Ok m /\
    dict_keys m = dict_keys finished_actual.
Proof.
  assert (NoDup (dict_keys finished_actual)) as H1
      by apply actual_scores_nodup.
  assert (upcoming_with_entries spec_get_upcoming_finals finished_day Gender.MEN = [])
    as H2 by reflexivity.
  split; [exact H1|]. split; [exact H2|].
  destruct (@no_upcoming_final_splits_among_leaders
              standard_place_points spec_get_upcoming_finals
              finished_actual finished_day Gender.MEN H1 H2)
    as (m & Hm & _ & Hkeys & _).
  exists m. split; [apply Hm|exact Hkeys].
Defined.

(** The scenarios of team A on [relay_day]. *)
Lemma scenarios_worst_is_current_and_rows_ordered_witness :
  valid_table standard_place_points = true /\
  let r := compute_team_scenarios standard_place_points spec_get_upcoming_finals
                                  "A" relay_actual relay_day Gender.MEN in
  Scenarios.current r = actual_points_of relay_actual "A" /\
  Scenarios.scenario_c r = Scenarios.current r /\
  Forall row_in_order (Scenarios.breakdown r).
Proof.
  split; [reflexivity|].
  apply (@scenarios_worst_is_current_and_rows_ordered
           standard_place_points spec_get_upcoming_finals eq_refl).
Defined.

(** The tally of team C on [relay_day]. *)
Lemma actual_scores_credit_scoring_places_witness :
  valid_table standard_place_points = true /\
  in_scoring_range (EventEntry.athlete (placed "Ann" "A" 1)) = true /\
  in_scoring_range (EventEntry.athlete (placed "Cy" "C" 9)) = false /\
  tally_athlete standard_place_points Gender.MEN "Men 200m" []
                (EventEntry.athlete (placed "Cy" "C" 9)) = [] /\
  actual_points_of relay_actual "C"
  = team_worth standard_place_points "C"
               (tabulated_athletes spec_get_completed_finals relay_day Gender.MEN).
Proof.
  destruct (@actual_scores_credit_scoring_places
              standard_place_points spec_get_completed_finals eq_refl)
    as (_ & Hout & Htotal).
  split; [reflexivity|]. split; [reflexivity|]. split; [reflexivity|].
  split; [apply Hout; reflexivity|apply Htotal].
Defined.

(** The ceiling of team C on [relay_day]. *)
Lemma ceiling_covers_named_teams_witness :
  valid_table standard_place_points = true /\
  "C"%string <> EmptyString /\
  In "C"%string (teams_on_entries relay_day) /\
  ceiling_covers standard_place_points spec_get_upcoming_finals relay_actual
                 relay_day Gender.MEN "C".
Proof.
  assert ("C"%string <> EmptyString) as H1 by discriminate.
  assert (In "C"%string (teams_on_entries relay_day)) as H2
      by (simpl; auto).
  split; [reflexivity|]. split; [exact H1|]. split; [exact H2|].
  apply (@ceiling_covers_named_teams
           standard_place_points spec_get_upcoming_finals eq_refl
           relay_actual relay_day Gender.MEN "C"%string H1 H2).
Defined.

(** The end-to-end example of the specification: X projects to 16 points,
    Y to 8. *)
Example podium_projection :
  exists x y,
    compute_seed_projection podium_table spec_get_upcoming_finals []
                            podium_meet Gender.MEN
    = [("X"%string, x); ("Y"%string, y)] /\ x == 16 /\ y == 8.
Proof.
  eexists. eexists. split; [vm_compute; reflexivity|]. split; reflexivity.
Qed.

(* ------------------------------------------------------------------ *)
(** ** Further properties of the layers *)
(* ------------------------------------------------------------------ *)

(** *** Rank resolver *)

Lemma filter_strongly_sorted (A : Type) (R : A -> A -> Prop) (p : A -> bool)
      (l : list A) :
  StronglySorted R l -> StronglySorted R (filter p l).
Proof.
  induction 1 as [|x l Hs IH Hall]; simpl; [constructor|].
  destruct (p x); [|exact IH].
  constructor; [exact IH|].
  rewrite Forall_forall in *. intros y Hy. apply filter_In in Hy as [Hy _]. auto.
Qed.

Lemma numbered_increasing (A : Type) (l : list A) (s : nat) :
  StronglySorted (fun a b : nat * A => (fst a < fst b)%nat)
                 (combine (seq s (length l)) l).
Proof.
  revert s. induction l as [|x l IH]; intros s; simpl; constructor.
  - apply IH.
  - apply Forall_forall. intros [i y] Hin. apply in_combine_l in Hin.
    apply in_seq in Hin. simpl. lia.
Qed.

Lemma numbered_lookup (A : Type) (l : list A) (s i : nat) (x : A) :
  In (i, x) (combine (seq s (length l)) l) ->
  (s <= i)%nat /\ nth_error l (i - s) = Some x.
Proof.
  revert s. induction l as [|y l IH]; intros s; simpl; [tauto|].
  intros [H|H].
  - injection H as <- <-. rewrite Nat.sub_diag. auto with arith.
  - apply IH in H as [Hle Hn]. split; [lia|].
    replace (i - s)%nat with (S (i - S s)) by lia. exact Hn.
Qed.

Section RankOrder.

Variable event : MeetEvent.t.

Let key (a : nat * EventEntry.t) : Q := _seed_sort_key (snd a) event.

Let lt (a b : nat * EventEntry.t) : bool := Qltb (key a) (key b).

Lemma rank_insert_ordered (x : nat * EventEntry.t)
      (l : list (nat * EventEntry.t)) :
  StronglySorted (ranks_before event) l ->
  Forall (fun y => (fst x < fst y)%nat) l ->
  StronglySorted (ranks_before event) (sorted_insert lt x l).
Proof.
  induction 1 as [|y l Hs IH Hall]; intros Hx; simpl.
  - constructor; constructor.
  - inversion Hx as [|? ? Hxy Hxl]; subst.
    destruct (lt y x) eqn:E.
    + apply Qltb_true in E. fold (key y) (key x) in E.
      constructor; [apply IH, Hxl|].
      apply Forall_forall. intros z Hz.
      apply sorted_insert_in in Hz as [-> |Hz].
      * split; fold (key y) (key x); [lra|intros H; lra].
      * rewrite Forall_forall in Hall. auto.
    + assert (key x <= key y) as Hle.
      { destruct (Qlt_le_dec (key y) (key x)) as [H|H]; [|exact H].
        apply Qltb_true in H. unfold lt in E. congruence. }
      constructor; [constructor; assumption|].
      constructor; [split; [exact Hle|intros _; exact Hxy]|].
      rewrite Forall_forall in *. intros z Hz.
      destruct (Hall z Hz) as [Hyz _].
      fold (key y) (key z) in Hyz.
      split; fold (key x) (key z); [lra|intros _; auto].
Qed.

Lemma rank_sorted_ordered (l : list (nat * EventEntry.t)) :
  StronglySorted (fun a b => (fst a < fst b)%nat) l ->
  StronglySorted (ranks_before event) (sorted lt l).
Proof.
  induction 1 as [|x l Hs IH Hall]; simpl; [constructor|].
  apply rank_insert_ordered; [exact IH|].
  eapply Permutation_Forall; [apply Permutation_sym, sorted_perm|exact Hall].
Qed.

End RankOrder.

(** X1. The ranking of an event holds exactly its named entries, each one
    once and under its position in [event.entries]: entries without an
    athlete name are left out and nothing else is lost or added. *)
Theorem ranking_keeps_named_entries (event : MeetEvent.t) :
  Permutation (map snd (_rank_entries_by_seed event))
              (filter entry_named (MeetEvent.entries event)) /\
  length (_rank_entries_by_seed event)
  = length (filter entry_named (MeetEvent.entries event)) /\
  NoDup (map fst (_rank_entries_by_seed event)) /\
  forall i e, In (i, e) (_rank_entries_by_seed event) ->
              nth_error (MeetEvent.entries event) i = Some e /\
              entry_named e = true.
Proof.
  split; [apply ranked_entries_perm|].
  split; [|split; [apply ranked_nodup|]].
  - rewrite <- (length_map snd).
    apply Permutation_length, ranked_entries_perm.
  - intros i e Hin.
    apply (Permutation_in _ (ranked_perm_indexed event)) in Hin.
    apply filter_In in Hin as [Hin Hnamed]. split; [|exact Hnamed].
    apply numbered_lookup in Hin as [_ Hn]. now rewrite Nat.sub_0_r in Hn.
Qed.

(** X2. The ranking is ascending in the sort key and stable: of two ranked
    entries the earlier one never has the larger key, and when the keys are
    equal it is the one that comes first in [event.entries]. *)
Theorem ranking_ascending_and_stable (event : MeetEvent.t) :
  StronglySorted (ranks_before event) (_rank_entries_by_seed event).
Proof.
  unfold _rank_entries_by_seed. apply rank_sorted_ordered.
  apply filter_strongly_sorted, numbered_increasing.
Qed.

(** *** Score tabulator: the records *)

Lemma scoring_count_snoc (team : string) (l : list Athlete.t) (a : Athlete.t) :
  scoring_count team (l ++ [a])
  = (scoring_count team l
     + if String.eqb (Athlete.team a) team && in_scoring_range a then 1 else 0)%nat.
Proof.
  unfold scoring_count. rewrite filter_app, length_app. simpl.
  destruct (String.eqb (Athlete.team a) team && in_scoring_range a); reflexivity.
Qed.

Section TabulatorRecords.

Variable table : list (Z * Z).
Variable get_completed_finals : MeetState.t -> Gender.t -> list MeetEvent.t.
Hypothesis table_ok : valid_table table = true.

Lemma tally_athlete_record (g : Gender.t) (label : string)
      (scores : dict TeamScore.t) (l : list Athlete.t) (a : Athlete.t) :
  (forall t, record_matches g scores l t) ->
  forall t, record_matches g (tally_athlete table g label scores a) (l ++ [a]) t.
Proof.
  intros Hinv t. specialize (Hinv t). unfold record_matches in *.
  rewrite scoring_count_snoc.
  destruct (in_scoring_range a) eqn:Hr.
  2:{ rewrite (@tally_athlete_unscored table table_ok g label scores a Hr).
      rewrite andb_false_r, Nat.add_0_r. exact Hinv. }
  rewrite andb_true_r.
  unfold in_scoring_range in Hr.
  destruct (Athlete.final_place a) as [p|] eqn:Hp; [|discriminate].
  apply andb_prop in Hr as [Hr1 Hr2].
  destruct (@valid_table_domain table p table_ok) as [pts Hg]; [lia|].
  destruct (valid_table_range _ _ table_ok Hg) as [_ Hpts].
  unfold tally_athlete. rewrite Hp.
  replace (p =? 0)%Z with false by lia.
  unfold place_points. rewrite Hg. unfold _get_or_create.
  destruct (String.eqb_spec (Athlete.team a) t) as [Ht|Ht].
  - subst t.
    destruct (dict_get scores (Athlete.team a)) as [ts|] eqn:Hts;
      rewrite dict_get_set_same; simpl.
    + destruct Hinv as (H1 & H2 & H3 & H4 & H5).
      rewrite length_app. simpl. repeat split; auto; lia.
    + rewrite Hinv. repeat split; auto; lia.
  - rewrite Nat.add_0_r.
    destruct (dict_get scores (Athlete.team a)) as [ts|] eqn:Hts;
      rewrite !dict_get_set_other by congruence; exact Hinv.
Qed.

Lemma tally_athletes_record (g : Gender.t) (label : string)
      (new : list Athlete.t) (scores : dict TeamScore.t) (l : list Athlete.t) :
  (forall t, record_matches g scores l t) ->
  forall t, record_matches g (fold_left (tally_athlete table g label) new scores)
                           (l ++ new) t.
Proof.
  revert scores l. induction new as [|a new IH]; intros scores l Hinv; simpl.
  - now rewrite app_nil_r.
  - replace (l ++ a :: new) with ((l ++ [a]) ++ new)
      by (rewrite <- app_assoc; reflexivity).
    apply IH, tally_athlete_record, Hinv.
Qed.

Lemma tally_finals_record (g : Gender.t) (events : list MeetEvent.t)
      (scores : dict TeamScore.t) (l : list Athlete.t) :
  (forall t, record_matches g scores l t) ->
  forall t,
    record_matches g (fold_left (tally_final table g) events scores)
                   (l ++ flat_map (fun e => map EventEntry.athlete
                                                (MeetEvent.entries e)) events) t.
Proof.
  revert scores l. induction events as [|e events IH]; intros scores l Hinv; simpl.
  - now rewrite app_nil_r.
  - rewrite app_assoc. apply IH. unfold tally_final.
    assert (forall entries sc,
               fold_left (fun sc entry =>
                            tally_athlete table g (MeetEvent.event_name e) sc
                                          (EventEntry.athlete entry)) entries sc
               = fold_left (tally_athlete table g (MeetEvent.event_name e))
                           (map EventEntry.athlete entries) sc) as Hmap.
    { induction entries as [|x xs IHx]; intros sc; simpl; auto. }
    rewrite Hmap. apply tally_athletes_record, Hinv.
Qed.

Lemma tally_combined_record (g : Gender.t)
      (combined : list CombinedEventResult.t)
      (scores : dict TeamScore.t) (l : list Athlete.t) :
  (forall t, record_matches g scores l t) ->
  forall t,
    record_matches g (fold_left (tally_combined table g) combined scores)
                   (l ++ flat_map CombinedEventResult.athletes
                           (filter (fun c =>
                                      Gender.eqb (CombinedEventResult.gender c) g
                                      && CombinedEventResult.is_complete c)
                                   combined)) t.
Proof.
  revert scores l.
  induction combined as [|c combined IH]; intros scores l Hinv; simpl.
  - now rewrite app_nil_r.
  - unfold tally_combined at 2.
    destruct (Gender.eqb (CombinedEventResult.gender c) g);
      destruct (CombinedEventResult.is_complete c); simpl;
      try (apply IH, Hinv).
    rewrite app_assoc. apply IH, tally_athletes_record, Hinv.
Qed.

(** X3. In the map of actual scores a team has a record exactly when one of
    its athletes holds a scoring place in a completed final or a complete
    combined event; the record then carries the name of the team and the
    gender asked for, a positive number of points, and one entry of
    [events_scored] per such athlete. *)
Theorem actual_scores_records (state : MeetState.t) (gender : Gender.t)
        (team : string) :
  record_matches gender
                 (compute_actual_scores table get_completed_finals state gender)
                 (tabulated_athletes get_completed_finals state gender) team.
Proof.
  unfold compute_actual_scores, tabulated_athletes.
  apply tally_combined_record.
  intros t. apply (tally_finals_record gender _ [] []).
  intros t'. reflexivity.
Qed.

End TabulatorRecords.

(** The records of [relay_day]. *)
Lemma actual_scores_records_witness :
  valid_table standard_place_points = true /\
  record_matches Gender.MEN relay_actual
                 (tabulated_athletes spec_get_completed_finals relay_day Gender.MEN)
                 "C".
Proof.
  split; [reflexivity|].
  apply (@actual_scores_records standard_place_points spec_get_completed_finals
                                eq_refl relay_day Gender.MEN "C"%string).
Defined.

(** *** Ceiling estimator: every place is claimed once *)

Lemma dict_set_sum_Z (d : dict Z) (k : string) (w : Z) :
  sum_Z (dict_values (dict_set d k w))
  = (sum_Z (dict_values d) - dict_get_default d k 0 + w)%Z.
Proof.
  unfold dict_get_default.
  induction d as [|[k0 v0] d IH]; simpl.
  - lia.
  - destruct (String.eqb_spec k k0) as [->|Hne]; simpl; [lia|].
    rewrite IH. lia.
Qed.

Lemma dict_add_Z_sum (d : dict Z) (k : string) (v : Z) :
  sum_Z (dict_values (dict_add_Z d k v)) = (sum_Z (dict_values d) + v)%Z.
Proof. unfold dict_add_Z. rewrite dict_set_sum_Z. lia. Qed.

Lemma range_app (a b c : Z) :
  (a <= b <= c)%Z -> range a b ++ range b c = range a c.
Proof.
  intros H. remember (Z.to_nat (b - a)) as n eqn:Hn. revert a H Hn.
  induction n as [|n IH]; intros a H Hn.
  - assert (a = b) as -> by lia. now rewrite range_empty by lia.
  - rewrite (@range_cons a b), (@range_cons a c) by lia. simpl.
    f_equal. apply IH; lia.
Qed.

Lemma keys_sum (d : dict Z) :
  NoDup (dict_keys d) ->
  sum_Z (map (fun t => dict_get_default d t 0%Z) (dict_keys d))
  = sum_Z (dict_values d).
Proof.
  induction d as [|[k v] d IH]; simpl; intros Hnd; [reflexivity|].
  inversion Hnd as [|? ? Hk Hnd']; subst.
  unfold dict_get_default at 1. simpl. rewrite String.eqb_refl.
  rewrite <- IH by exact Hnd'. f_equal. f_equal.
  apply map_ext_in. intros t Ht. unfold dict_get_default. simpl.
  destruct (String.eqb_spec t k) as [->|Hne]; [contradiction|reflexivity].
Qed.

Lemma count_team_athletes_facts (event : MeetEvent.t) :
  NoDup (dict_keys (count_team_athletes event)) /\
  sum_Z (dict_values (count_team_athletes event))
  = Z.of_nat (length (MeetEvent.entries event)) /\
  forall v, In v (dict_values (count_team_athletes event)) -> (0 <= v)%Z.
Proof.
  unfold count_team_athletes.
  assert (forall l d,
             NoDup (dict_keys d) ->
             (forall v, In v (dict_values d) -> (0 <= v)%Z) ->
             let r := fold_left (fun d entry => dict_add_Z d (entry_team entry) 1)
                                l d in
             NoDup (dict_keys r) /\
             sum_Z (dict_values r) = (sum_Z (dict_values d) + Z.of_nat (length l))%Z /\
             forall v, In v (dict_values r) -> (0 <= v)%Z) as H.
  { induction l as [|e l IH]; intros d Hnd Hnn; cbn [fold_left length].
    - repeat split; auto. lia.
    - destruct (IH (dict_add_Z d (entry_team e) 1)) as (H1 & H2 & H3).
      + unfold dict_add_Z. now apply dict_set_nodup.
      + intros v Hv. unfold dict_add_Z in Hv.
        apply dict_set_values in Hv as [-> |Hv]; [|auto].
        unfold dict_get_default.
        destruct (dict_get d (entry_team e)) as [w|] eqn:E; [|lia].
        assert (0 <= w)%Z; [|lia].
        apply Hnn. apply dict_get_some_in in E. unfold dict_values.
        change w with (snd (entry_team e, w)). now apply in_map.
      + repeat split; auto. rewrite H2, dict_add_Z_sum. lia. }
  destruct (H (MeetEvent.entries event) []) as (H1 & H2 & H3).
  - constructor.
  - intros v [].
  - repeat split; auto.
Qed.

Section CeilingConservation.

Variable table : list (Z * Z).
Variable get_upcoming_finals : MeetState.t -> Gender.t -> list MeetEvent.t.
Hypothesis table_ok : valid_table table = true.

Lemma claim_places_sum (count : nat) (team : string) (place : Z) (c : dict Z) :
  (1 <= place <= 9)%Z ->
  fst (claim_places table count team place c)
  = Z.min (place + Z.of_nat count) 9 /\
  sum_Z (dict_values (snd (claim_places table count team place c)))
  = (sum_Z (dict_values c)
     + sum_Z (map (points_or_zero table)
                  (range place (Z.min (place + Z.of_nat count) 9))))%Z.
Proof.
  revert place c. induction count as [|k IH]; intros place c Hp.
  { cbn [claim_places fst snd]. rewrite range_empty by lia. unfold sum_Z in *; cbn [map fold_right]; try rewrite Hpts; lia. }
  cbn [claim_places].
  destruct (Z.eq_dec place 9) as [->|Hne].
  - assert (place_points table 9 = None) as Hnone.
    { destruct (place_points table 9) as [v|] eqn:E; [|reflexivity].
      destruct (valid_table_range _ _ table_ok E). lia. }
    rewrite Hnone. replace (9 >? 8)%Z with true by reflexivity.
    cbn [fst snd]. rewrite range_empty by lia. unfold sum_Z in *; cbn [map fold_right]; try rewrite Hpts; lia.
  - destruct (@valid_table_domain table place table_ok) as [pts Hg]; [lia|].
    unfold place_points. rewrite Hg.
    assert (points_or_zero table place = pts) as Hpts
        by (unfold points_or_zero, place_points; now rewrite Hg).
    destruct (place + 1 >? 8)%Z eqn:E.
    + cbn [fst snd]. rewrite dict_add_Z_sum.
      replace (Z.min (place + Z.of_nat (S k)) 9) with 9%Z by lia.
      assert (place = 8)%Z as -> by lia.
      rewrite (@range_cons 8 9), range_empty by lia. unfold sum_Z in *; cbn [map fold_right]; try rewrite Hpts; lia.
    + destruct (IH (place + 1)%Z (dict_add_Z c team pts)) as [H1 H2]; [lia|].
      rewrite H1, H2, dict_add_Z_sum.
      replace (Z.min (place + 1 + Z.of_nat k) 9)
        with (Z.min (place + Z.of_nat (S k)) 9) by lia.
      split; [reflexivity|].
      rewrite (@range_cons place (Z.min (place + Z.of_nat (S k)) 9)) by lia.
      unfold sum_Z in *; cbn [map fold_right]; try rewrite Hpts; lia.
Qed.

Lemma claim_by_team_sum (team_list : list string) (counts : dict Z)
      (place : Z) (c : dict Z) :
  (1 <= place <= 9)%Z ->
  sum_Z (dict_values (claim_by_team table team_list counts place c))
  = (sum_Z (dict_values c)
     + sum_Z (map (points_or_zero table)
                  (range place
                         (Z.min (place
                                 + sum_Z (map (fun t =>
                                                 Z.of_nat
                                                   (Z.to_nat
                                                      (dict_get_default counts t 0%Z)))
                                              team_list)) 9))))%Z.
Proof.
  revert place c. induction team_list as [|team rest IH]; intros place c Hp.
  { cbn [claim_by_team map sum_Z fold_right]. rewrite range_empty by lia.
    unfold sum_Z in *; cbn [map fold_right]; try rewrite Hpts; lia. }
  cbn [claim_by_team map].
  set (n := Z.to_nat (dict_get_default counts team 0%Z)).
  set (total := sum_Z (map (fun t => Z.of_nat (Z.to_nat (dict_get_default counts t 0%Z)))
                           rest)).
  assert (0 <= total)%Z as Htotal.
  { apply sum_Z_nonneg. intros x Hx. apply in_map_iff in Hx as (t & <- & _). lia. }
  destruct (@claim_places_sum n team place c Hp) as [H1 H2].
  destruct (claim_places table n team place c) as [place1 c1].
  cbn [fst snd] in H1, H2. subst place1.
  change (sum_Z (Z.of_nat n :: map _ rest)) with (Z.of_nat n + total)%Z.
  destruct (Z.min (place + Z.of_nat n) 9 >? 8)%Z eqn:E.
  - rewrite H2.
    replace (Z.min (place + (Z.of_nat n + total)) 9)
      with (Z.min (place + Z.of_nat n) 9) by lia.
    reflexivity.
  - rewrite IH by lia. rewrite H2. fold total.
    replace (Z.min (Z.min (place + Z.of_nat n) 9 + total) 9)
      with (Z.min (place + (Z.of_nat n + total)) 9) by lia.
    rewrite <- (@range_app place (Z.min (place + Z.of_nat n) 9)
                           (Z.min (place + (Z.of_nat n + total)) 9)) by lia.
    rewrite map_app, sum_Z_app. lia.
Qed.

Lemma ceiling_event_sum (c : dict Z) (event : MeetEvent.t) :
  sum_Z (dict_values (ceiling_event table c event))
  = (sum_Z (dict_values c)
     + top_places_total table (length (MeetEvent.entries event)))%Z.
Proof.
  unfold ceiling_event. rewrite claim_by_team_sum by lia.
  destruct (count_team_athletes_facts event) as (Hnd & Hsum & Hnn).
  set (counts := count_team_athletes event) in *.
  assert (sum_Z (map (fun t => Z.of_nat (Z.to_nat (dict_get_default counts t 0%Z)))
                     (sorted string_ltb (dict_keys counts)))
          = Z.of_nat (length (MeetEvent.entries event))) as Htotal.
  { rewrite (sum_Z_perm (Permutation_map _ (sorted_perm string_ltb (dict_keys counts)))).
    rewrite <- Hsum, <- (@keys_sum counts Hnd). f_equal.
    apply map_ext_in. intros t Ht.
    assert (0 <= dict_get_default counts t 0)%Z; [|lia].
    unfold dict_get_default.
    destruct (dict_get counts t) as [v|] eqn:E; [|lia].
    apply Hnn. apply dict_get_some_in in E. unfold dict_values.
    change v with (snd (t, v)). now apply in_map. }
  rewrite Htotal. unfold top_places_total. do 4 f_equal. lia.
Qed.

Lemma snapshot_teams_nodup (state : MeetState.t) : NoDup (snapshot_teams state).
Proof.
  unfold snapshot_teams.
  assert (forall l acc,
             NoDup acc ->
             NoDup (fold_left (fun acc' entry =>
                                 if truthy (entry_team entry)
                                 then set_add acc' (entry_team entry) else acc')
                              l acc)) as Hinner.
  { induction l as [|e l IH]; intros acc H; simpl; [exact H|].
    apply IH. destruct (truthy (entry_team e)); [now apply set_add_nodup|exact H]. }
  assert (forall events acc,
             NoDup acc ->
             NoDup (fold_left
                      (fun acc event =>
                         fold_left (fun acc' entry =>
                                      if truthy (entry_team entry)
                                      then set_add acc' (entry_team entry) else acc')
                                   (MeetEvent.entries event) acc)
                      events acc)) as Houter.
  { induction events as [|e events IH]; intros acc H; simpl; [exact H|].
    apply IH, Hinner, H. }
  apply Houter. constructor.
Qed.

Lemma ceiling_base_sum (actual : dict TeamScore.t) (teams : list string)
      (c : dict Z) :
  NoDup teams -> (forall t, In t teams -> ~ In t (dict_keys c)) ->
  sum_Z (dict_values
           (fold_left (fun c team => dict_set c team (actual_points_of actual team))
                      teams c))
  = (sum_Z (dict_values c) + sum_Z (map (actual_points_of actual) teams))%Z.
Proof.
  revert c. induction teams as [|t teams IH]; intros c Hnd Hfresh; simpl; [lia|].
  inversion Hnd as [|? ? Ht Hnd']; subst.
  rewrite IH; [|exact Hnd'|].
  - rewrite dict_set_sum_Z. unfold dict_get_default.
    assert (dict_get c t = None) as ->
        by (apply dict_get_none_key, Hfresh; now left).
    lia.
  - intros u Hu Hin. apply dict_set_keys in Hin as [Hin| ->].
    + apply (Hfresh u); [now right|exact Hin].
    + contradiction.
Qed.

(** X4. The ceilings of all teams add up to the actual points of the teams
    found on the entries plus, for every upcoming final, the table points of
    its best places, one place per entry and at most eight: within an event
    every place is claimed by one team only. *)
Theorem ceilings_claim_each_place_once
        (actual : dict TeamScore.t) (state : MeetState.t) (gender : Gender.t) :
  sum_Z (dict_values (compute_optimistic_ceiling table get_upcoming_finals
                                                 actual state gender))
  = (sum_Z (map (actual_points_of actual) (snapshot_teams state))
     + sum_Z (map (fun e => top_places_total table
                                             (length (MeetEvent.entries e)))
                  (get_upcoming_finals state gender)))%Z.
Proof.
  unfold compute_optimistic_ceiling.
  assert (forall events c,
             sum_Z (dict_values (fold_left (ceiling_event table) events c))
             = (sum_Z (dict_values c)
                + sum_Z (map (fun e => top_places_total
                                         table (length (MeetEvent.entries e)))
                             events))%Z) as Hfold.
  { induction events as [|e events IH]; intros c; cbn [fold_left map].
    - unfold sum_Z; cbn [fold_right]; lia.
    - rewrite IH, ceiling_event_sum. unfold sum_Z; cbn [fold_right]; lia. }
  rewrite Hfold, ceiling_base_sum.
  - unfold sum_Z, dict_values; cbn [map fold_right]; lia.
  - apply snapshot_teams_nodup.
  - intros t _ [].
Qed.

End CeilingConservation.

(** The ceilings of [relay_day]. *)
Lemma ceilings_claim_each_place_once_witness :
  valid_table standard_place_points = true /\
  sum_Z (dict_values (compute_optimistic_ceiling standard_place_points
                                                 spec_get_upcoming_finals
                                                 relay_actual relay_day Gender.MEN))
  = (sum_Z (map (actual_points_of relay_actual) (snapshot_teams relay_day))
     + sum_Z (map (fun e => top_places_total standard_place_points
                                             (length (MeetEvent.entries e)))
                  (spec_get_upcoming_finals relay_day Gender.MEN)))%Z.
Proof.
  split; [reflexivity|].
  apply (@ceilings_claim_each_place_once
           standard_place_points spec_get_upcoming_finals eq_refl
           relay_actual relay_day Gender.MEN).
Defined.

(** *** Seed projector: keys, lower bound and conservation *)

Lemma credit_award_keeps (pr : dict Q) (ta : string * Q) (t : string) :
  In t (dict_keys pr) -> In t (dict_keys (credit_award pr ta)).
Proof. apply dict_set_keeps_key. Qed.

Lemma credit_fold_keeps (awards : list (string * Q)) (pr : dict Q) (t : string) :
  In t (dict_keys pr) -> In t (dict_keys (fold_left credit_award awards pr)).
Proof.
  revert pr. induction awards as [|ta awards IH]; intros pr H; simpl; [exact H|].
  apply IH, credit_award_keeps, H.
Qed.

Lemma credit_fold_sum (awards : list (string * Q)) (pr : dict Q) :
  sum_Q (dict_values (fold_left credit_award awards pr))
  == sum_Q (dict_values pr) + sum_Q (map snd awards).
Proof.
  revert pr. induction awards as [|ta awards IH]; intros pr; simpl; [lra|].
  rewrite IH. unfold credit_award. rewrite dict_add_Q_sum. lra.
Qed.

Lemma walk_awards_teams (table : list (Z * Z)) (fuel : nat) (event : MeetEvent.t)
      (rest : list (nat * EventEntry.t)) (place : Z) (ta : string * Q) :
  In ta (walk_awards table fuel event rest place) ->
  exists ie, In ie rest /\ entry_team (snd ie) = fst ta.
Proof.
  revert rest place. induction fuel as [|fuel IH]; intros rest place;
    cbn [walk_awards]; [intros []|].
  destruct rest as [|first others]; [intros []|].
  destruct (place >? 8)%Z; [intros []|].
  intros H. apply in_app_or in H as [H|H].
  - destruct (any_scoring table _); [|destruct H].
    apply in_map_iff in H as (e & <- & He). exists e. split; [|reflexivity].
    destruct He as [<- |He]; [now left|right].
    clear - He. revert He.
    generalize (_seed_sort_key (snd first) event). intros key.
    induction others as [|x xs IHx]; simpl; [tauto|].
    destruct (tied_with event key x); [|intros []].
    intros [<- |H]; auto.
  - apply IH in H as (ie & Hie & Ht). exists ie. split; [|exact Ht].
    right. clear - Hie. revert Hie.
    generalize (length (take_tied event (_seed_sort_key (snd first) event) others)).
    intros n. revert others. induction n as [|n IHn]; intros others; simpl; [auto|].
    destruct others as [|x xs]; [intros []|]. intros H. right. auto.
Qed.

Lemma repeat_award_sum (A : Type) (f : A -> string) (avg : Q) (l : list A) :
  sum_Q (map snd (map (fun e => (f e, avg)) l))
  == inject_Z (Z.of_nat (length l)) * avg.
Proof.
  induction l as [|x l IH]; cbn [map sum_Q fold_right snd length].
  - setoid_replace (inject_Z (Z.of_nat 0)) with 0 by reflexivity. lra.
  - fold (sum_Q (map snd (map (fun e => (f e, avg)) l))).
    rewrite IH, inject_nat_succ. lra.
Qed.

Section ProjectorMore.

Variable table : list (Z * Z).
Variable get_upcoming_finals : MeetState.t -> Gender.t -> list MeetEvent.t.
Hypothesis table_ok : valid_table table = true.

(** X5. A team of the actual-scores map stays a key of the projection; its
    projection is never below its actual points, and equals them when the
    team has no named entrant in an upcoming final. *)
Theorem projection_keeps_teams_above_actual
        (actual : dict TeamScore.t) (state : MeetState.t) (gender : Gender.t)
        (team : string) (ts : TeamScore.t) :
  NoDup (dict_keys actual) ->
  dict_get actual team = Some ts ->
  exists v,
    dict_get (compute_seed_projection table get_upcoming_finals
                                      actual state gender) team = Some v /\
    inject_Z (TeamScore.actual_points ts) <= v /\
    (~ has_named_entrant get_upcoming_finals state gender team ->
     v == inject_Z (TeamScore.actual_points ts)).
Proof.
  intros Hnd Hts.
  pose proof (@projection_at_least_actual table get_upcoming_finals table_ok
                                          actual state gender team Hnd) as Hle.
  pose proof (@projection_exact table get_upcoming_finals actual state gender
                                team Hnd) as Hex.
  assert (actual_points_of actual team = TeamScore.actual_points ts) as Hpts
      by (unfold actual_points_of; now rewrite Hts).
  rewrite Hpts in Hle, Hex.
  destruct (dict_get (compute_seed_projection table get_upcoming_finals
                                              actual state gender) team)
    as [v|] eqn:E.
  - unfold dict_get_default in Hle, Hex. rewrite E in Hle, Hex.
    exists v. split; [reflexivity|]. split; [exact Hle|].
    intros Hno. rewrite Hex.
    assert (team_award team
                       (projected_awards table get_upcoming_finals state gender)
            == 0) as ->; [|lra].
    unfold team_award.
    assert (filter (fun ta : string * Q => String.eqb (fst ta) team)
                   (projected_awards table get_upcoming_finals state gender) = [])
      as ->; [|reflexivity].
    destruct (filter _ _) as [|ta l] eqn:Ef; [reflexivity|exfalso].
    assert (In ta (filter (fun ta : string * Q => String.eqb (fst ta) team)
                          (projected_awards table get_upcoming_finals
                                            state gender))) as Hin
        by (rewrite Ef; now left).
    apply filter_In in Hin as [Hin Hteam]. apply String.eqb_eq in Hteam.
    unfold projected_awards in Hin. apply in_flat_map in Hin as (e & He & Hin).
    apply walk_awards_teams in Hin as ([i entry] & Hr & Ht).
    apply (Permutation_in _ (ranked_perm_indexed e)) in Hr.
    apply filter_In in Hr as [Hr Hnamed].
    apply numbered_lookup in Hr as [_ Hr]. apply nth_error_In in Hr.
    apply Hno. exists e, entry. simpl in *. repeat split; auto. congruence.
  - exfalso. apply dict_get_none_key in E. apply E.
    unfold compute_seed_projection. rewrite project_events_awards.
    apply credit_fold_keeps.
    assert (forall l pr,
               In team (dict_keys pr) \/ In team (dict_keys l) ->
               In team (dict_keys
                          (fold_left
                             (fun pr kv =>
                                dict_set pr (fst kv)
                                         (inject_Z (TeamScore.actual_points (snd kv))))
                             l pr))) as Hbase.
    { induction l as [|[k w] l IH]; intros pr; simpl; [tauto|].
      intros [H|[<- |H]]; apply IH; auto.
      - left. now apply dict_set_keeps_key.
      - left. apply dict_set_has_key. }
    apply Hbase. right. apply dict_get_some_in in Hts.
    unfold dict_keys. change team with (fst (team, ts)). now apply in_map.
Qed.

(** X6. In an event whose ranking has two entrants with keys less than one
    thousandth apart, both are one tied block over places 1 and 2: the
    projector adds (points(1) + points(2)) / 2 to the team of each. *)
Theorem two_way_tie_splits_first_two_places
        (event : MeetEvent.t) (e1 e2 : nat * EventEntry.t) (pr : dict Q) :
  _rank_entries_by_seed event = [e1; e2] ->
  Qabs (_seed_sort_key (snd e2) event - _seed_sort_key (snd e1) event)
  < 1 # 1000 ->
  exists p1 p2 avg,
    place_points table 1 = Some p1 /\ place_points table 2 = Some p2 /\
    avg == (inject_Z p1 + inject_Z p2) / 2 /\
    project_event table pr event
    = dict_add_Q (dict_add_Q pr (entry_team (snd e1)) avg)
                 (entry_team (snd e2)) avg.
Proof.
  intros Hrank Htied.
  assert (tied_with event (_seed_sort_key (snd e1) event) e2 = true) as Ht
      by (unfold tied_with, tie_tolerance; now apply Qltb_true).
  destruct (@two_way_tie_average table table_ok event e1 e2 Hrank Ht)
    as (p1 & p2 & avg & H1 & H2 & Havg & Haw).
  exists p1, p2, avg. repeat split; auto.
  unfold project_event. rewrite project_walk_awards.
  unfold event_awards in Haw. rewrite Haw. reflexivity.
Qed.

(** Awards of a walk that ends within the scoring places. *)
Lemma walk_awards_sum (fuel : nat) (event : MeetEvent.t)
      (rest : list (nat * EventEntry.t)) (place : Z) :
  (length rest <= fuel)%nat -> (1 <= place)%Z ->
  (place + Z.of_nat (length rest) <= 9)%Z ->
  sum_Q (map snd (walk_awards table fuel event rest place))
  == inject_Z (sum_Z (map (points_or_zero table)
                          (range place (place + Z.of_nat (length rest))))).
Proof.
  revert rest place. induction fuel as [|fuel IH]; intros rest place Hf Hp Hend.
  { destruct rest; [|simpl in Hf; lia]. cbn [walk_awards length].
    rewrite range_empty by lia. reflexivity. }
  destruct rest as [|first others].
  { cbn [walk_awards length]. rewrite range_empty by lia. reflexivity. }
  cbn [walk_awards].
  replace (place >? 8)%Z with false by (cbn [length] in Hend; lia).
  set (tail := take_tied event (_seed_sort_key (snd first) event) others).
  pose proof (take_tied_length event (_seed_sort_key (snd first) event) others)
    as Htail. fold tail in Htail.
  set (k := Z.of_nat (S (length tail))).
  cbn [length] in Hend, Hf.
  assert (Z.min (place + k) 9 = place + k)%Z as Hmin by (unfold k; lia).
  rewrite Hmin.
  assert (any_scoring table (range place (place + k)) = true) as Hany.
  { rewrite (@range_cons place (place + k)) by (unfold k; lia).
    unfold any_scoring. cbn [existsb].
    destruct (@valid_table_domain table place table_ok) as [pts Hg]; [lia|].
    destruct (valid_table_range _ _ table_ok Hg) as [_ Hpos].
    unfold points_or_zero at 1, place_points. rewrite Hg.
    replace (pts >? 0)%Z with true by lia. reflexivity. }
  rewrite Hany, map_app, sum_Q_app.
  rewrite (repeat_award_sum (fun e : nat * EventEntry.t => entry_team (snd e))).
  rewrite IH.
  2:{ rewrite length_skipn. lia. }
  2:{ unfold k. lia. }
  2:{ rewrite length_skipn. unfold k. lia. }
  rewrite length_skipn.
  change (length (first :: others)) with (S (length others)).
  replace (place + k + Z.of_nat (length others - length tail))%Z
    with (place + Z.of_nat (S (length others)))%Z by (unfold k; lia).
  rewrite <- (@range_app place (place + k) (place + Z.of_nat (S (length others))))
    by (unfold k; lia).
  rewrite map_app, sum_Z_app, inject_Z_plus.
  apply Qplus_inj_r.
  unfold average_points.
  destruct (range place (place + k)) as [|q qs] eqn:Er.
  { rewrite (@range_cons place (place + k)) in Er by (unfold k; lia).
    discriminate. }
  rewrite <- Er, range_length.
  replace (Z.to_nat (place + k - place)) with (S (length tail)) by (unfold k; lia).
  change (length (first :: tail)) with (S (length tail)).
  assert (0 < inject_Z (Z.of_nat (S (length tail)))) as Hpos
      by (apply inject_nat_pos; lia).
  field. lra.
Qed.

(** X7. An upcoming final with at most eight named entries adds to the
    projections exactly the table points of the places 1 to n, n the number
    of named entries: ties share the points of their places and nothing is
    lost or paid twice. *)
Theorem projection_pays_places_once (pr : dict Q) (event : MeetEvent.t) :
  (named_count event <= 8)%nat ->
  sum_Q (dict_values (project_event table pr event))
  == sum_Q (dict_values pr)
     + inject_Z (top_places_total table (named_count event)).
Proof.
  intros Hn. unfold project_event.
  rewrite project_walk_awards, credit_fold_sum.
  assert (length (_rank_entries_by_seed event) = named_count event) as Hlen.
  { unfold named_count. rewrite <- (length_map snd).
    apply Permutation_length, ranked_entries_perm. }
  rewrite walk_awards_sum by lia.
  rewrite Hlen. unfold top_places_total.
  replace (Z.min (Z.of_nat (named_count event)) 8 + 1)%Z
    with (1 + Z.of_nat (named_count event))%Z by lia.
  reflexivity.
Qed.

End ProjectorMore.

(** Team B on [relay_day]. *)
Lemma projection_keeps_teams_above_actual_witness :
  valid_table standard_place_points = true /\
  NoDup (dict_keys relay_actual) /\
  (exists ts, dict_get relay_actual "B" = Some ts /\
   exists v,
     dict_get (compute_seed_projection standard_place_points
                                       spec_get_upcoming_finals
                                       relay_actual relay_day Gender.MEN) "B"
     = Some v /\
     inject_Z (TeamScore.actual_points ts) <= v).
Proof.
  assert (NoDup (dict_keys relay_actual)) as Hnd by apply actual_scores_nodup.
  split; [reflexivity|]. split; [exact Hnd|].
  eexists. split; [reflexivity|].
  destruct (@projection_keeps_teams_above_actual
              standard_place_points spec_get_upcoming_finals eq_refl
              relay_actual relay_day Gender.MEN "B"%string _ Hnd eq_refl)
    as (v & Hv & Hle & _).
  exists v. split; [exact Hv|exact Hle].
Defined.

(** The two entrants of [photo_finish]. *)
Lemma two_way_tie_splits_first_two_places_witness :
  valid_table standard_place_points = true /\
  _rank_entries_by_seed photo_finish
  = [(0%nat, seeded "Ann" "A" (Some "7.00"%string));
     (1%nat, seeded "Bob" "B" (Some "7.0005"%string))] /\
  exists avg,
    avg == 9 /\
    project_event standard_place_points [] photo_finish
    = dict_add_Q (dict_add_Q [] "A" avg) "B" avg.
Proof.
  split; [reflexivity|]. split; [reflexivity|].
  destruct (@two_way_tie_splits_first_two_places
              standard_place_points eq_refl photo_finish
              (0%nat, seeded "Ann" "A" (Some "7.00"%string))
              (1%nat, seeded "Bob" "B" (Some "7.0005"%string)) []
              eq_refl eq_refl)
    as (p1 & p2 & avg & H1 & H2 & Havg & Hpr).
  exists avg. split; [|exact Hpr].
  injection H1 as <-. injection H2 as <-. rewrite Havg. reflexivity.
Defined.

(** The upcoming final of [relay_day], with three named entries. *)
Lemma projection_pays_places_once_witness :
  valid_table standard_place_points = true /\
  (named_count dash_final <= 8)%nat /\
  sum_Q (dict_values (project_event standard_place_points [] dash_final))
  == 0 + inject_Z (top_places_total standard_place_points
                                    (named_count dash_final)).
Proof.
  assert (named_count dash_final <= 8)%nat as H by (vm_compute; lia).
  split; [reflexivity|]. split; [exact H|].
  apply (@projection_pays_places_once standard_place_points eq_refl []
                                      dash_final H).
Defined.

(** *** Simulator: range of the result, edge of the iteration count, draws *)

Lemma length_without (A : Type) (l : list A) (i : nat) (x : A) :
  nth_error l i = Some x ->
  length (firstn i l ++ skipn (S i) l) = (length l - 1)%nat.
Proof.
  intros H.
  assert (i < length l)%nat as Hi by (apply nth_error_Some; congruence).
  rewrite length_app, length_firstn, length_skipn. lia.
Qed.

Lemma tabulate_keys (V : Type) (g : string -> V) (l : list string) :
  dict_keys (map (fun t => (t, g t)) l) = l.
Proof.
  unfold dict_keys. rewrite map_map. cbn [fst]. apply map_id.
Qed.

Section SimulatorMore.

Variable table : list (Z * Z).
Variable get_upcoming_finals : MeetState.t -> Gender.t -> list MeetEvent.t.
Variable random_draws : nat -> Q.

Lemma event_data_positive (events : list MeetEvent.t) :
  exists event_data,
    map_result event_probs events = Ok event_data /\
    Forall2 (fun e ed => map fst ed = map snd (_rank_entries_by_seed e) /\
                         length ed = named_count e /\
                         forall ep, In ep ed -> 0 < snd ep)
            events event_data.
Proof.
  apply map_result_ok. intros e _.
  destruct (event_probs_ok e) as (probs & Hp & Hlen & Hpos).
  eexists. split; [exact Hp|].
  assert (length (map snd (_rank_entries_by_seed e)) = length probs) as Hl
      by (rewrite length_map; auto).
  split; [now apply combine_fst|]. split.
  - rewrite length_combine, <- Hl, Nat.min_id.
    unfold named_count. apply Permutation_length, ranked_entries_perm.
  - intros ep Hin. apply Hpos.
    rewrite <- (combine_snd _ _ Hl). now apply in_map.
Qed.

(** X8. When an upcoming final has entries, the simulator returns a map with
    distinct keys in which every probability is above 0 and at most 1, and
    every key is a team of the actual-scores map or the team of a named
    entrant of an upcoming final. *)
Theorem simulated_shares_are_positive_fractions
        (actual : dict TeamScore.t) (state : MeetState.t) (gender : Gender.t)
        (n_iterations : Z) :
  upcoming_with_entries get_upcoming_finals state gender <> [] ->
  exists m,
    compute_win_probability table get_upcoming_finals random_draws
                            actual state gender n_iterations = Ok m /\
    NoDup (dict_keys m) /\
    forall t v,
      dict_get m t = Some v ->
      0 < v /\ v <= 1 /\
      (In t (dict_keys actual) \/
       has_named_entrant get_upcoming_finals state gender t).
Proof.
  intros Hup.
  destruct (event_data_positive
              (upcoming_with_entries get_upcoming_finals state gender))
    as (event_data & Hed & HF).
  set (teams := simulation_teams actual event_data).
  destruct (@run_trials_ok table random_draws (Z.to_nat n_iterations) actual
                           teams event_data (O, []))
    as (d & wc & Hrun & _ & Hnn & _ & _).
  { intros ed k Hed' Hk. apply simulation_teams_in. eauto. }
  cbn [snd] in *.
  assert (nonneg_values wc) as Hnn' by (apply Hnn; intros v []).
  eexists. split; [|split].
  - unfold compute_win_probability.
    destruct (upcoming_with_entries get_upcoming_finals state gender) eqn:E;
      [congruence|].
    rewrite Hed. cbn [bind]. fold teams. rewrite Hrun. cbn [bind snd].
    apply normalise_credit_ok, Hnn'.
  - rewrite tabulate_keys. apply NoDup_filter, simulation_teams_nodup.
  - intros t v Hv. rewrite dict_get_tabulate in Hv.
    destruct (set_mem _ t) eqn:E; [|discriminate]. injection Hv as <-.
    apply set_mem_true, filter_In in E as [Hin E]. apply Qltb_true in E.
    assert (dict_get_default wc t 0 <= sum_Q (dict_values wc)) as Hle.
    { unfold dict_get_default in *.
      destruct (dict_get wc t) as [x|] eqn:Eg; [|lra].
      apply sum_Q_ge_member; [exact Hnn'|].
      apply dict_get_some_in in Eg. unfold dict_values.
      change x with (snd (t, x)). now apply in_map. }
    split; [|split].
    + apply Qlt_shift_div_l; lra.
    + apply Qle_shift_div_r; lra.
    + apply simulation_teams_in in Hin as [Hin|(ed & Hed' & Ht)]; [now left|].
      right.
      destruct (@Forall2_in_right _ _ _ _ _ ed HF Hed') as (e & He & Hfst & _).
      unfold teams_of in Ht. rewrite <- (map_map fst entry_team), Hfst in Ht.
      apply in_map_iff in Ht as (entry & Hteam & Hentry).
      apply (Permutation_in _ (ranked_entries_perm e)), filter_In in Hentry
        as [Hentry Hnamed].
      apply filter_In in He as [He _].
      exists e, entry. auto.
Qed.

(** X9. With an upcoming final that has entries, an iteration count of zero
    or below runs no trial and the result is the empty map: no share is
    computed, and the zero total is never divided by. *)
Theorem no_iterations_no_probabilities
        (actual : dict TeamScore.t) (state : MeetState.t) (gender : Gender.t)
        (n_iterations : Z) :
  (n_iterations <= 0)%Z ->
  upcoming_with_entries get_upcoming_finals state gender <> [] ->
  compute_win_probability table get_upcoming_finals random_draws
                          actual state gender n_iterations = Ok [].
Proof.
  intros Hn Hup.
  destruct (event_data_positive
              (upcoming_with_entries get_upcoming_finals state gender))
    as (event_data & Hed & _).
  unfold compute_win_probability.
  destruct (upcoming_with_entries get_upcoming_finals state gender) eqn:E;
    [congruence|].
  rewrite Hed. cbn [bind].
  replace (Z.to_nat n_iterations) with O by lia.
  cbn [run_trials bind snd].
  induction (simulation_teams actual event_data) as [|tm tms IH];
    [reflexivity|].
  cbn [normalise_credit]. exact IH.
Qed.

Lemma place_loop_draws (fuel : nat) (remaining : list (EventEntry.t * Q))
      (place : Z) (draws : nat) (sim : dict Z) (draws' : nat) (sim' : dict Z) :
  (length remaining <= fuel)%nat -> (1 <= place <= 9)%Z ->
  (forall ep, In ep remaining -> 0 < snd ep) ->
  place_loop table random_draws fuel remaining place draws sim
  = Ok (draws', sim') ->
  draws' = (draws + Nat.min (length remaining) (Z.to_nat (9 - place)))%nat.
Proof.
  revert remaining place draws sim.
  induction fuel as [|fuel IH]; intros remaining place draws sim Hf Hp Hpos H.
  { destruct remaining; [|simpl in Hf; lia]. cbn [place_loop] in H.
    injection H as <- _. simpl. lia. }
  destruct remaining as [|ep0 rest].
  { cbn [place_loop] in H. injection H as <- _. simpl. lia. }
  cbn [place_loop] in H.
  destruct (place >? 8)%Z eqn:Ep.
  { injection H as <- _. replace (Z.to_nat (9 - place)) with O by lia. lia. }
  set (remaining := ep0 :: rest) in *.
  assert (0 < sum_Q (map snd remaining)) as Htot.
  { apply sum_Q_pos; [discriminate|].
    intros x Hx. apply in_map_iff in Hx as (ep & <- & Hep). auto. }
  destruct (Qle_bool (sum_Q (map snd remaining)) 0) eqn:Eq.
  { apply Qle_bool_iff in Eq. lra. }
  unfold list_pop in H.
  destruct (nth_error remaining _) as [x|] eqn:En; [|discriminate].
  cbn [bind fst snd] in H.
  pose proof (length_without _ _ En) as Hlen.
  apply IH in H.
  - rewrite H, Hlen. unfold remaining in *. cbn [length] in *. lia.
  - rewrite Hlen. unfold remaining in *. cbn [length] in *. lia.
  - lia.
  - intros ep Hep. apply Hpos. eapply in_without, Hep.
Qed.

Lemma simulate_events_draws (event_data : list (list (EventEntry.t * Q)))
      (st : nat * dict Z) (draws' : nat) (sim' : dict Z) :
  (forall ed ep, In ed event_data -> In ep ed -> 0 < snd ep) ->
  simulate_events table random_draws event_data st = Ok (draws', sim') ->
  draws' = (fst st
            + fold_right (fun ed acc => Nat.min (length ed) 8 + acc) O
                         event_data)%nat.
Proof.
  revert st. induction event_data as [|ed rest IH]; intros st Hpos H.
  { cbn [simulate_events] in H. injection H as ->. simpl. lia. }
  cbn [simulate_events] in H. unfold simulate_event in H.
  destruct (place_loop table random_draws (length ed) ed 1 (fst st) (snd st))
    as [[d1 s1]|] eqn:El; [|discriminate].
  cbn [bind] in H.
  apply place_loop_draws in El; [|lia|lia|intros ep Hep; apply (Hpos ed); simpl; auto].
  apply IH in H; [|intros ed' ep Hed' Hep; apply (Hpos ed'); simpl; auto].
  cbn [fst fold_right] in *. rewrite H, El.
  replace (Z.to_nat (9 - 1)) with 8%nat by reflexivity. lia.
Qed.

Lemma run_trials_draws (n : nat) (actual : dict TeamScore.t)
      (all_teams : list string)
      (event_data : list (list (EventEntry.t * Q)))
      (st : nat * dict Q) (draws' : nat) (wc' : dict Q) :
  (forall ed ep, In ed event_data -> In ep ed -> 0 < snd ep) ->
  run_trials table random_draws n actual all_teams event_data st
  = Ok (draws', wc') ->
  draws' = (fst st
            + n * fold_right (fun ed acc => Nat.min (length ed) 8 + acc) O
                             event_data)%nat.
Proof.
  intros Hpos. revert st.
  induction n as [|n IH]; intros st H.
  { cbn [run_trials] in H. injection H as ->. simpl. lia. }
  cbn [run_trials] in H. unfold run_trial in H.
  destruct (simulate_events table random_draws event_data _)
    as [[d1 s1]|] eqn:Es; [|discriminate].
  cbn [bind fst snd] in H.
  apply simulate_events_draws in Es; [|exact Hpos]. cbn [fst] in Es.
  destruct (match s1 with [] => Ok 0%Z | _ => py_max (dict_values s1) end)
    as [mx|]; [|discriminate].
  cbn [bind] in H.
  destruct (credit_leaders _ _ (snd st)) as [wc1|]; [|discriminate].
  cbn [bind] in H. apply IH in H. cbn [fst] in H. lia.
Qed.

(** X10. Whatever the draws are, the trials of one call read the same number
    of them: for each trial and each upcoming final with entries, one draw
    per named entrant up to eight. *)
Theorem simulation_reads_fixed_number_of_draws
        (actual : dict TeamScore.t) (state : MeetState.t) (gender : Gender.t)
        (n_iterations : Z) :
  exists event_data draws win_counts,
    map_result event_probs (upcoming_with_entries get_upcoming_finals state gender)
    = Ok event_data /\
    run_trials table random_draws (Z.to_nat n_iterations) actual
               (simulation_teams actual event_data) event_data (O, [])
    = Ok (draws, win_counts) /\
    draws = (Z.to_nat n_iterations
             * draws_per_trial
                 (upcoming_with_entries get_upcoming_finals state gender))%nat.
Proof.
  destruct (event_data_positive
              (upcoming_with_entries get_upcoming_finals state gender))
    as (event_data & Hed & HF).
  destruct (@run_trials_ok table random_draws (Z.to_nat n_iterations) actual
                           (simulation_teams actual event_data) event_data
                           (O, []))
    as (d & wc & Hrun & _).
  { intros ed k Hed' Hk. apply simulation_teams_in. eauto. }
  exists event_data, d, wc. split; [exact Hed|]. split; [exact Hrun|].
  apply run_trials_draws in Hrun.
  2:{ intros ed ep Hed' Hep.
      destruct (@Forall2_in_right _ _ _ _ _ ed HF Hed') as (e & _ & _ & _ & Hpos). auto. }
  cbn [fst] in Hrun. rewrite Hrun.
  assert (fold_right (fun (ed : list (EventEntry.t * Q)) acc =>
                        (Nat.min (length ed) 8 + acc)%nat) O event_data
          = draws_per_trial
              (upcoming_with_entries get_upcoming_finals state gender)) as ->;
    [|lia].
  clear - HF. induction HF as [|e ed es eds (_ & Hlen & _) HF IH];
    [reflexivity|].
  unfold draws_per_trial in *. cbn [fold_right].
  rewrite IH, Hlen. reflexivity.
Qed.

End SimulatorMore.

(** The three-entrant final of [dash_meet], one trial. *)
Lemma simulated_shares_are_positive_fractions_witness :
  upcoming_with_entries spec_get_upcoming_finals dash_meet Gender.MEN <> [] /\
  exists m,
    compute_win_probability standard_place_points spec_get_upcoming_finals
                            half_draws [] dash_meet Gender.MEN 1 = Ok m /\
    NoDup (dict_keys m).
Proof.
  assert (upcoming_with_entries spec_get_upcoming_finals dash_meet Gender.MEN
          <> []) as H by (vm_compute; discriminate).
  split; [exact H|].
  destruct (@simulated_shares_are_positive_fractions
              standard_place_points spec_get_upcoming_finals half_draws
              [] dash_meet Gender.MEN 1 H) as (m & Hm & Hnd & _).
  exists m. split; [exact Hm|exact Hnd].
Defined.

(** [dash_meet] with an iteration count of zero. *)
Lemma no_iterations_no_probabilities_witness :
  (0 <= 0)%Z /\
  upcoming_with_entries spec_get_upcoming_finals dash_meet Gender.MEN <> [] /\
  compute_win_probability standard_place_points spec_get_upcoming_finals
                          half_draws [] dash_meet Gender.MEN 0 = Ok [].
Proof.
  assert (upcoming_with_entries spec_get_upcoming_finals dash_meet Gender.MEN
          <> []) as H by (vm_compute; discriminate).
  split; [lia|]. split; [exact H|].
  apply (@no_iterations_no_probabilities
           standard_place_points spec_get_upcoming_finals half_draws
           [] dash_meet Gender.MEN 0); [lia|exact H].
Defined.

(** *** Scenario builder: totals and rows *)

Lemma team_entries_indexed (team : string) (event : MeetEvent.t) :
  map snd (filter (on_team team) (indexed_entries event))
  = team_entries_of team event.
Proof.
  unfold on_team, team_entries_of.
  rewrite (filter_map_snd (fun e => String.eqb (entry_team e) team)).
  now rewrite indexed_entries_snd.
Qed.

Lemma Forall2_map_both (A B C : Type) (P : B -> C -> Prop) (f : A -> B)
      (g : A -> C) (l : list A) :
  (forall x, In x l -> P (f x) (g x)) -> Forall2 P (map f l) (map g l).
Proof.
  induction l as [|x l IH]; intros H; simpl; constructor.
  - apply H. now left.
  - apply IH. intros y Hy. apply H. now right.
Qed.

Lemma seeds_hold_details (table : list (Z * Z)) (rank_map : list (nat * Z))
      (team_entries : list (nat * EventEntry.t)) :
  snd (seeds_hold table rank_map team_entries)
  = map (fun ie =>
           EntryDetail.mk (Athlete.name (EventEntry.athlete (snd ie)))
                          (seed_mark_text (snd ie))
                          (rank_map_get rank_map (fst ie) 9)
                          (points_or_zero table
                                          (rank_map_get rank_map (fst ie) 9)))
        team_entries.
Proof.
  unfold seeds_hold.
  assert (forall l acc,
             snd (fold_left
                    (fun (acc : Z * list EntryDetail.t) (ie : nat * EventEntry.t) =>
                       ((fst acc
                         + points_or_zero table
                             (rank_map_get rank_map (fst ie) 9))%Z,
                        snd acc ++
                          [EntryDetail.mk
                             (Athlete.name (EventEntry.athlete (snd ie)))
                             (seed_mark_text (snd ie))
                             (rank_map_get rank_map (fst ie) 9)
                             (points_or_zero table
                                (rank_map_get rank_map (fst ie) 9))]))
                    l acc)
             = snd acc ++
               map (fun ie =>
                      EntryDetail.mk (Athlete.name (EventEntry.athlete (snd ie)))
                                     (seed_mark_text (snd ie))
                                     (rank_map_get rank_map (fst ie) 9)
                                     (points_or_zero table
                                        (rank_map_get rank_map (fst ie) 9)))
                   l) as H.
  { induction l as [|x l IH]; intros acc; simpl; [now rewrite app_nil_r|].
    rewrite IH. simpl. now rewrite <- app_assoc. }
  rewrite H. reflexivity.
Qed.

Section ScenarioMore.

Variable table : list (Z * Z).
Variable get_upcoming_finals : MeetState.t -> Gender.t -> list MeetEvent.t.
Hypothesis table_ok : valid_table table = true.

Lemma scenario_event_row (team : string) (a b c : Z)
      (bd : list EventBreakdown.t) (event : MeetEvent.t) :
  scenario_event table team (a, b, c, bd) event
  = if team_entered team event
    then let row := scenario_row table team event in
         ((a + EventBreakdown.scenario_a_pts row)%Z,
          (b + EventBreakdown.scenario_b_pts row)%Z, c, bd ++ [row])
    else (a, b, c, bd).
Proof.
  unfold scenario_event, team_entered, scenario_row.
  rewrite <- team_entries_indexed. unfold on_team.
  destruct (filter (fun ie : nat * EventEntry.t =>
                      String.eqb (entry_team (snd ie)) team)
                   (indexed_entries event)) as [|x l] eqn:E;
    [reflexivity|].
  rewrite <- E. cbn [map].
  destruct (seeds_hold table (build_rank_map (_rank_entries_by_seed event) 0 [])
                       (filter (fun ie : nat * EventEntry.t =>
                                  String.eqb (entry_team (snd ie)) team)
                               (indexed_entries event)))
    as [a_pts details].
  cbn [fst snd EventBreakdown.scenario_a_pts EventBreakdown.scenario_b_pts].
  rewrite E. cbn [map]. rewrite <- E.
  do 3 f_equal. lia.
Qed.

Lemma scenario_fold_rows (team : string) (events : list MeetEvent.t)
      (a b c : Z) (bd : list EventBreakdown.t) :
  let rows := map (scenario_row table team)
                  (filter (team_entered team) events) in
  fold_left (scenario_event table team) events (a, b, c, bd)
  = ((a + sum_Z (map EventBreakdown.scenario_a_pts rows))%Z,
     (b + sum_Z (map EventBreakdown.scenario_b_pts rows))%Z,
     c, bd ++ rows).
Proof.
  revert a b c bd. induction events as [|e events IH]; intros a b c bd.
  { cbn. rewrite app_nil_r. do 3 f_equal; lia. }
  cbn [fold_left filter]. rewrite scenario_event_row.
  destruct (team_entered team e).
  - cbv zeta. rewrite IH. cbn [map]. rewrite <- app_assoc. cbn [app].
    unfold sum_Z. cbn [fold_right]. do 3 f_equal; lia.
  - apply IH.
Qed.

Lemma scenario_row_ordered (team : string) (event : MeetEvent.t) :
  (0 <= EventBreakdown.scenario_a_pts (scenario_row table team event)
   <= EventBreakdown.scenario_b_pts (scenario_row table team event))%Z.
Proof.
  exact (@event_scenarios_ordered table table_ok team event).
Qed.

(** X11. The seeds-hold and best-case totals of the scenario builder are the
    current points plus the seeds-hold and best-case points of the rows of
    the breakdown, so current <= seeds hold <= best case; a team entered
    in no upcoming final gets no row and three equal totals. *)
Theorem scenario_totals_add_up
        (team : string) (actual : dict TeamScore.t) (state : MeetState.t)
        (gender : Gender.t) :
  let r := compute_team_scenarios table get_upcoming_finals team actual
                                  state gender in
  Scenarios.scenario_a r
  = (Scenarios.current r
     + sum_Z (map EventBreakdown.scenario_a_pts (Scenarios.breakdown r)))%Z /\
  Scenarios.scenario_b r
  = (Scenarios.current r
     + sum_Z (map EventBreakdown.scenario_b_pts (Scenarios.breakdown r)))%Z /\
  (Scenarios.current r <= Scenarios.scenario_a r <= Scenarios.scenario_b r)%Z /\
  ((forall event, In event (get_upcoming_finals state gender) ->
                  team_entered team event = false) ->
   Scenarios.breakdown r = [] /\
   Scenarios.scenario_a r = Scenarios.current r /\
   Scenarios.scenario_b r = Scenarios.current r).
Proof.
  unfold compute_team_scenarios. rewrite scenario_fold_rows.
  cbn [Scenarios.scenario_a Scenarios.scenario_b Scenarios.current
       Scenarios.breakdown app].
  set (events := filter (team_entered team) (get_upcoming_finals state gender)).
  assert (0 <= sum_Z (map EventBreakdown.scenario_a_pts
                          (map (scenario_row table team) events))
          <= sum_Z (map EventBreakdown.scenario_b_pts
                        (map (scenario_row table team) events)))%Z as Hord.
  { induction events as [|e es IH]; cbn [map]; unfold sum_Z in *;
      cbn [fold_right]; [lia|].
    pose proof (scenario_row_ordered team e). lia. }
  split; [lia|]. split; [lia|]. split; [lia|].
  intros Hno.
  assert (forall l : list MeetEvent.t,
             (forall event, In event l -> team_entered team event = false) ->
             filter (team_entered team) l = []) as Hnone.
  { induction l as [|e es IH]; intros H; [reflexivity|].
    cbn [filter]. rewrite (H e) by (now left).
    apply IH. intros e' He'. apply H. now right. }
  unfold events. rewrite (Hnone _ Hno).
  cbn [map]. unfold sum_Z. cbn [fold_right].
  split; [reflexivity|]. split; lia.
Qed.

Lemma ranked_place (event : MeetEvent.t) (ie : nat * EventEntry.t) :
  In ie (indexed_entries event) ->
  let place := rank_map_get (build_rank_map (_rank_entries_by_seed event) 0 [])
                            (fst ie) 9 in
  if entry_named (snd ie)
  then exists j,
         nth_error (_rank_entries_by_seed event) j = Some ie /\
         place = (Z.of_nat j + 1)%Z
  else place = 9%Z.
Proof.
  intros Hin. cbv zeta.
  rewrite build_rank_map_get by apply ranked_nodup.
  destruct (entry_named (snd ie)) eqn:En.
  - assert (In ie (_rank_entries_by_seed event)) as Hr.
    { apply (Permutation_in _ (Permutation_sym (ranked_perm_indexed event))).
      apply filter_In. auto. }
    apply In_nth_error in Hr as [j Hj].
    rewrite (@index_of_nth _ (_rank_entries_by_seed event) j ie
                           (ranked_nodup event) Hj).
    exists j. split; [exact Hj|lia].
  - destruct (index_of (fst ie) (map fst (_rank_entries_by_seed event)))
      as [j|] eqn:Ei; [exfalso|reflexivity].
    assert (In (fst ie) (map fst (_rank_entries_by_seed event))) as Hk.
    { destruct (in_dec Nat.eq_dec (fst ie)
                       (map fst (_rank_entries_by_seed event))) as [H|H];
        [exact H|].
      apply index_of_none in H. congruence. }
    apply in_map_iff in Hk as (ie' & Hfst & Hr).
    apply (Permutation_in _ (ranked_perm_indexed event)), filter_In in Hr
      as [Hr Hnamed].
    assert (ie' = ie) as ->
        by (apply (@nodup_fst_injective _ (indexed_entries event));
            auto using indexed_entries_nodup).
    congruence.
Qed.

(** X12. The breakdown has one row for each upcoming final in which the team
    has an entry, in the order of the finals and under the name of the
    final.  A row lists one detail for each entry of the team, in the order
    of the entries; its seeds-hold points are the sum of the points of its
    details; a named entry is listed at its rank, that is one more than its
    index in the ranking of the final, and an unnamed entry at place 9 with
    0 points. *)
Theorem scenario_rows_list_team_entries
        (team : string) (actual : dict TeamScore.t) (state : MeetState.t)
        (gender : Gender.t) :
  Forall2
    (fun event row =>
       EventBreakdown.event row = MeetEvent.event_name event /\
       EventBreakdown.scenario_a_pts row
       = sum_Z (map EntryDetail.seed_pts (EventBreakdown.athletes row)) /\
       map snd (filter (on_team team) (indexed_entries event))
       = team_entries_of team event /\
       Forall2 (detail_matches table event)
               (filter (on_team team) (indexed_entries event))
               (EventBreakdown.athletes row))
    (filter (team_entered team) (get_upcoming_finals state gender))
    (Scenarios.breakdown
       (compute_team_scenarios table get_upcoming_finals team actual
                               state gender)).
Proof.
  unfold compute_team_scenarios. rewrite scenario_fold_rows.
  cbn [Scenarios.breakdown app].
  induction (filter (team_entered team) (get_upcoming_finals state gender))
    as [|e es IH]; cbn [map]; constructor; [|exact IH].
  unfold scenario_row.
  cbn [EventBreakdown.event EventBreakdown.scenario_a_pts
       EventBreakdown.athletes].
  split; [reflexivity|].
  rewrite seeds_hold_sum, seeds_hold_details by auto.
  split; [|split].
  - rewrite map_map. reflexivity.
  - apply team_entries_indexed.
  - rewrite <- (map_id (filter (on_team team) (indexed_entries e))) at 1.
    apply Forall2_map_both. intros ie Hie.
    apply filter_In in Hie as [Hie _].
    pose proof (ranked_place e ie Hie) as Hp. cbv zeta in Hp.
    unfold detail_matches.
    cbn [EntryDetail.athlete EntryDetail.seed_mark EntryDetail.proj_place
         EntryDetail.seed_pts].
    split; [reflexivity|]. split; [reflexivity|]. split; [reflexivity|].
    destruct (entry_named (snd ie)); [exact Hp|].
    split; [exact Hp|]. rewrite Hp.
    apply points_or_zero_outside; [exact table_ok|lia].
Qed.

End ScenarioMore.

(** The scenarios of team B on [relay_day]. *)
Lemma scenario_totals_add_up_witness :
  valid_table standard_place_points = true /\
  let r := compute_team_scenarios standard_place_points spec_get_upcoming_finals
                                  "B" relay_actual relay_day Gender.MEN in
  (Scenarios.current r <= Scenarios.scenario_a r <= Scenarios.scenario_b r)%Z.
Proof.
  split; [reflexivity|].
  apply (@scenario_totals_add_up
           standard_place_points spec_get_upcoming_finals eq_refl
           "B"%string relay_actual relay_day Gender.MEN).
Defined.

(** The rows of team A on [relay_day]. *)
Lemma scenario_rows_list_team_entries_witness :
  valid_table standard_place_points = true /\
  Forall2
    (fun event row =>
       EventBreakdown.event row = MeetEvent.event_name event /\
       EventBreakdown.scenario_a_pts row
       = sum_Z (map EntryDetail.seed_pts (EventBreakdown.athletes row)) /\
       map snd (filter (on_team "A") (indexed_entries event))
       = team_entries_of "A" event /\
       Forall2 (detail_matches standard_place_points event)
               (filter (on_team "A") (indexed_entries event))
               (EventBreakdown.athletes row))
    (filter (team_entered "A") (spec_get_upcoming_finals relay_day Gender.MEN))
    (Scenarios.breakdown
       (compute_team_scenarios standard_place_points spec_get_upcoming_finals
                               "A" relay_actual relay_day Gender.MEN)).
Proof.
  split; [reflexivity|].
  apply (@scenario_rows_list_team_entries
           standard_place_points spec_get_upcoming_finals eq_refl
           "A"%string relay_actual relay_day Gender.MEN).
Defined.

(** *** Orchestrator: the rows of the report *)

Lemma sorted_insert_descending (A : Type) (key : A -> Z) (x : A) (l : list A) :
  StronglySorted (fun a b => (key b <= key a)%Z) l ->
  StronglySorted (fun a b => (key b <= key a)%Z)
                 (sorted_insert (fun a b => (key b <? key a)%Z) x l).
Proof.
  induction 1 as [|y t Hsorted IH Hall]; cbn [sorted_insert].
  - constructor; constructor.
  - destruct (key x <? key y)%Z eqn:E.
    + constructor; [exact IH|].
      apply Forall_forall. intros z Hz.
      apply sorted_insert_in in Hz as [-> |Hz]; [lia|].
      rewrite Forall_forall in Hall. auto.
    + constructor; [constructor; assumption|].
      constructor; [lia|].
      rewrite Forall_forall in *. intros z Hz.
      specialize (Hall z Hz). lia.
Qed.

Lemma sorted_descending (A : Type) (key : A -> Z) (l : list A) :
  StronglySorted (fun a b => (key b <= key a)%Z)
                 (sorted (fun a b => (key b <? key a)%Z) l).
Proof.
  induction l as [|x l IH]; cbn [sorted]; [constructor|].
  now apply sorted_insert_descending.
Qed.

Lemma py_int_lower (q : Q) (z : Z) : inject_Z z <= q -> (z <= py_int q)%Z.
Proof.
  destruct q as [n d]. unfold Qle, py_int. cbn [Qnum Qden inject_Z].
  intros H. rewrite Z.mul_1_r in H.
  destruct (Z_le_gt_dec 0 n) as [Hn|Hn].
  - rewrite Z.quot_div_nonneg by lia.
    apply Z.div_le_lower_bound; lia.
  - replace n with (- (- n))%Z by lia.
    rewrite Z.quot_opp_l by lia.
    rewrite Z.quot_div_nonneg by lia.
    assert (- n / Z.pos d <= - z)%Z; [|lia].
    apply Z.div_le_upper_bound; lia.
Qed.

Lemma py_round1_range (x : Q) : 0 <= x <= 100 -> 0 <= py_round1 x <= 100.
Proof.
  intros [H0 H100]. unfold py_round1.
  set (y := x * 10). set (f := Qfloor y).
  assert (0 <= y <= 1000) as [Hy0 Hy1] by (unfold y; lra).
  assert (0 <= f)%Z as Hf0.
  { rewrite <- (Qfloor_Z 0). now apply Qfloor_resp_le. }
  assert (f <= 1000)%Z as Hf1.
  { rewrite <- (Qfloor_Z 1000). now apply Qfloor_resp_le. }
  assert (inject_Z f <= y) as Hfy by apply Qfloor_le.
  assert (1 # 2 <= y - inject_Z f -> (f + 1 <= 1000)%Z) as Hup.
  { intros Hd.
    destruct (Z_le_gt_dec (f + 1) 1000) as [Hle|Hgt]; [exact Hle|exfalso].
    assert (f = 1000)%Z as Hf by lia.
    rewrite Hf in Hd. change (inject_Z 1000) with 1000 in Hd. lra. }
  set (n := match y - inject_Z f ?= 1 # 2 with
            | Lt => f
            | Gt => (f + 1)%Z
            | Eq => if Z.even f then f else (f + 1)%Z
            end).
  assert (0 <= n <= 1000)%Z as [Hn0 Hn1].
  { unfold n. destruct (y - inject_Z f ?= 1 # 2) eqn:E.
    - apply Qeq_alt in E. destruct (Z.even f); [lia|].
      split; [lia|]. apply Hup. lra.
    - lia.
    - apply Qgt_alt in E. split; [lia|]. apply Hup. lra. }
  rewrite Zle_Qle in Hn0, Hn1.
  change (inject_Z 0) with 0 in Hn0. change (inject_Z 1000) with 1000 in Hn1.
  split.
  - apply Qle_shift_div_l; lra.
  - apply Qle_shift_div_r; lra.
Qed.

Lemma unit_share (n : nat) :
  (0 < n)%nat -> 0 <= 1 / inject_Z (Z.of_nat n) <= 1.
Proof.
  intros Hn. pose proof (inject_nat_pos Hn) as Hpos.
  assert (1 <= inject_Z (Z.of_nat n)) as H1.
  { change 1 with (inject_Z 1). rewrite <- Zle_Qle. lia. }
  split.
  - apply Qle_shift_div_l; lra.
  - apply Qle_shift_div_r; lra.
Qed.

Lemma current_leaders_range (actual : dict TeamScore.t) :
  exists m,
    current_leaders actual = Ok m /\
    forall t v, dict_get m t = Some v -> 0 <= v <= 1.
Proof.
  unfold current_leaders.
  destruct actual as [|kv0 rest] eqn:Hact.
  { exists []. split; [reflexivity|]. intros t v. discriminate. }
  rewrite <- Hact.
  destruct (@py_max_spec (map TeamScore.actual_points (dict_values actual)))
    as (mx & Hmax & _).
  { rewrite Hact. discriminate. }
  rewrite Hmax. cbn [bind].
  set (winners := dict_keys
                    (filter (fun kv => (TeamScore.actual_points (snd kv) =? mx)%Z)
                            actual)).
  set (share := 1 / inject_Z (Z.of_nat (length winners))).
  set (g := fun kv : string * TeamScore.t =>
              if set_mem winners (fst kv) then share else 0).
  erewrite map_result_total with (g := fun kv => (fst kv, g kv)).
  2:{ intros [t ts] Hin. unfold g. cbn [fst].
      destruct (set_mem winners t) eqn:E; [|reflexivity].
      apply set_mem_true in E. unfold py_div.
      destruct winners as [|w ws]; [destruct E|]. reflexivity. }
  eexists. split; [reflexivity|].
  intros t v Hv. apply dict_get_some_in, in_map_iff in Hv as (kv & Heq & _).
  injection Heq as _ <-. unfold g.
  destruct (set_mem winners (fst kv)) eqn:E; [|lra].
  apply set_mem_true in E. unfold share. apply unit_share.
  destruct winners; [destruct E|simpl; lia].
Qed.

Section OrchestratorProperties.

Variable table : list (Z * Z).
Variable get_completed_finals : MeetState.t -> Gender.t -> list MeetEvent.t.
Variable get_upcoming_finals : MeetState.t -> Gender.t -> list MeetEvent.t.
Variable random_draws : nat -> Q.
Variable iterations : Z.
Hypothesis table_ok : valid_table table = true.

Lemma win_probability_range (actual : dict TeamScore.t) (state : MeetState.t)
      (gender : Gender.t) :
  exists m,
    compute_win_probability table get_upcoming_finals random_draws
                            actual state gender iterations = Ok m /\
    forall t v, dict_get m t = Some v -> 0 <= v <= 1.
Proof.
  unfold compute_win_probability.
  destruct (upcoming_with_entries get_upcoming_finals state gender)
    as [|ev evs]; [apply current_leaders_range|].
  destruct (@map_result_ok _ _ event_probs (fun _ _ => True) (ev :: evs))
    as (event_data & Hed & _).
  { intros e _. destruct (event_probs_ok e) as (probs & Hp & _). eauto. }
  rewrite Hed. cbn [bind].
  destruct (@run_trials_ok table random_draws (Z.to_nat iterations) actual
                           (simulation_teams actual event_data) event_data
                           (O, []))
    as (d & wc & Hrun & _ & Hnn & _).
  { intros ed k Hed' Hk. apply simulation_teams_in. eauto. }
  rewrite Hrun. cbn [bind snd] in *.
  assert (nonneg_values wc) as Hnn' by (apply Hnn; intros v []).
  rewrite normalise_credit_ok by exact Hnn'.
  eexists. split; [reflexivity|].
  intros t v Hv. rewrite dict_get_tabulate in Hv.
  destruct (set_mem _ t) eqn:E; [|discriminate]. injection Hv as <-.
  apply set_mem_true, filter_In in E as [_ E]. apply Qltb_true in E.
  assert (dict_get_default wc t 0 <= sum_Q (dict_values wc)) as Hle.
  { unfold dict_get_default in *.
    destruct (dict_get wc t) as [x|] eqn:Eg; [|lra].
    apply sum_Q_ge_member; [exact Hnn'|].
    apply dict_get_some_in in Eg. unfold dict_values.
    change x with (snd (t, x)). now apply in_map. }
  split.
  - apply Qle_shift_div_l; lra.
  - apply Qle_shift_div_r; lra.
Qed.

Lemma actual_record_team (state : MeetState.t) (gender : Gender.t)
      (team : string) (ts : TeamScore.t) :
  dict_get (compute_actual_scores table get_completed_finals state gender) team
  = Some ts ->
  TeamScore.team ts = team /\ TeamScore.gender ts = gender.
Proof.
  intros Hts.
  assert (record_matches gender
            (compute_actual_scores table get_completed_finals state gender)
            (tabulated_athletes get_completed_finals state gender) team) as H.
  { unfold compute_actual_scores, tabulated_athletes.
    apply (@tally_combined_record table table_ok).
    intros t. apply (@tally_finals_record table table_ok gender _ [] []).
    intros t'. reflexivity. }
  unfold record_matches in H. rewrite Hts in H. tauto.
Qed.

Lemma fill_team_score_team (state : MeetState.t) (gender : Gender.t)
      (ceilings : dict Z) (projections win_probs : dict Q) (team : string) :
  let fill := fill_team_score
                gender
                (compute_actual_scores table get_completed_finals state gender)
                ceilings projections win_probs in
  TeamScore.team (fill team) = team /\ TeamScore.gender (fill team) = gender.
Proof.
  cbv zeta. unfold fill_team_score.
  cbn [TeamScore.team TeamScore.gender].
  destruct (dict_get _ team) as [ts|] eqn:E; [|split; reflexivity].
  exact (actual_record_team _ _ _ E).
Qed.

(** X13. The orchestrator returns a report for every snapshot.  Its team
    rows stand in descending order of the stored seed projection; there is
    exactly one row for each team that is a key of the actual-scores map, of
    the ceiling map or of the projection map, under the name of the team and
    with the gender asked for. *)
Theorem report_rows_one_per_team_by_projection
        (state : MeetState.t) (gender : Gender.t) :
  let actual := compute_actual_scores table get_completed_finals state gender in
  let ceilings := compute_optimistic_ceiling table get_upcoming_finals
                                             actual state gender in
  let projections := compute_seed_projection table get_upcoming_finals
                                             actual state gender in
  exists report,
    run_all_analysis table get_completed_finals get_upcoming_finals
                     random_draws iterations state gender = Ok report /\
    Report.gender report = gender /\
    StronglySorted (fun a b => (TeamScore.seed_projection b
                                <= TeamScore.seed_projection a)%Z)
                   (Report.team_scores report) /\
    NoDup (map TeamScore.team (Report.team_scores report)) /\
    Forall (fun ts => TeamScore.gender ts = gender)
           (Report.team_scores report) /\
    forall team,
      In team (map TeamScore.team (Report.team_scores report))
      <-> In team (dict_keys actual) \/ In team (dict_keys ceilings) \/
          In team (dict_keys projections).
Proof.
  cbv zeta. unfold run_all_analysis.
  destruct (win_probability_range
              (compute_actual_scores table get_completed_finals state gender)
              state gender) as (wp & Hwp & _).
  rewrite Hwp. cbn [bind]. eexists. split; [reflexivity|].
  cbn [Report.team_scores Report.gender].
  set (actual := compute_actual_scores table get_completed_finals state gender).
  set (ceilings := compute_optimistic_ceiling table get_upcoming_finals
                                              actual state gender).
  set (projections := compute_seed_projection table get_upcoming_finals
                                              actual state gender).
  set (all_teams := union_keys
                      (union_keys (fold_left set_add (dict_keys actual) [])
                                  (dict_keys ceilings))
                      (dict_keys projections)).
  set (fill := fill_team_score gender actual ceilings projections wp).
  set (desc := fun x y : TeamScore.t =>
                 (TeamScore.seed_projection y <? TeamScore.seed_projection x)%Z).
  assert (NoDup all_teams) as Hnd.
  { unfold all_teams, union_keys.
    repeat apply (fold_set_add_nodup (fun x : string => x)). constructor. }
  assert (forall team,
             In team all_teams
             <-> In team (dict_keys actual) \/ In team (dict_keys ceilings) \/
                 In team (dict_keys projections)) as Hmem.
  { intros team. unfold all_teams, union_keys.
    rewrite !(fold_set_add_in (fun x : string => x)), !map_id.
    simpl. tauto. }
  assert (Permutation (map TeamScore.team
                           (sorted desc (map fill (sorted string_ltb all_teams))))
                      all_teams) as Hperm.
  { rewrite (sorted_perm desc), map_map.
    rewrite (map_ext_in (fun t => TeamScore.team (fill t)) (fun t => t)).
    - rewrite map_id. apply sorted_perm.
    - intros t _. apply (fill_team_score_team state gender). }
  split; [reflexivity|]. split; [apply sorted_descending|].
  split; [|split].
  - apply (Permutation_NoDup (Permutation_sym Hperm) Hnd).
  - apply sorted_forall, Forall_forall. intros ts Hts.
    apply in_map_iff in Hts as (t & <- & _).
    apply (fill_team_score_team state gender).
  - intros team. rewrite <- Hmem. split; intros H.
    + exact (Permutation_in _ Hperm H).
    + exact (Permutation_in _ (Permutation_sym Hperm) H).
Qed.

Lemma ceiling_base_values (actual : dict TeamScore.t) (t : string)
      (teams : list string) (c : dict Z) (v : Z) :
  dict_get (fold_left (fun c team => dict_set c team (actual_points_of actual team))
                      teams c) t = Some v ->
  v = actual_points_of actual t \/ dict_get c t = Some v.
Proof.
  revert c. induction teams as [|x teams IH]; intros c; simpl; [auto|].
  intros H. apply IH in H as [H|H]; [auto|].
  rewrite dict_get_set in H.
  destruct (String.eqb_spec t x) as [-> |]; [left; congruence|auto].
Qed.

Lemma ceiling_at_least_actual (actual : dict TeamScore.t) (state : MeetState.t)
      (gender : Gender.t) (team : string) :
  (forall event, In event (get_upcoming_finals state gender) ->
                 In event (MeetState.events state)) ->
  team <> EmptyString ->
  (actual_points_of actual team
   <= dict_get_default (compute_optimistic_ceiling table get_upcoming_finals
                                                   actual state gender)
                       team (actual_points_of actual team))%Z.
Proof.
  intros Hsub Hname.
  assert (truthy team = true) as Ht.
  { unfold truthy. destruct (String.eqb_spec team EmptyString); [contradiction|auto]. }
  unfold compute_optimistic_ceiling, dict_get_default.
  destruct (in_dec string_dec team (teams_on_entries state)) as [Hin|Hout].
  - pose proof (ceiling_base actual team (snapshot_teams state) []
                             (snapshot_teams_complete get_upcoming_finals
                                                      state team Ht Hin))
      as Hbase.
    destruct (@ceiling_events_kept table table_ok team
                                   (get_upcoming_finals state gender) _ _ Hbase)
      as (v & Hv & Hle).
    rewrite Hv. exact Hle.
  - rewrite (@ceiling_events_other table team).
    + destruct (dict_get _ team) as [v|] eqn:E; [|lia].
      apply ceiling_base_values in E as [-> |E]; [lia|discriminate].
    + intros event entry He Hentry Hteam. apply Hout.
      unfold teams_on_entries. apply in_flat_map.
      exists event. split; [auto|]. rewrite <- Hteam. now apply in_map.
Qed.

(** X14. In every team row of the report the stored seed projection is at
    least the actual points, the actual points are not negative and the win
    probability lies between 0 and 100.  When every upcoming final is an
    event of the snapshot, the ceiling of a row with a non-empty team name
    is at least its actual points. *)
Theorem report_figures_bracket_actual_points
        (state : MeetState.t) (gender : Gender.t) :
  exists report,
    run_all_analysis table get_completed_finals get_upcoming_finals
                     random_draws iterations state gender = Ok report /\
    Forall (fun ts =>
              (0 <= TeamScore.actual_points ts
               <= TeamScore.seed_projection ts)%Z /\
              0 <= TeamScore.win_probability ts <= 100 /\
              ((forall event, In event (get_upcoming_finals state gender) ->
                              In event (MeetState.events state)) ->
               TeamScore.team ts <> EmptyString ->
               (TeamScore.actual_points ts
                <= TeamScore.optimistic_ceiling ts)%Z))
           (Report.team_scores report).
Proof.
  unfold run_all_analysis.
  destruct (win_probability_range
              (compute_actual_scores table get_completed_finals state gender)
              state gender) as (wp & Hwp & Hrange).
  rewrite Hwp. cbn [bind]. eexists. split; [reflexivity|].
  cbn [Report.team_scores].
  set (actual := compute_actual_scores table get_completed_finals state gender)
    in *.
  apply sorted_forall, Forall_forall. intros ts Hts.
  apply in_map_iff in Hts as (team & <- & _).
  pose proof (fill_team_score_team
                state gender
                (compute_optimistic_ceiling table get_upcoming_finals
                                            actual state gender)
                (compute_seed_projection table get_upcoming_finals
                                         actual state gender)
                wp team) as [Hteam _].
  cbv zeta in Hteam. fold actual in Hteam. rewrite Hteam. clear Hteam.
  unfold fill_team_score.
  cbn [TeamScore.actual_points TeamScore.seed_projection
       TeamScore.win_probability TeamScore.optimistic_ceiling].
  assert (TeamScore.actual_points
            match dict_get actual team with
            | Some ts => ts
            | None => TeamScore.new team gender
            end = actual_points_of actual team) as Hpts.
  { unfold actual_points_of. destruct (dict_get actual team); reflexivity. }
  rewrite Hpts.
  assert (NoDup (dict_keys actual)) as Hnd by apply actual_scores_nodup.
  split; [split|split].
  - unfold actual_points_of.
    destruct (dict_get actual team) as [ts|] eqn:E; [|lia].
    assert (record_matches gender actual
              (tabulated_athletes get_completed_finals state gender) team) as H.
    { unfold actual, compute_actual_scores, tabulated_athletes.
      apply (@tally_combined_record table table_ok).
      intros t. apply (@tally_finals_record table table_ok gender _ [] []).
      intros t'. reflexivity. }
    unfold record_matches in H. rewrite E in H. lia.
  - apply py_int_lower.
    pose proof (@projection_at_least_actual table get_upcoming_finals table_ok
                                            actual state gender team Hnd) as Hle.
    unfold dict_get_default in *.
    destruct (dict_get (compute_seed_projection _ _ _ _ _) team); [exact Hle|lra].
  - apply py_round1_range. unfold dict_get_default.
    destruct (dict_get wp team) as [v|] eqn:E; [|lra].
    destruct (Hrange _ _ E). lra.
  - intros Hsub Hname. now apply ceiling_at_least_actual.
Qed.

End OrchestratorProperties.

(** The report of [relay_day]. *)
Lemma report_rows_one_per_team_by_projection_witness :
  valid_table standard_place_points = true /\
  exists report,
    run_all_analysis standard_place_points spec_get_completed_finals
                     spec_get_upcoming_finals half_draws 3 relay_day Gender.MEN
    = Ok report /\
    NoDup (map TeamScore.team (Report.team_scores report)).
Proof.
  split; [reflexivity|].
  destruct (@report_rows_one_per_team_by_projection
              standard_place_points spec_get_completed_finals
              spec_get_upcoming_finals half_draws 3 eq_refl relay_day Gender.MEN)
    as (report & Hrun & _ & _ & Hnd & _).
  exists report. split; [exact Hrun|exact Hnd].
Defined.

(** The figures of the report of [relay_day]. *)
Lemma report_figures_bracket_actual_points_witness :
  valid_table standard_place_points = true /\
  exists report,
    run_all_analysis standard_place_points spec_get_completed_finals
                     spec_get_upcoming_finals half_draws 3 relay_day Gender.MEN
    = Ok report /\
    Forall (fun ts => (TeamScore.actual_points ts
                       <= TeamScore.seed_projection ts)%Z)
           (Report.team_scores report).
Proof.
  split; [reflexivity|].
  destruct (@report_figures_bracket_actual_points
              standard_place_points spec_get_completed_finals
              spec_get_upcoming_finals half_draws 3 eq_refl relay_day Gender.MEN)
    as (report & Hrun & Hall).
  exists report. split; [exact Hrun|].
  apply (Forall_impl _ (P := _) (fun ts H => proj2 (proj1 H)) Hall).
Defined.

(** *** Leverage index *)

Lemma fold_set_add_length (A : Type) (f : A -> string) (l : list A)
      (acc : list string) :
  (length acc <= length (fold_left (fun a x => set_add a (f x)) l acc)
   <= length acc + length l)%nat.
Proof.
  revert acc. induction l as [|x l IH]; intros acc; cbn [fold_left length]; [lia|].
  specialize (IH (set_add acc (f x))).
  assert (length acc <= length (set_add acc (f x)) <= S (length acc))%nat.
  { unfold set_add. destruct (set_mem acc (f x)); [lia|].
    rewrite length_app. simpl. lia. }
  lia.
Qed.

Lemma firstn_subset (A : Type) (n : nat) (l : list A) (x : A) :
  In x (firstn n l) -> In x l.
Proof.
  intros H. rewrite <- (firstn_skipn n l). apply in_or_app. now left.
Qed.

Section LeverageProperties.

Variable table : list (Z * Z).
Variable get_upcoming_finals : MeetState.t -> Gender.t -> list MeetEvent.t.

Lemma leverage_results (top_teams : list string) (events : list MeetEvent.t)
      (acc : list LeverageRow.t) :
  fold_left (fun results event =>
               match MeetEvent.entries event with
               | [] => results
               | _ => results ++ [leverage_row table top_teams event]
               end)
            events acc
  = acc ++ map (leverage_row table top_teams)
               (filter (fun e => match MeetEvent.entries e with
                                 | [] => false
                                 | _ => true
                                 end) events).
Proof.
  revert acc. induction events as [|e events IH]; intros acc; cbn [fold_left filter].
  - now rewrite app_nil_r.
  - rewrite IH. destruct (MeetEvent.entries e); [reflexivity|].
    cbn [map]. now rewrite <- app_assoc.
Qed.

(** X15. The leverage index has one record for each upcoming final that has
    entries and none for the others; a record carries the name of its final;
    the records stand in descending order of the leverage score. *)
Theorem leverage_rows_by_descending_score
        (state : MeetState.t) (gender : Gender.t) (actual : dict TeamScore.t) :
  let rows := compute_leverage_index table get_upcoming_finals
                                     state gender actual in
  Permutation (map LeverageRow.event rows)
              (upcoming_with_entries get_upcoming_finals state gender) /\
  StronglySorted (fun a b => (LeverageRow.leverage_score b
                              <= LeverageRow.leverage_score a)%Z) rows /\
  Forall (fun r => LeverageRow.event_name r
                   = MeetEvent.event_name (LeverageRow.event r)) rows.
Proof.
  cbv zeta. unfold compute_leverage_index. rewrite leverage_results.
  cbn [app]. fold (upcoming_with_entries get_upcoming_finals state gender).
  split; [|split].
  - rewrite sorted_perm, map_map. cbn [LeverageRow.event leverage_row].
    now rewrite map_id.
  - apply sorted_descending.
  - apply sorted_forall, Forall_forall. intros r Hr.
    apply in_map_iff in Hr as (e & <- & _). reflexivity.
Qed.

Hypothesis table_ok : valid_table table = true.

(** X16. In every record of the leverage index the points available are the
    table points of places 1 to min(8, number of entries); the number of
    teams is at least 1 and at most the number of entries; the top teams
    listed are at most five keys of the actual-scores map that have an entry
    in the final; the leverage score is their number times the maximum
    swing, which is points(1) - points(min(8, number of entries)): a final
    with a single entry has swing and leverage 0. *)
Theorem leverage_record_figures
        (state : MeetState.t) (gender : Gender.t) (actual : dict TeamScore.t) :
  Forall
    (fun r =>
       let entries := MeetEvent.entries (LeverageRow.event r) in
       LeverageRow.total_pts_available r
       = top_places_total table (length entries) /\
       (1 <= LeverageRow.n_teams r <= Z.of_nat (length entries))%Z /\
       (length (LeverageRow.top_teams_in_event r) <= 5)%nat /\
       (forall t, In t (LeverageRow.top_teams_in_event r) ->
                  In t (dict_keys actual) /\
                  exists entry, In entry entries /\ entry_team entry = t) /\
       LeverageRow.max_swing r
       = (points_or_zero table 1
          - points_or_zero table (Z.min 8 (Z.of_nat (length entries))))%Z /\
       LeverageRow.leverage_score r
       = (Z.of_nat (length (LeverageRow.top_teams_in_event r))
          * LeverageRow.max_swing r)%Z /\
       (length entries = 1%nat ->
        LeverageRow.max_swing r = 0%Z /\ LeverageRow.leverage_score r = 0%Z))
    (compute_leverage_index table get_upcoming_finals state gender actual).
Proof.
  unfold compute_leverage_index. rewrite leverage_results. cbn [app].
  apply sorted_forall, Forall_forall. intros r Hr.
  apply in_map_iff in Hr as (e & <- & He).
  apply filter_In in He as [_ He].
  set (top_teams := map fst (firstn 5 (sorted _ actual))).
  unfold leverage_row.
  cbn [LeverageRow.event LeverageRow.total_pts_available LeverageRow.n_teams
       LeverageRow.top_teams_in_event LeverageRow.max_swing
       LeverageRow.leverage_score].
  set (teams := fold_left (fun s x => set_add s (entry_team x))
                          (MeetEvent.entries e) []).
  assert (place_points table 1 = Some (points_or_zero table 1)) as Hfirst.
  { destruct (@valid_table_domain table 1 table_ok) as [pts Hg]; [lia|].
    unfold points_or_zero, place_points. now rewrite Hg. }
  rewrite Hfirst.
  assert (length top_teams <= 5)%nat as Htop.
  { unfold top_teams. rewrite length_map, length_firstn. lia. }
  assert (forall t, In t top_teams -> In t (dict_keys actual)) as Hkeys.
  { intros t Ht. unfold top_teams in Ht.
    apply in_map_iff in Ht as (kv & <- & Hkv).
    apply firstn_subset, sorted_in in Hkv. unfold dict_keys. now apply in_map. }
  cbv zeta. split; [|split; [|split; [|split; [|split; [|split]]]]].
  - unfold top_places_total. now rewrite Z.min_comm.
  - pose proof (fold_set_add_length entry_team (MeetEvent.entries e) []) as Hlen.
    fold teams in Hlen. cbn [length] in Hlen.
    destruct (MeetEvent.entries e) as [|x l] eqn:E; [discriminate|].
    assert (In (entry_team x) teams) as Hin.
    { unfold teams. apply fold_set_add_in. right. now left. }
    destruct teams; [destruct Hin|]. cbn [length] in *. lia.
  - pose proof (filter_shorter (set_mem teams) top_teams). lia.
  - intros t Ht. apply filter_In in Ht as [Ht Hmem].
    split; [auto|].
    apply set_mem_true in Hmem. unfold teams in Hmem.
    apply fold_set_add_in in Hmem as [[]|Hmem].
    apply in_map_iff in Hmem as (entry & Heq & Hentry). eauto.
  - reflexivity.
  - reflexivity.
  - intros H1. rewrite H1.
    replace (Z.min 8 (Z.of_nat 1)) with 1%Z by reflexivity. lia.
Qed.

End LeverageProperties.

(** The leverage records of [relay_day]. *)
Lemma leverage_record_figures_witness :
  valid_table standard_place_points = true /\
  Forall
    (fun r =>
       LeverageRow.total_pts_available r
       = top_places_total standard_place_points
                          (length (MeetEvent.entries (LeverageRow.event r))))
    (compute_leverage_index standard_place_points spec_get_upcoming_finals
                            relay_day Gender.MEN relay_actual).
Proof.
  split; [reflexivity|].
  apply (Forall_impl
           _ (P := _) (fun r H => proj1 H)
           (@leverage_record_figures standard_place_points
                                     spec_get_upcoming_finals eq_refl
                                     relay_day Gender.MEN relay_actual)).
Defined.

(** *** Effective seeds *)

Lemma fold_left_through_map (A B C : Type) (g : A -> B) (f : C -> B -> C)
      (l : list A) (acc : C) :
  fold_left (fun acc x => f acc (g x)) l acc = fold_left f (map g l) acc.
Proof.
  revert acc. induction l as [|x l IH]; intros acc; simpl; auto.
Qed.

Lemma filter_map_commute (A : Type) (p : A -> bool) (f : A -> A) (l : list A) :
  (forall x, p (f x) = p x) -> filter p (map f l) = map f (filter p l).
Proof.
  intros H. induction l as [|x l IH]; simpl; [reflexivity|].
  rewrite H. destruct (p x); simpl; now rewrite IH.
Qed.

Section EffectiveSeedsProperties.

Variable is_sprint_event : MeetEvent.t -> bool.

Lemma assign_entries_athletes (event : MeetEvent.t)
      (done todo : list EventEntry.t) :
  map EventEntry.athlete (assign_entries is_sprint_event event done todo)
  = map EventEntry.athlete (done ++ todo).
Proof.
  revert done. induction todo as [|entry rest IH]; intros done;
    cbn [assign_entries].
  - now rewrite app_nil_r.
  - rewrite IH, <- app_assoc, !map_app. reflexivity.
Qed.

Lemma assign_entries_seeds (event : MeetEvent.t)
      (done todo : list EventEntry.t) :
  Forall seed_from_athlete done ->
  Forall seed_from_athlete (assign_entries is_sprint_event event done todo).
Proof.
  revert done. induction todo as [|entry rest IH]; intros done Hdone;
    cbn [assign_entries]; [exact Hdone|].
  apply IH, Forall_app. split; [exact Hdone|].
  constructor; [|constructor].
  unfold seed_from_athlete. cbn [EventEntry.effective_seed EventEntry.athlete].
  destruct (is_sprint_event _); [|now left].
  unfold or_else.
  destruct (Athlete.prelim_mark (EventEntry.athlete entry)) as [m|];
    [|now left].
  destruct (truthy m) eqn:E; [|now left].
  right. exists m. repeat split.
  intros ->. discriminate.
Qed.

Lemma assign_event_same (event : MeetEvent.t) :
  same_but_seeds event (assign_event is_sprint_event event).
Proof.
  unfold same_but_seeds, assign_event.
  destruct (negb _); [repeat split|].
  cbn [with_entries MeetEvent.event_name MeetEvent.base_event_name
       MeetEvent.gender MeetEvent.round_type MeetEvent.status
       MeetEvent.entries].
  repeat split. apply assign_entries_athletes.
Qed.

(** X17. Assigning the effective seeds changes nothing but the effective
    seeds of the entries of final-round events: the combined events are
    kept, the events keep their order, names, gender, round, status and
    athletes, an event of another round is returned as it is, and every
    seed given in a final is the seed mark of the athlete of the entry or
    the non-empty prelim mark of that athlete. *)
Theorem effective_seeds_touch_only_seeds (state : MeetState.t) :
  let state' := _assign_effective_seeds is_sprint_event state in
  MeetState.combined_events state' = MeetState.combined_events state /\
  Forall2 (fun e e' =>
             same_but_seeds e e' /\
             (MeetEvent.round_type e <> RoundType.FINAL -> e' = e) /\
             (MeetEvent.round_type e = RoundType.FINAL ->
              Forall seed_from_athlete (MeetEvent.entries e')))
          (MeetState.events state) (MeetState.events state').
Proof.
  cbv zeta. unfold _assign_effective_seeds.
  cbn [MeetState.combined_events MeetState.events].
  split; [reflexivity|].
  induction (MeetState.events state) as [|e es IH]; cbn [map]; constructor;
    [|exact IH].
  split; [apply assign_event_same|]. unfold assign_event.
  destruct (MeetEvent.round_type e); cbn [RoundType.eqb negb].
  - split; [reflexivity|discriminate].
  - split; [congruence|]. intros _. cbn [with_entries MeetEvent.entries].
    apply assign_entries_seeds. constructor.
Qed.

Lemma same_but_seeds_tally (table : list (Z * Z)) (g : Gender.t)
      (scores : dict TeamScore.t) (e e' : MeetEvent.t) :
  same_but_seeds e e' -> tally_final table g scores e' = tally_final table g scores e.
Proof.
  intros (Hname & _ & _ & _ & _ & Hath). unfold tally_final.
  rewrite Hname.
  rewrite !(fold_left_through_map
              EventEntry.athlete
              (tally_athlete table g (MeetEvent.event_name e))).
  now rewrite Hath.
Qed.

Lemma same_but_seeds_teams (e e' : MeetEvent.t) :
  same_but_seeds e e' ->
  map entry_team (MeetEvent.entries e') = map entry_team (MeetEvent.entries e).
Proof.
  intros (_ & _ & _ & _ & _ & Hath). unfold entry_team.
  rewrite <- !(map_map EventEntry.athlete Athlete.team). now rewrite Hath.
Qed.

Lemma same_but_seeds_ceiling (table : list (Z * Z)) (c : dict Z)
      (e e' : MeetEvent.t) :
  same_but_seeds e e' -> ceiling_event table c e' = ceiling_event table c e.
Proof.
  intros H. unfold ceiling_event, count_team_athletes.
  rewrite !(fold_left_through_map entry_team
                                  (fun d t => dict_add_Z d t 1)).
  now rewrite (same_but_seeds_teams H).
Qed.

(** X18. The actual scores and the optimistic ceilings read no effective
    seed: computed on the snapshot after the seeds are assigned they are the
    same as on the snapshot before, for every table and gender. *)
Theorem effective_seeds_leave_scores_and_ceilings
        (table : list (Z * Z)) (state : MeetState.t) (gender : Gender.t)
        (actual : dict TeamScore.t) :
  let state' := _assign_effective_seeds is_sprint_event state in
  compute_actual_scores table spec_get_completed_finals state' gender
  = compute_actual_scores table spec_get_completed_finals state gender /\
  compute_optimistic_ceiling table spec_get_upcoming_finals actual state' gender
  = compute_optimistic_ceiling table spec_get_upcoming_finals actual state gender.
Proof.
  cbv zeta. split.
  - unfold compute_actual_scores, _assign_effective_seeds.
    cbn [MeetState.combined_events].
    f_equal.
    unfold spec_get_completed_finals. cbn [MeetState.events].
    rewrite filter_map_commute.
    2:{ intros e.
        destruct (assign_event_same e) as (_ & _ & -> & -> & -> & _).
        reflexivity. }
    generalize (@nil (string * TeamScore.t)).
    induction (filter _ (MeetState.events state)) as [|e es IH]; intros acc;
      cbn [map fold_left]; [reflexivity|].
    rewrite (same_but_seeds_tally table gender acc (assign_event_same e)).
    apply IH.
  - unfold compute_optimistic_ceiling.
    assert (snapshot_teams (_assign_effective_seeds is_sprint_event state)
            = snapshot_teams state) as ->.
    { unfold snapshot_teams, _assign_effective_seeds. cbn [MeetState.events].
      generalize (@nil string).
      induction (MeetState.events state) as [|e es IH]; intros acc;
        cbn [map fold_left]; [reflexivity|].
      rewrite IH. f_equal.
      rewrite !(fold_left_through_map
                  entry_team
                  (fun acc' t => if truthy t then set_add acc' t else acc')).
      now rewrite (same_but_seeds_teams (assign_event_same e)). }
    unfold spec_get_upcoming_finals, _assign_effective_seeds.
    cbn [MeetState.events].
    rewrite filter_map_commute.
    2:{ intros e.
        destruct (assign_event_same e) as (_ & _ & -> & -> & -> & Hath).
        do 2 f_equal.
        destruct (MeetEvent.entries (assign_event is_sprint_event e)),
                 (MeetEvent.entries e); try reflexivity; discriminate. }
    generalize (fold_left
                  (fun (c : dict Z) team =>
                     dict_set c team (actual_points_of actual team))
                  (snapshot_teams state) []).
    induction (filter _ (MeetState.events state)) as [|e es IH]; intros acc;
      cbn [map fold_left]; [reflexivity|].
    rewrite (same_but_seeds_ceiling table acc (assign_event_same e)).
    apply IH.
Qed.

Lemma assign_entries_rule (event : MeetEvent.t) (sprint : bool)
      (done todo : list EventEntry.t) :
  (forall entries, is_sprint_event (with_entries event entries) = sprint) ->
  assign_entries is_sprint_event event done todo
  = done ++ map (seeded_by_rule sprint) todo.
Proof.
  intros Hs. revert done. induction todo as [|entry rest IH]; intros done;
    cbn [assign_entries map].
  - now rewrite app_nil_r.
  - rewrite IH, Hs, <- app_assoc. reflexivity.
Qed.

(** X19. For a final whose sprint flag does not depend on its entry list,
    assigning the seeds gives every entry the seed of the rule: in a sprint
    final the prelim mark of the athlete if that is a non-empty string and
    the seed mark otherwise, in any other final the seed mark.  Assigning the
    seeds a second time changes nothing. *)
Theorem effective_seeds_follow_rule_and_settle
        (event : MeetEvent.t) (sprint : bool) :
  MeetEvent.round_type event = RoundType.FINAL ->
  (forall entries, is_sprint_event (with_entries event entries) = sprint) ->
  MeetEvent.entries (assign_event is_sprint_event event)
  = map (seeded_by_rule sprint) (MeetEvent.entries event) /\
  assign_event is_sprint_event (assign_event is_sprint_event event)
  = assign_event is_sprint_event event.
Proof.
  intros Hround Hs.
  assert (assign_event is_sprint_event event
          = with_entries event
                         (map (seeded_by_rule sprint) (MeetEvent.entries event)))
    as Hfirst.
  { unfold assign_event. rewrite Hround. cbn [RoundType.eqb negb].
    now rewrite (@assign_entries_rule event sprint [] _ Hs). }
  split; [rewrite Hfirst; reflexivity|].
  rewrite Hfirst. unfold assign_event at 1.
  cbn [with_entries MeetEvent.round_type MeetEvent.entries].
  rewrite Hround. cbn [RoundType.eqb negb].
  rewrite (@assign_entries_rule _ sprint).
  2:{ intros entries. apply Hs. }
  cbn [app]. unfold with_entries at 1.
  cbn [MeetEvent.event_name MeetEvent.base_event_name MeetEvent.gender
       MeetEvent.round_type MeetEvent.status].
  unfold with_entries. f_equal.
  rewrite map_map. apply map_ext. intros entry. reflexivity.
Qed.

End EffectiveSeedsProperties.

(** The final of [dash_meet], read as a sprint final. *)
Lemma effective_seeds_follow_rule_and_settle_witness :
  MeetEvent.round_type dash_final = RoundType.FINAL /\
  (forall entries,
      sixty_is_sprint (with_entries dash_final entries)
      = sixty_is_sprint dash_final) /\
  assign_event sixty_is_sprint (assign_event sixty_is_sprint dash_final)
  = assign_event sixty_is_sprint dash_final.
Proof.
  split; [reflexivity|]. split; [reflexivity|].
  apply (@effective_seeds_follow_rule_and_settle
           sixty_is_sprint dash_final (sixty_is_sprint dash_final));
    reflexivity.
Defined.

(** *** Links *)

Lemma take_while_all (p : ascii -> bool) (l : list ascii) :
  Forall (fun c => p c = true) l -> take_while p l = l.
Proof.
  induction 1 as [|c l Hc Hl IH]; cbn [take_while]; [reflexivity|].
  now rewrite Hc, IH.
Qed.

Lemma take_while_stop (p : ascii -> bool) (l1 l2 : list ascii) (c : ascii) :
  Forall (fun c => p c = true) l1 -> p c = false ->
  take_while p (l1 ++ c :: l2) = l1.
Proof.
  induction 1 as [|x l Hx Hl IH]; intros Hc; cbn [take_while app].
  - now rewrite Hc.
  - now rewrite Hx, IH.
Qed.

Lemma drop_while_stop (p : ascii -> bool) (l1 l2 : list ascii) (c : ascii) :
  Forall (fun c => p c = true) l1 -> p c = false ->
  drop_while p (l1 ++ c :: l2) = c :: l2.
Proof.
  induction 1 as [|x l Hx Hl IH]; intros Hc; cbn [drop_while app].
  - now rewrite Hc.
  - now rewrite Hx, IH.
Qed.

Lemma drop_while_all (p : ascii -> bool) (l : list ascii) :
  Forall (fun c => p c = true) l -> drop_while p l = [].
Proof.
  induction 1 as [|c l Hc Hl IH]; cbn [drop_while]; [reflexivity|].
  now rewrite Hc, IH.
Qed.

Lemma digit_no_slash (c : ascii) : is_digit c = true -> Ascii.eqb c "/" = false.
Proof.
  intros H. destruct (Ascii.eqb_spec c "/"%char) as [-> |]; [|reflexivity].
  vm_compute in H. discriminate.
Qed.

Lemma digits_no_slash (l : list ascii) : all_digits l -> no_slash l.
Proof.
  unfold all_digits, no_slash. intros H.
  eapply Forall_impl; [|exact H]. apply digit_no_slash.
Qed.

Lemma last_segment_of (d base : list ascii) :
  directory_part d -> no_slash base -> last_segment "/" (d ++ base) = base.
Proof.
  intros Hd Hbase. unfold last_segment.
  assert (Forall (fun c => not_sep "/" c = true) (rev base)) as Hrev.
  { apply Forall_rev. unfold no_slash in Hbase.
    eapply Forall_impl; [|exact Hbase].
    intros c Hc. unfold not_sep. now rewrite Hc. }
  destruct Hd as [-> |[p ->]].
  - cbn [app]. rewrite take_while_all by exact Hrev. apply rev_involutive.
  - rewrite <- app_assoc, rev_app_distr, rev_app_distr. cbn [rev app].
    rewrite <- app_assoc. cbn [app].
    rewrite take_while_stop by (auto; reflexivity).
    apply rev_involutive.
Qed.

Lemma of_string_list (l : list ascii) : of_string (string_of_list_ascii l) = l.
Proof. apply list_ascii_of_string_of_list_ascii. Qed.

(** X20. A link whose last path segment is made of the digits of a code, a
    hyphen, the digits of a round, an underscore and any text without a
    slash yields the code, the number written by the round digits and the
    flag False; a last segment made of the digits of a code followed by the
    text _Scores.htm yields the code, round 0 and the flag True.  The
    directory part of the link plays no role. *)
Theorem parse_href_reads_code_and_round
        (d code round tail : list ascii) :
  directory_part d -> all_digits code -> code <> [] -> no_slash tail ->
  (all_digits round -> round <> [] ->
   _parse_href (string_of_list_ascii
                  (d ++ code ++ "-"%char :: round ++ "_"%char :: tail))
   = (string_of_list_ascii code, PyFloat.digits_to_Z round, false)) /\
  _parse_href (string_of_list_ascii
                 (d ++ code ++ of_string "_Scores.htm" ++ tail))
  = (string_of_list_ascii code, 0%Z, true).
Proof.
  intros Hd Hcode Hne Htail.
  pose proof (digits_no_slash Hcode) as Hcode'.
  split.
  - intros Hround Hrne.
    pose proof (digits_no_slash Hround) as Hround'.
    unfold _parse_href. rewrite of_string_list, last_segment_of; [|exact Hd|].
    2:{ unfold no_slash in *. apply Forall_app. split; [exact Hcode'|].
        constructor; [reflexivity|]. apply Forall_app. split; [exact Hround'|].
        constructor; [reflexivity|exact Htail]. }
    rewrite take_while_stop, drop_while_stop by (auto; reflexivity).
    destruct code as [|c0 code0]; [congruence|].
    cbn [is_prefix of_string list_ascii_of_string].
    replace (Ascii.eqb "_" "-") with false by reflexivity.
    cbn [andb]. replace (Ascii.eqb "-" "-") with true by reflexivity.
    rewrite take_while_stop, drop_while_stop by (auto; reflexivity).
    destruct round as [|r0 round0]; [congruence|].
    replace (Ascii.eqb "_" "_") with true by reflexivity.
    reflexivity.
  - unfold _parse_href. rewrite of_string_list, last_segment_of; [|exact Hd|].
    2:{ unfold no_slash in *. apply Forall_app. split; [exact Hcode'|].
        apply Forall_app. split; [|exact Htail].
        repeat constructor. }
    change (of_string "_Scores.htm" ++ tail)
      with ("_"%char :: (of_string "Scores.htm" ++ tail)).
    rewrite take_while_stop, drop_while_stop by (auto; reflexivity).
    destruct code as [|c0 code0]; [congruence|].
    assert (is_prefix (of_string "_Scores.htm")
                      ("_"%char :: of_string "Scores.htm" ++ tail) = true) as ->.
    { clear. vm_compute. reflexivity. }
    reflexivity.
Qed.

(** X21. Only the last path segment of a link is read, and a last segment
    that does not start with a digit yields the code 000, round 1 and the
    flag False. *)
Theorem parse_href_reads_last_segment (d base : list ascii) :
  directory_part d -> no_slash base ->
  _parse_href (string_of_list_ascii (d ++ base))
  = _parse_href (string_of_list_ascii base) /\
  (match base with
   | c :: _ => is_digit c = false
   | [] => True
   end ->
   _parse_href (string_of_list_ascii (d ++ base)) = ("000"%string, 1%Z, false)).
Proof.
  intros Hd Hbase.
  assert (last_segment "/" (d ++ base) = base) as H1
      by now apply last_segment_of.
  assert (last_segment "/" base = base) as H2
      by (apply (last_segment_of (d := [])); [now left|assumption]).
  unfold _parse_href. rewrite !of_string_list, H1, H2.
  split; [reflexivity|].
  destruct base as [|c base]; [reflexivity|].
  intros Hc. cbn [take_while]. now rewrite Hc.
Qed.

(** The link of the scores page of event 002, under a directory. *)
Lemma parse_href_reads_code_and_round_witness :
  directory_part (of_string "meet/2024/") /\
  all_digits (of_string "002") /\ of_string "002" <> [] /\
  no_slash (@nil ascii) /\
  _parse_href "meet/2024/002_Scores.htm" = ("002"%string, 0%Z, true).
Proof.
  assert (directory_part (of_string "meet/2024/")) as Hd
      by (right; exists (of_string "meet/2024"); reflexivity).
  assert (all_digits (of_string "002")) as Hc by (repeat constructor).
  assert (of_string "002" <> []) as Hne by discriminate.
  assert (no_slash (@nil ascii)) as Ht by constructor.
  split; [exact Hd|]. split; [exact Hc|]. split; [exact Hne|].
  split; [exact Ht|].
  exact (proj2 (@parse_href_reads_code_and_round
                  (of_string "meet/2024/") (of_string "002")
                  (of_string "1") [] Hd Hc Hne Ht)).
Defined.

(** A link to the index page. *)
Lemma parse_href_reads_last_segment_witness :
  directory_part (of_string "meet/") /\ no_slash (of_string "index.htm") /\
  _parse_href "meet/index.htm" = ("000"%string, 1%Z, false).
Proof.
  assert (directory_part (of_string "meet/")) as Hd
      by (right; exists (of_string "meet"); reflexivity).
  assert (no_slash (of_string "index.htm")) as Hb by (repeat constructor).
  split; [exact Hd|]. split; [exact Hb|].
  exact (proj2 (@parse_href_reads_last_segment
                  (of_string "meet/") (of_string "index.htm") Hd Hb)
               eq_refl).
Defined.

(** *** Marks: normalisation *)

Lemma drop_while_head (p : ascii -> bool) (l : list ascii) :
  match drop_while p l with [] => True | c :: _ => p c = false end.
Proof.
  induction l as [|c l IH]; cbn [drop_while]; [exact I|].
  destruct (p c) eqn:E; [exact IH|exact E].
Qed.

Lemma drop_while_keeps_last (p : ascii -> bool) (l : list ascii) (x : ascii) :
  p x = false -> exists u, drop_while p (l ++ [x]) = u ++ [x].
Proof.
  intros Hx. induction l as [|c l [u IH]]; cbn [drop_while app].
  - rewrite Hx. now exists [].
  - destruct (p c); [now exists u|]. now exists (c :: l).
Qed.

Lemma head_is_rev_last (l : list ascii) (c : ascii) (t : list ascii) :
  l = c :: t -> rev l = rev t ++ [c].
Proof. intros ->. reflexivity. Qed.

Lemma lstrip_head (l : list ascii) :
  match lstrip l with [] => True | c :: _ => is_space c = false end.
Proof. apply drop_while_head. Qed.

Lemma rstrip_keeps_head (l : list ascii) :
  match l with [] => True | c :: _ => is_space c = false end ->
  match rstrip l with [] => True | c :: _ => is_space c = false end.
Proof.
  destruct l as [|c t]; [intros _; exact I|]. intros Hc.
  unfold rstrip, lstrip. cbn [rev].
  destruct (drop_while_keeps_last is_space (rev t) c Hc) as [u ->].
  rewrite rev_app_distr. cbn [rev app]. exact Hc.
Qed.

Lemma rstrip_last (l : list ascii) :
  match rev (rstrip l) with [] => True | c :: _ => is_space c = false end.
Proof.
  unfold rstrip. rewrite rev_involutive. apply lstrip_head.
Qed.

Lemma space_facts :
  is_space nbsp = true /\ is_space " " = true.
Proof. split; reflexivity. Qed.

Lemma not_space_not_nbsp (c : ascii) :
  is_space c = false -> negb (Ascii.eqb c nbsp) = true.
Proof.
  intros H. destruct (Ascii.eqb_spec c nbsp) as [-> |]; [|reflexivity].
  vm_compute in H. discriminate.
Qed.

Lemma not_space_not_blank (c : ascii) :
  is_space c = false -> Ascii.eqb c " " = false.
Proof.
  intros H. destruct (Ascii.eqb_spec c " "%char) as [-> |]; [|reflexivity].
  vm_compute in H. discriminate.
Qed.

Lemma remove_nbsp_head (l : list ascii) :
  match l with [] => True | c :: _ => is_space c = false end ->
  match remove_nbsp l with [] => True | c :: _ => is_space c = false end.
Proof.
  destruct l as [|c t]; [intros _; exact I|]. intros Hc.
  unfold remove_nbsp. cbn [filter]. now rewrite (not_space_not_nbsp c Hc).
Qed.

Lemma remove_nbsp_rev (l : list ascii) :
  rev (remove_nbsp l) = remove_nbsp (rev l).
Proof.
  unfold remove_nbsp. induction l as [|c l IH]; [reflexivity|].
  cbn [filter rev]. rewrite filter_app, <- IH. cbn [filter].
  destruct (negb (Ascii.eqb c nbsp)); cbn [rev]; [reflexivity|].
  now rewrite app_nil_r.
Qed.

Lemma replace_double_space_pair (c d : ascii) (t : list ascii) :
  replace_double_space (c :: d :: t)
  = if Ascii.eqb c " " && Ascii.eqb d " "
    then " "%char :: replace_double_space t
    else c :: replace_double_space (d :: t).
Proof. reflexivity. Qed.

Lemma replace_double_space_head (l : list ascii) :
  match l with [] => True | c :: _ => is_space c = false end ->
  match replace_double_space l with
  | [] => True
  | c :: _ => is_space c = false
  end.
Proof.
  destruct l as [|c t]; [intros _; exact I|]. intros Hc.
  destruct t as [|d t']; [exact Hc|].
  rewrite replace_double_space_pair, (not_space_not_blank c Hc).
  cbn [andb]. exact Hc.
Qed.

Lemma replace_double_space_last (n : nat) (l : list ascii) (x : ascii) :
  (length l <= n)%nat -> Ascii.eqb x " " = false ->
  replace_double_space (l ++ [x]) = replace_double_space l ++ [x].
Proof.
  revert l. induction n as [|n IH]; intros l Hn Hx.
  { destruct l; [reflexivity|cbn [length] in *; lia]. }
  destruct l as [|c [|d t]].
  - reflexivity.
  - cbn [app replace_double_space]. rewrite Hx, andb_false_r. reflexivity.
  - change ((c :: d :: t) ++ [x]) with (c :: d :: (t ++ [x])).
    rewrite !replace_double_space_pair.
    destruct (Ascii.eqb c " " && Ascii.eqb d " ").
    + cbn [app]. f_equal. apply IH; [cbn [length] in *; lia|exact Hx].
    + cbn [app]. f_equal.
      change (d :: t ++ [x]) with ((d :: t) ++ [x]).
      apply IH; [cbn [length] in *; lia|exact Hx].
Qed.

Lemma replace_double_space_rev_head (l : list ascii) :
  match rev l with [] => True | c :: _ => is_space c = false end ->
  match rev (replace_double_space l) with
  | [] => True
  | c :: _ => is_space c = false
  end.
Proof.
  destruct (rev l) as [|x u] eqn:E.
  - intros _. apply (f_equal (@rev ascii)) in E.
    rewrite rev_involutive in E. subst l. exact I.
  - intros Hx. apply (f_equal (@rev ascii)) in E.
    rewrite rev_involutive in E. cbn [rev] in E. subst l.
    rewrite (@replace_double_space_last (length (rev u)) (rev u) x);
      [|lia|now apply not_space_not_blank].
    rewrite rev_app_distr. cbn [rev app]. exact Hx.
Qed.

Lemma replace_double_space_shorter (n : nat) (l : list ascii) :
  (length l <= n)%nat ->
  (length (replace_double_space l) <= length l)%nat /\
  forall c, In c (replace_double_space l) -> In c l.
Proof.
  revert l. induction n as [|n IH]; intros l Hn.
  { destruct l; [split; [simpl; lia|tauto]|cbn [length] in *; lia]. }
  destruct l as [|c [|d t]]; [split; [simpl; lia|tauto]|split; [simpl; lia|tauto]|].
  rewrite replace_double_space_pair.
  destruct (Ascii.eqb c " " && Ascii.eqb d " ") eqn:E.
  - destruct (IH t) as [Hlen Hin]; [cbn [length] in *; lia|].
    split; [cbn [length] in *; lia|].
    intros x [<- |Hx].
    + apply andb_prop in E as [E _]. apply Ascii.eqb_eq in E. now left.
    + right. right. auto.
  - destruct (IH (d :: t)) as [Hlen Hin]; [cbn [length] in *; lia|].
    split; [cbn [length] in *; lia|].
    intros x [<- |Hx]; [now left|right; auto].
Qed.

Lemma head_clean_lstrip (l : list ascii) :
  match l with [] => True | c :: _ => is_space c = false end -> lstrip l = l.
Proof.
  destruct l as [|c t]; [reflexivity|]. intros Hc.
  unfold lstrip. cbn [drop_while]. now rewrite Hc.
Qed.

Lemma ends_clean_strip (l : list ascii) :
  match l with [] => True | c :: _ => is_space c = false end ->
  match rev l with [] => True | c :: _ => is_space c = false end ->
  strip l = l.
Proof.
  intros Hh Hl. unfold strip. rewrite (head_clean_lstrip l Hh).
  unfold rstrip. rewrite (head_clean_lstrip (rev l) Hl). apply rev_involutive.
Qed.

Lemma clean_text_fixed (l : list ascii) :
  Forall (fun c => is_space c = false) l ->
  strip l = l /\ remove_nbsp l = l /\ replace_double_space l = l.
Proof.
  intros H. split; [|split].
  - apply ends_clean_strip.
    + destruct H; [exact I|assumption].
    + apply Forall_rev in H. destruct H; [exact I|assumption].
  - unfold remove_nbsp. induction H as [|c l Hc Hl IH]; [reflexivity|].
    cbn [filter]. now rewrite (not_space_not_nbsp c Hc), IH.
  - induction H as [|c l Hc Hl IH]; [reflexivity|].
    destruct l as [|d t]; [reflexivity|].
    rewrite replace_double_space_pair, (not_space_not_blank c Hc).
    cbn [andb]. now rewrite IH.
Qed.

(** X22. The normalised mark has no leading and no trailing whitespace,
    holds no no-break space and is not longer than the mark; a mark without
    any whitespace character is returned as it is.  Runs of spaces are not
    always reduced to one space: of three spaces two are left. *)
Theorem normalize_mark_output_is_trimmed (mark : list ascii) :
  trimmed (_normalize_mark mark) /\
  ~ In nbsp (_normalize_mark mark) /\
  (length (_normalize_mark mark) <= length mark)%nat /\
  (Forall (fun c => is_space c = false) mark -> _normalize_mark mark = mark) /\
  _normalize_mark (of_string "1   2") = of_string "1  2".
Proof.
  unfold _normalize_mark, trimmed.
  split; [|split; [|split; [|split]]].
  - apply ends_clean_strip.
    + apply replace_double_space_head, remove_nbsp_head.
      unfold strip. apply rstrip_keeps_head, lstrip_head.
    + apply replace_double_space_rev_head.
      rewrite remove_nbsp_rev. apply remove_nbsp_head.
      unfold strip. apply rstrip_last.
  - intros Hin.
    apply (replace_double_space_shorter (n := length (remove_nbsp (strip mark))))
      in Hin; [|lia].
    unfold remove_nbsp in Hin. apply filter_In in Hin as [_ H].
    now rewrite Ascii.eqb_refl in H.
  - destruct (@replace_double_space_shorter
                (length (remove_nbsp (strip mark))) (remove_nbsp (strip mark)))
      as [Hlen _]; [lia|].
    pose proof (filter_shorter (fun c => negb (Ascii.eqb c nbsp)) (strip mark))
      as H1.
    fold (remove_nbsp (strip mark)) in H1.
    assert (length (strip mark) <= length mark)%nat as H2.
    { unfold strip, rstrip, lstrip. rewrite length_rev.
      assert (forall l, length (drop_while is_space l) <= length l)%nat as Hd.
      { induction l as [|c l IH]; cbn [drop_while]; [lia|].
        destruct (is_space c); simpl; lia. }
      pose proof (Hd (rev (drop_while is_space mark))) as H3.
      rewrite length_rev in H3. pose proof (Hd mark). lia. }
    lia.
  - intros H. destruct (clean_text_fixed H) as (-> & -> & ->). reflexivity.
  - reflexivity.
Qed.

(** *** Marks: clean times *)

Lemma digit_facts (c : ascii) :
  is_digit c = true ->
  is_space c = false /\ is_alpha c = false /\ upper_char c = c /\
  Ascii.eqb c "(" = false /\ Ascii.eqb c ":" = false /\
  Ascii.eqb c "-" = false /\ Ascii.eqb c "+" = false /\
  Ascii.eqb c "_" = false /\ Ascii.eqb c "." = false /\
  Ascii.eqb c "D" = false /\ Ascii.eqb c "N" = false /\
  Ascii.eqb c "F" = false.
Proof.
  intros H.
  destruct c as [[] [] [] [] [] [] [] []]; vm_compute in H; try discriminate;
    repeat split; reflexivity.
Qed.

Lemma time_char_facts (c : ascii) :
  time_char c ->
  is_space c = false /\ is_alpha c = false /\ upper_char c = c /\
  Ascii.eqb c "(" = false.
Proof.
  intros [H|[-> | ->]]; [|repeat split; reflexivity..].
  destruct (digit_facts c H) as (H1 & H2 & H3 & H4 & _). auto.
Qed.

Lemma time_text_untouched (l : list ascii) :
  Forall time_char l ->
  upper (_normalize_mark l) = l /\ sub_parens O l = l /\
  sub_trailing_letter l = l /\ strip l = l.
Proof.
  intros H.
  assert (Forall (fun c => is_space c = false) l) as Hsp.
  { eapply Forall_impl; [|exact H]. intros c Hc.
    now destruct (time_char_facts Hc). }
  destruct (clean_text_fixed Hsp) as (Hstrip & Hnb & Hds).
  split; [|split; [|split]].
  - unfold _normalize_mark. rewrite Hstrip, Hnb, Hds. unfold upper.
    induction H as [|c l Hc Hl IH]; [reflexivity|].
    cbn [map]. destruct (time_char_facts Hc) as (_ & _ & -> & _).
    f_equal. apply IH.
    + now inversion Hsp.
    + destruct (clean_text_fixed (Forall_inv_tail Hsp)) as (E & _). exact E.
    + destruct (clean_text_fixed (Forall_inv_tail Hsp)) as (_ & E & _). exact E.
    + destruct (clean_text_fixed (Forall_inv_tail Hsp)) as (_ & _ & E). exact E.
  - clear Hsp Hstrip Hnb Hds.
    induction H as [|c l Hc Hl IH]; [reflexivity|].
    destruct (time_char_facts Hc) as (Hs & _ & _ & Hp).
    cbn [sub_parens]. unfold paren_match_len.
    cbn [drop_while take_while]. rewrite Hs, Hp. now rewrite IH.
  - clear Hsp Hstrip Hnb Hds.
    induction H as [|c l Hc Hl IH]; [reflexivity|].
    destruct (time_char_facts Hc) as (_ & Ha & _).
    cbn [sub_trailing_letter]. rewrite Ha. cbn [andb]. now rewrite IH.
  - exact Hstrip.
Qed.

Lemma float_space_is_space (c : ascii) :
  is_space c = false -> PyFloat.is_float_space c = false.
Proof.
  destruct c as [[] [] [] [] [] [] [] []]; vm_compute; intros H;
    first [reflexivity|discriminate].
Qed.

Lemma float_strip_time_text (l : list ascii) :
  Forall time_char l -> PyFloat.float_strip l = l.
Proof.
  intros H.
  assert (forall t, Forall time_char t ->
                    drop_while PyFloat.is_float_space t = t) as Hdrop.
  { intros t Ht. destruct Ht as [|c t Hc Ht]; [reflexivity|].
    cbn [drop_while].
    destruct (time_char_facts Hc) as (Hs & _).
    now rewrite (float_space_is_space c Hs). }
  unfold PyFloat.float_strip.
  rewrite (Hdrop l H), (Hdrop (rev l) (Forall_rev H)).
  apply rev_involutive.
Qed.

Lemma digitpart_all (b : bool) (ds : list ascii) :
  all_digits ds -> PyFloat.digitpart b ds = (ds, []).
Proof.
  intros H. revert b. induction H as [|c l Hc Hl IH]; intros b;
    cbn [PyFloat.digitpart]; [reflexivity|].
  now rewrite Hc, IH.
Qed.

Lemma digitpart_stop (b : bool) (ds rest : list ascii) (c : ascii) :
  all_digits ds -> is_digit c = false -> Ascii.eqb c "_" = false ->
  PyFloat.digitpart b (ds ++ c :: rest) = (ds, c :: rest).
Proof.
  intros H Hc Hu. revert b. induction H as [|x l Hx Hl IH]; intros b;
    cbn [PyFloat.digitpart app].
  - rewrite Hc, Hu. reflexivity.
  - now rewrite Hx, IH.
Qed.

Lemma read_sign_digit (c : ascii) (l : list ascii) :
  is_digit c = true -> PyFloat.read_sign (c :: l) = (false, c :: l).
Proof.
  intros H. destruct (digit_facts c H) as (_ & _ & _ & _ & _ & Hm & Hp & _).
  unfold PyFloat.read_sign. now rewrite Hm, Hp.
Qed.

Lemma py_float_digits (ds : list ascii) :
  all_digits ds -> ds <> [] ->
  PyFloat.py_float ds = Some (inject_Z (PyFloat.digits_to_Z ds)).
Proof.
  intros H Hne.
  assert (Forall time_char ds) as Ht
      by (eapply Forall_impl; [|exact H]; intros c Hc; now left).
  unfold PyFloat.py_float. rewrite (float_strip_time_text Ht).
  destruct ds as [|c l]; [congruence|].
  rewrite read_sign_digit by now inversion H.
  rewrite (digitpart_all false H).
  cbn [PyFloat.read_exponent length Z.of_nat]. rewrite app_nil_r.
  unfold PyFloat.scale10. cbn [Z.sub Z.leb Z.compare Z.opp Z.pow Z.pow_pos].
  change (0 - 0 >=? 0)%Z with true.
  replace (0 <=? 0 - 0)%Z with true by reflexivity.
  replace (10 ^ (0 - 0))%Z with 1%Z by reflexivity.
  now rewrite Z.mul_1_r.
Qed.

Lemma py_float_decimal (ip fp : list ascii) :
  all_digits ip -> ip <> [] -> all_digits fp -> fp <> [] ->
  exists v, PyFloat.py_float (ip ++ "."%char :: fp) = Some v /\
            v == decimal_value ip fp.
Proof.
  intros Hi Hine Hf Hfne.
  assert (Forall time_char (ip ++ "."%char :: fp)) as Ht.
  { apply Forall_app. split.
    - eapply Forall_impl; [|exact Hi]. intros c Hc. now left.
    - constructor; [right; now left|].
      eapply Forall_impl; [|exact Hf]. intros c Hc. now left. }
  unfold PyFloat.py_float. rewrite (float_strip_time_text Ht).
  assert (PyFloat.read_sign (ip ++ "."%char :: fp)
          = (false, ip ++ "."%char :: fp)) as ->.
  { destruct ip as [|c l]; [congruence|]. cbn [app].
    apply read_sign_digit. now inversion Hi. }
  rewrite (@digitpart_stop false ip fp "."%char Hi eq_refl eq_refl).
  replace (Ascii.eqb "." ".") with true by reflexivity.
  rewrite (digitpart_all false Hf).
  assert (0 < Z.of_nat (length fp))%Z as Hlen
      by (destruct fp; [congruence|cbn [length]; lia]).
  exists (PyFloat.scale10 (PyFloat.digits_to_Z (ip ++ fp))
                          (0 - Z.of_nat (length fp))).
  split; [destruct ip; [congruence|reflexivity]|].
  unfold PyFloat.scale10, decimal_value.
  replace (0 <=? 0 - Z.of_nat (length fp))%Z with false by lia.
  rewrite Qred_correct, Qmake_Qdiv.
  replace (- (0 - Z.of_nat (length fp)))%Z with (Z.of_nat (length fp)) by lia.
  rewrite Z2Pos.id by (apply Z.pow_pos_nonneg; lia).
  reflexivity.
Qed.

Lemma digit_not_word (c : ascii) (t : list ascii) :
  is_digit c = true -> text_in (c :: t) unparseable_words = false.
Proof.
  intros H.
  destruct (digit_facts c H)
    as (_ & _ & _ & _ & _ & _ & _ & _ & _ & HD & HN & HF).
  unfold text_in, unparseable_words.
  cbn [existsb string_of_list_ascii String.eqb]. now rewrite HD, HN, HF.
Qed.

(** X23. A mark written as digits, a point and digits is read as that
    decimal number of seconds, and a mark written as digits, a colon and
    such a decimal is read as 60 times the minutes plus the seconds. *)
Theorem mark_to_seconds_reads_clean_times (m s f : list ascii) :
  all_digits s -> s <> [] -> all_digits f -> f <> [] ->
  (exists v,
      _mark_to_seconds (string_of_list_ascii (s ++ "."%char :: f)) = Some v /\
      v == decimal_value s f) /\
  (all_digits m -> m <> [] ->
   exists v,
     _mark_to_seconds
       (string_of_list_ascii (m ++ ":"%char :: s ++ "."%char :: f)) = Some v /\
     v == inject_Z (PyFloat.digits_to_Z m) * 60 + decimal_value s f).
Proof.
  intros Hs Hsne Hf Hfne.
  assert (Forall time_char (s ++ "."%char :: f)) as Hsec.
  { apply Forall_app. split.
    - eapply Forall_impl; [|exact Hs]. intros c Hc. now left.
    - constructor; [right; now left|].
      eapply Forall_impl; [|exact Hf]. intros c Hc. now left. }
  assert (forall l, all_digits l ->
                    Forall (fun c => not_sep ":" c = true) l /\
                    existsb (Ascii.eqb ":") l = false) as Hcolon.
  { induction 1 as [|c l Hc Hl [IH1 IH2]]; [split; [constructor|reflexivity]|].
    destruct (digit_facts c Hc) as (_ & _ & _ & _ & Hn & _).
    split.
    - constructor; [unfold not_sep; now rewrite Hn|exact IH1].
    - cbn [existsb]. rewrite Ascii.eqb_sym, Hn. exact IH2. }
  destruct (py_float_decimal Hs Hsne Hf Hfne) as (v & Hv & Hval).
  split.
  - exists v. split; [|exact Hval].
    unfold _mark_to_seconds. rewrite of_string_list.
    destruct (time_text_untouched Hsec) as (-> & -> & -> & ->).
    destruct s as [|c0 s0] eqn:Es; [congruence|]. rewrite <- Es in *.
    assert (text_in (s ++ "."%char :: f) unparseable_words = false) as ->.
    { rewrite Es. cbn [app]. apply digit_not_word. rewrite Es in Hs.
      now inversion Hs. }
    destruct f as [|f0 fs] eqn:Ef; [congruence|]. rewrite <- Ef in *.
    assert (feet_inches_shape (s ++ "."%char :: f) = false) as ->.
    { unfold feet_inches_shape.
      rewrite (@take_while_stop is_digit s f "."%char Hs eq_refl).
      rewrite (@drop_while_stop is_digit s f "."%char Hs eq_refl).
      rewrite Es at 1. rewrite Ef. reflexivity. }
    assert (existsb (Ascii.eqb ":") (s ++ "."%char :: f) = false) as ->.
    { rewrite existsb_app. cbn [existsb].
      rewrite (proj2 (Hcolon s Hs)), (proj2 (Hcolon f Hf)). reflexivity. }
    exact Hv.
  - intros Hm Hmne.
    assert (Forall time_char (m ++ ":"%char :: s ++ "."%char :: f)) as Hall.
    { apply Forall_app. split.
      - eapply Forall_impl; [|exact Hm]. intros c Hc. now left.
      - constructor; [right; now right|exact Hsec]. }
    exists (inject_Z (PyFloat.digits_to_Z m) * 60 + v). split; [|now rewrite Hval].
    unfold _mark_to_seconds. rewrite of_string_list.
    destruct (time_text_untouched Hall) as (-> & -> & -> & ->).
    destruct m as [|c0 m0] eqn:Em; [congruence|]. rewrite <- Em in *.
    assert (text_in (m ++ ":"%char :: s ++ "."%char :: f) unparseable_words
            = false) as ->.
    { rewrite Em. cbn [app]. apply digit_not_word. rewrite Em in Hm.
      now inversion Hm. }
    assert (feet_inches_shape (m ++ ":"%char :: s ++ "."%char :: f) = false)
      as ->.
    { unfold feet_inches_shape.
      rewrite (@take_while_stop is_digit m _ ":"%char Hm eq_refl).
      rewrite (@drop_while_stop is_digit m _ ":"%char Hm eq_refl).
      rewrite Em at 1.
      destruct s as [|c1 s1]; [congruence|]. reflexivity. }
    assert (existsb (Ascii.eqb ":") (m ++ ":"%char :: s ++ "."%char :: f)
            = true) as ->.
    { rewrite existsb_app. cbn [existsb].
      replace (Ascii.eqb ":" ":") with true by reflexivity.
      cbn [orb]. apply orb_true_r. }
    unfold split_part0, split_part1.
    rewrite (@take_while_stop (not_sep ":") m _ ":"%char
                              (proj1 (Hcolon m Hm)) eq_refl).
    rewrite (@drop_while_stop (not_sep ":") m _ ":"%char
                              (proj1 (Hcolon m Hm)) eq_refl).
    rewrite (py_float_digits Hm Hmne).
    rewrite take_while_all.
    2:{ apply Forall_app. split; [exact (proj1 (Hcolon s Hs))|].
        constructor; [reflexivity|exact (proj1 (Hcolon f Hf))]. }
    rewrite Hv. reflexivity.
Qed.

(** The mark 1:45.23. *)
Lemma mark_to_seconds_reads_clean_times_witness :
  all_digits (of_string "45") /\ of_string "45" <> [] /\
  all_digits (of_string "23") /\ of_string "23" <> [] /\
  all_digits (of_string "1") /\ of_string "1" <> [] /\
  exists v, _mark_to_seconds "1:45.23" = Some v /\ v == 10523 # 100.
Proof.
  assert (all_digits (of_string "45")) as H1 by (repeat constructor).
  assert (of_string "45" <> []) as H2 by discriminate.
  assert (all_digits (of_string "23")) as H3 by (repeat constructor).
  assert (of_string "23" <> []) as H4 by discriminate.
  assert (all_digits (of_string "1")) as H5 by (repeat constructor).
  assert (of_string "1" <> []) as H6 by discriminate.
  split; [exact H1|]. split; [exact H2|]. split; [exact H3|].
  split; [exact H4|]. split; [exact H5|]. split; [exact H6|].
  destruct (proj2 (@mark_to_seconds_reads_clean_times
                     (of_string "1") (of_string "45") (of_string "23")
                     H1 H2 H3 H4) H5 H6) as (v & Hv & Hval).
  exists v. split; [exact Hv|]. rewrite Hval. reflexivity.
Defined.

(** *** Simulator: the probabilities of one event *)

Lemma geometric_map_seq (r : Q) (g : nat -> Q) (s m : nat) :
  (forall k, g (S k) == r * g k) -> geometric r (map g (seq s m)).
Proof.
  intros Hg. revert s. induction m as [|m IH]; intros s; [exact I|].
  cbn [seq map]. destruct m as [|m']; [exact I|].
  cbn [seq map]. split; [apply Hg|].
  exact (IH (S s)).
Qed.

(** X24. The win probabilities that the simulator gives the named entrants of
    an event, listed by rank, are positive and add up to 1 when there is an
    entrant; with two entrants or more each is 0.65 times the one before
    it.  They depend on the number of named entrants only: the table of
    top-seed win probabilities by event type has no effect. *)
Theorem entrant_probabilities_geometric (event : MeetEvent.t) :
  exists probs,
    event_probs event
    = Ok (combine (map snd (_rank_entries_by_seed event)) probs) /\
    length probs = named_count event /\
    (forall p, In p probs -> 0 < p) /\
    (named_count event <> O -> sum_Q probs == 1) /\
    geometric (65 # 100) probs.
Proof.
  unfold event_probs.
  assert (length (map snd (_rank_entries_by_seed event)) = named_count event)
    as Hlen.
  { unfold named_count. apply Permutation_length, ranked_entries_perm. }
  rewrite Hlen.
  set (n := named_count event).
  set (top := _get_top_seed_win_prob event).
  set (strengths := map (fun i => _seed_rank_to_strength (i + 1) (Z.of_nat n) top)
                        (range 0 (Z.of_nat n))).
  assert (length strengths = n) as Hslen.
  { unfold strengths. rewrite length_map, range_length. lia. }
  assert (forall s, In s strengths -> 0 < s) as Hspos.
  { intros s Hs. unfold strengths in Hs.
    apply in_map_iff in Hs as (i & <- & _). apply strength_pos. }
  destruct n as [|n'] eqn:En.
  { exists []. destruct strengths; [|discriminate].
    repeat split; try reflexivity; try tauto. }
  assert (0 < sum_Q strengths) as Htot.
  { apply sum_Q_pos; [|exact Hspos]. destruct strengths; discriminate. }
  rewrite (@map_result_total _ _ _ (fun s => s / sum_Q strengths)).
  2:{ intros s _. apply py_div_ok. lra. }
  cbn [bind]. eexists. split; [reflexivity|].
  split; [now rewrite length_map|]. split; [|split].
  - intros p Hp. apply in_map_iff in Hp as (s & <- & Hs).
    apply Qlt_shift_div_l; [exact Htot|]. specialize (Hspos s Hs). lra.
  - intros _. rewrite (sum_scaled (fun s => s)), map_id. field. lra.
  - destruct n' as [|n''].
    { destruct strengths as [|s [|]]; try discriminate. exact I. }
    set (T := sum_Q strengths) in *.
    unfold strengths, range.
    rewrite !map_map.
    apply geometric_map_seq. intros k.
    unfold _seed_rank_to_strength.
    destruct (Z.leb_spec (Z.of_nat (S (S n''))) 1) as [Hle|_]; [lia|].
    replace (0 + Z.of_nat (S k) + 1 - 1)%Z with (Z.of_nat k + 1)%Z by lia.
    replace (0 + Z.of_nat k + 1 - 1)%Z with (Z.of_nat k) by lia.
    rewrite Qpower_plus by (unfold decay; lra).
    unfold decay. change ((65 # 100) ^ 1) with (65 # 100).
    set (a := (65 # 100) ^ Z.of_nat k).
    field. lra.
Qed.

(** *** Gender and round of an event *)

Lemma lower_upper_char (c : ascii) : lower_char (upper_char c) = lower_char c.
Proof. destruct c as [[] [] [] [] [] [] [] []]; reflexivity. Qed.

Lemma is_prefix_app (sub l b : list ascii) :
  is_prefix sub l = true -> is_prefix sub (l ++ b) = true.
Proof.
  revert l. induction sub as [|x sub IH]; intros l; [reflexivity|].
  destruct l as [|c l]; cbn [is_prefix app]; [discriminate|].
  intros H. apply andb_prop in H as [H1 H2]. now rewrite H1, IH.
Qed.

Lemma contains_inside (sub a l b : list ascii) :
  contains sub l = true -> contains sub (a ++ l ++ b) = true.
Proof.
  intros H.
  assert (contains sub (l ++ b) = true) as Hb.
  { clear a. induction l as [|c l IH].
    - cbn [contains] in H. rewrite orb_false_r in H.
      destruct sub; [|discriminate]. destruct b; reflexivity.
    - cbn [contains app] in *. apply orb_prop in H as [H|H].
      + pose proof (is_prefix_app _ _ b H) as Hp. cbn [app] in Hp.
        now rewrite Hp.
      + rewrite (IH H). apply orb_true_r. }
  induction a as [|c a IH]; [exact Hb|].
  cbn [app contains]. rewrite IH. apply orb_true_r.
Qed.

(** X25. The gender and the round read from a name do not depend on the
    case of its letters, and a name that holds the word women, or prelim,
    keeps its reading whatever text is put before or after it. *)
Theorem infer_gender_and_round_by_keyword (a s b : list ascii) :
  _infer_gender (string_of_list_ascii (upper s))
  = _infer_gender (string_of_list_ascii s) /\
  _infer_round (string_of_list_ascii (upper s))
  = _infer_round (string_of_list_ascii s) /\
  (_infer_gender (string_of_list_ascii s) = Gender.WOMEN ->
   _infer_gender (string_of_list_ascii (a ++ s ++ b)) = Gender.WOMEN) /\
  (_infer_round (string_of_list_ascii s) = RoundType.PRELIM ->
   _infer_round (string_of_list_ascii (a ++ s ++ b)) = RoundType.PRELIM).
Proof.
  unfold _infer_gender, _infer_round. rewrite !of_string_list.
  assert (lower (upper s) = lower s) as ->.
  { unfold lower, upper. rewrite map_map. apply map_ext, lower_upper_char. }
  split; [reflexivity|]. split; [reflexivity|].
  unfold lower. rewrite !map_app. split.
  - destruct (contains (of_string "women") (map lower_char s)) eqn:E;
      [|discriminate].
    intros _. now rewrite (contains_inside _ _ _ _ E).
  - destruct (contains (of_string "prelim") (map lower_char s)) eqn:E;
      [|discriminate].
    intros _. now rewrite (contains_inside _ _ _ _ E).
Qed.

(** A women's final named with a prefix and a suffix. *)
Lemma infer_gender_and_round_by_keyword_witness :
  _infer_gender "women" = Gender.WOMEN /\
  _infer_gender "NCAA women 60m" = Gender.WOMEN.
Proof.
  split; [reflexivity|].
  exact (proj1 (proj2 (proj2 (@infer_gender_and_round_by_keyword
                                (of_string "NCAA ") (of_string "women")
                                (of_string " 60m"))))
               eq_refl).
Defined.

(** *** The arithmetic of the seed projection *)



(** In exact arithmetic the functions of this part are those of the
    sections above. *)
Lemma mark_to_seconds_in_exact (mark : string) :
  _mark_to_seconds_in exact_arith mark = Scraper._mark_to_seconds mark.
Proof. reflexivity. Qed.




















(** Seeds written 9.000 and 9.001 are less than the tolerance apart as
    floats and share places 1 and 2; as decimals they are not. *)
Lemma close_seeds_tie_as_floats :
  compute_seed_projection_in binary64 standard_place_points
                             spec_get_upcoming_finals []
                             close_seeds_meet Gender.MEN
  = Ok [("A", PyFloat 9); ("B", PyFloat 9)]%string /\
  compute_seed_projection standard_place_points spec_get_upcoming_finals []
                          close_seeds_meet Gender.MEN
  = [("A", 10); ("B", 8)]%string.
Proof. split; vm_compute; reflexivity. Qed.
